(** * CLI-Chat: the chat server's command router, session registry and
      file relay, the client's file receiver, and the whisper encryption
      manager, embedded from [src/backend/server.py],
      [src/frontend/client.py] and [src/utils/encryption.py].

    Text is modelled over code points below 256 ([ascii]); the Python
    string methods used by the server are given their CPython meaning on
    that range.  JSON frames are modelled by their parsed value.  A
    handler runs as one step: the interleaving of coroutines at [await]
    points is not modelled. *)

From Stdlib Require Import ZArith NArith Ascii String List Bool Lia.
From stdpp Require Import gmap strings list fin_maps pretty.

Local Open Scope string_scope.
Local Open Scope list_scope.
Local Open Scope Z_scope.

(** ** Python string methods *)

Module PyStr.

(** [str.isspace] on one code point below 256: TAB..CR, FS..US, SPACE,
    NEL and NBSP. *)
Definition isspace (c : ascii) : bool :=
  let n := N_of_ascii c in
  ((9 <=? n) && (n <=? 13) || (28 <=? n) && (n <=? 32)
   || (n =? 133) || (n =? 160))%N.

(** [str.lower] on one code point below 256: A..Z and the Latin-1
    capitals (all of C0..DE but the multiplication sign D7). *)
Definition lower_char (c : ascii) : ascii :=
  let n := N_of_ascii c in
  if ((65 <=? n) && (n <=? 90)
      || (192 <=? n) && (n <=? 222) && negb (n =? 215))%N
  then ascii_of_N (n + 32) else c.

Fixpoint lower (s : string) : string :=
  match s with
  | EmptyString => EmptyString
  | String c r => String (lower_char c) (lower r)
  end.

Fixpoint lstrip (s : string) : string :=
  match s with
  | EmptyString => EmptyString
  | String c r => if isspace c then lstrip r else s
  end.

Fixpoint rstrip (s : string) : string :=
  match s with
  | EmptyString => EmptyString
  | String c r =>
      match rstrip r with
      | EmptyString => if isspace c then EmptyString else String c EmptyString
      | r' => String c r'
      end
  end.

(** [s.strip()] *)
Definition strip (s : string) : string := rstrip (lstrip s).

(** [s.startswith(p)] *)
Fixpoint startswith (p s : string) : bool :=
  match p, s with
  | EmptyString, _ => true
  | String a p', String b s' => Ascii.eqb a b && startswith p' s'
  | String _ _, EmptyString => false
  end.

(** [s.split(sep, maxsplit)] for a one-character separator. *)
Fixpoint split (sep : ascii) (s : string) (maxsplit : nat) {struct s}
  : list string :=
  match s with
  | EmptyString => [EmptyString]
  | String c r =>
      match maxsplit with
      | O => [s]
      | S n =>
          if Ascii.eqb c sep then EmptyString :: split sep r n
          else match split sep r maxsplit with
               | [] => [String c EmptyString]
               | h :: t => String c h :: t
               end
      end
  end.

(** [sep.join(l)] *)
Fixpoint join (sep : string) (l : list string) : string :=
  match l with
  | [] => EmptyString
  | [x] => x
  | x :: r => x +:+ sep +:+ join sep r
  end.

(** [s[n:]] *)
Fixpoint drop (n : nat) (s : string) : string :=
  match n, s with
  | O, _ => s
  | S n', String _ r => drop n' r
  | S _, EmptyString => EmptyString
  end.

End PyStr.

(** ** [base64.b64decode] of the standard library

    The non-strict decoder of CPython ([binascii.a2b_base64]), used where a
    concrete decoder is needed; the server's theorems hold for any decoder. *)

Module PyBase64.

(** [table_a2b_base64]: the value of an alphabet character. *)
Definition value (c : ascii) : option N :=
  let n := N_of_ascii c in
  (if (65 <=? n) && (n <=? 90) then Some (n - 65)
   else if (97 <=? n) && (n <=? 122) then Some (n - 71)
   else if (48 <=? n) && (n <=? 57) then Some (n + 4)
   else if n =? 43 then Some 62
   else if n =? 47 then Some 63
   else None)%N.

Definition octet (n : N) : ascii := ascii_of_N (N.land n 255).

(** The decoding loop: characters outside the alphabet are skipped, a
    pad sequence that completes a quad ends the input, and input that
    stops inside a quad is an error. *)
Fixpoint a2b (s : string) (quad_pos : nat) (leftchar : N) (pads : nat)
    (out : list ascii) : option (list ascii) :=
  match s with
  | EmptyString => if Nat.eqb quad_pos 0 then Some out else None
  | String c r =>
      if Ascii.eqb c "=" then
        if Nat.leb 2 quad_pos then
          if Nat.leb 4 (quad_pos + S pads) then Some out
          else a2b r quad_pos leftchar (S pads) out
        else a2b r quad_pos leftchar pads out
      else
        match value c with
        | None => a2b r quad_pos leftchar pads out
        | Some v =>
            match quad_pos with
            | 0%nat => a2b r 1 v 0 out
            | 1%nat =>
                a2b r 2 (N.land v 15) 0
                  (out ++ [octet (N.lor (N.shiftl leftchar 2) (N.shiftr v 4))])
            | 2%nat =>
                a2b r 3 (N.land v 3) 0
                  (out ++ [octet (N.lor (N.shiftl leftchar 4) (N.shiftr v 2))])
            | _ =>
                a2b r 0 0 0
                  (out ++ [octet (N.lor (N.shiftl leftchar 6) v)])
            end
        end
  end.

Fixpoint is_ascii (s : string) : bool :=
  match s with
  | EmptyString => true
  | String c r => (N_of_ascii c <? 128)%N && is_ascii r
  end.

(** [base64.b64decode(s)] for a [str] argument; [None] when it raises. *)
Definition b64decode (s : string) : option (list ascii) :=
  if is_ascii s then a2b s 0 0 0 [] else None.

End PyBase64.

(** ** Data model of the server *)

(** A connection handle (a [websockets.WebSocketServerProtocol] object) is
    a [nat]: the identity of the object. *)

(** The columns of [database/models.py] that the server reads or writes. *)
Record User := mkUser { user_id : Z; user_username : string }.

Record Message := mkMessage {
  msg_user_id : Z;
  msg_content : string;
  msg_timestamp : Z;
  msg_type : string
}.

Record FileTransfer := mkFileTransfer {
  ft_filename : string;
  ft_size : Z;
  ft_sender_id : Z;
  ft_receiver_id : Z;
  ft_timestamp : Z;
  ft_status : string;
  ft_file_hash : string
}.

(** The JSON objects the server sends, by their ["type"] field. *)
Inductive Frame :=
| AuthResponse (success : bool) (detail : string)
| HistoryItem (type username content : string) (timestamp : Z)
| Notification (username content : string)
| Chat (username content : string) (timestamp : Z)
| CommandResponse (content : string)
| Whisper (username content : string) (timestamp : Z)
| FileEvent (username filename : string) (size : Z) (data hash : string)
            (timestamp : Z).

Inductive Exn :=
| ConnectionClosed
| AttributeError
| ValueError (msg : string).

(** What the server takes from outside the repository: the wall clock
    (one reading per call, indexed by the number of readings so far), the
    connections whose [send] raises, [base64.b64decode] and
    [hashlib.sha256(...).hexdigest()]. *)
Record Env := mkEnv {
  clock : nat -> Z;
  send_fails : nat -> bool;
  b64decode : string -> option (list ascii);
  sha256_hexdigest : list ascii -> string
}.

(** The fields of [ChatServer], the three tables behind [db_engine], and
    the observable effects: [wire] lists the frames that reached a
    connection, oldest first, [closed] the connections the server closed,
    [log] the [logger.error] calls. *)
Record ChatServer := mkServer {
  moderator_username : string;
  clients : gset nat;
  online_users : list (nat * string);
  user_websockets : gmap string nat;
  moderator_ws : option nat;
  moderator_disconnect_event : bool;
  db_users : list User;
  db_messages : list Message;
  db_file_transfers : list FileTransfer;
  wire : list (nat * Frame);
  closed : list nat;
  log : list string;
  ticks : nat
}.

(** [ChatServer.__init__] over a given database content. *)
Definition new_server (moderator : string) (users : list User)
    (messages : list Message) (transfers : list FileTransfer) : ChatServer :=
  mkServer moderator ∅ [] ∅ None false users messages transfers [] [] [] O.

(** *** Insertion-ordered dictionary ([online_users]) *)

Fixpoint dict_get {V} (k : nat) (d : list (nat * V)) : option V :=
  match d with
  | [] => None
  | (k', v) :: r => if Nat.eqb k k' then Some v else dict_get k r
  end.

Fixpoint dict_set {V} (k : nat) (v : V) (d : list (nat * V)) : list (nat * V) :=
  match d with
  | [] => [(k, v)]
  | (k', v') :: r =>
      if Nat.eqb k k' then (k', v) :: r else (k', v') :: dict_set k v r
  end.

Fixpoint dict_pop {V} (k : nat) (d : list (nat * V)) : list (nat * V) :=
  match d with
  | [] => []
  | (k', v') :: r => if Nat.eqb k k' then r else (k', v') :: dict_pop k r
  end.

(** *** Field updates *)

Definition set_clients (f : gset nat -> gset nat) (s : ChatServer) :=
  mkServer (moderator_username s) (f (clients s)) (online_users s)
    (user_websockets s) (moderator_ws s) (moderator_disconnect_event s)
    (db_users s) (db_messages s) (db_file_transfers s) (wire s) (closed s)
    (log s) (ticks s).

Definition set_online_users (f : list (nat * string) -> list (nat * string))
    (s : ChatServer) :=
  mkServer (moderator_username s) (clients s) (f (online_users s))
    (user_websockets s) (moderator_ws s) (moderator_disconnect_event s)
    (db_users s) (db_messages s) (db_file_transfers s) (wire s) (closed s)
    (log s) (ticks s).

Definition set_user_websockets (f : gmap string nat -> gmap string nat)
    (s : ChatServer) :=
  mkServer (moderator_username s) (clients s) (online_users s)
    (f (user_websockets s)) (moderator_ws s) (moderator_disconnect_event s)
    (db_users s) (db_messages s) (db_file_transfers s) (wire s) (closed s)
    (log s) (ticks s).

Definition set_moderator_ws (m : option nat) (s : ChatServer) :=
  mkServer (moderator_username s) (clients s) (online_users s)
    (user_websockets s) m (moderator_disconnect_event s)
    (db_users s) (db_messages s) (db_file_transfers s) (wire s) (closed s)
    (log s) (ticks s).

Definition set_moderator_disconnect_event (b : bool) (s : ChatServer) :=
  mkServer (moderator_username s) (clients s) (online_users s)
    (user_websockets s) (moderator_ws s) b
    (db_users s) (db_messages s) (db_file_transfers s) (wire s) (closed s)
    (log s) (ticks s).

Definition set_db_messages (f : list Message -> list Message) (s : ChatServer) :=
  mkServer (moderator_username s) (clients s) (online_users s)
    (user_websockets s) (moderator_ws s) (moderator_disconnect_event s)
    (db_users s) (f (db_messages s)) (db_file_transfers s) (wire s) (closed s)
    (log s) (ticks s).

Definition set_db_file_transfers (f : list FileTransfer -> list FileTransfer)
    (s : ChatServer) :=
  mkServer (moderator_username s) (clients s) (online_users s)
    (user_websockets s) (moderator_ws s) (moderator_disconnect_event s)
    (db_users s) (db_messages s) (f (db_file_transfers s)) (wire s) (closed s)
    (log s) (ticks s).

Definition set_wire (f : list (nat * Frame) -> list (nat * Frame))
    (s : ChatServer) :=
  mkServer (moderator_username s) (clients s) (online_users s)
    (user_websockets s) (moderator_ws s) (moderator_disconnect_event s)
    (db_users s) (db_messages s) (db_file_transfers s) (f (wire s)) (closed s)
    (log s) (ticks s).

Definition set_closed (f : list nat -> list nat) (s : ChatServer) :=
  mkServer (moderator_username s) (clients s) (online_users s)
    (user_websockets s) (moderator_ws s) (moderator_disconnect_event s)
    (db_users s) (db_messages s) (db_file_transfers s) (wire s) (f (closed s))
    (log s) (ticks s).

Definition set_log (f : list string -> list string) (s : ChatServer) :=
  mkServer (moderator_username s) (clients s) (online_users s)
    (user_websockets s) (moderator_ws s) (moderator_disconnect_event s)
    (db_users s) (db_messages s) (db_file_transfers s) (wire s) (closed s)
    (f (log s)) (ticks s).

Definition set_ticks (f : nat -> nat) (s : ChatServer) :=
  mkServer (moderator_username s) (clients s) (online_users s)
    (user_websockets s) (moderator_ws s) (moderator_disconnect_event s)
    (db_users s) (db_messages s) (db_file_transfers s) (wire s) (closed s)
    (log s) (f (ticks s)).

(** *** The handler monad: server state, and a result or a raised exception *)

Inductive Res (A : Type) :=
| Ok (a : A)
| Raise (e : Exn).
Arguments Ok {A} a.
Arguments Raise {A} e.

Definition M (A : Type) : Type := ChatServer -> Res A * ChatServer.

#[global] Instance M_ret : MRet M := fun A a st => (Ok a, st).

#[global] Instance M_bind : MBind M := fun A B f m st =>
  match m st with
  | (Ok a, st') => f a st'
  | (Raise e, st') => (Raise e, st')
  end.

Definition get : M ChatServer := fun st => (Ok st, st).
Definition modify (f : ChatServer -> ChatServer) : M unit :=
  fun st => (Ok tt, f st).
Definition raise {A} (e : Exn) : M A := fun st => (Raise e, st).

(** [try: body except Exception as e: handler(e)] *)
Definition try_except {A} (body : M A) (handler : Exn -> M A) : M A :=
  fun st =>
    match body st with
    | (Ok a, st') => (Ok a, st')
    | (Raise e, st') => handler e st'
    end.

Definition logger_error (line : string) : M unit :=
  modify (set_log (fun l => l ++ [line])).

(** ** The server's operations *)

Section Server.

Variable env : Env.

(** [datetime.datetime.now(...)], and the [default=utcnow] of a
    [timestamp] column. *)
Definition now : M Z :=
  fun st => (Ok (clock env (ticks st)), set_ticks S st).

(** [await websocket.send(json.dumps(frame))] *)
Definition send (ws : nat) (frame : Frame) : M unit :=
  if send_fails env ws then raise ConnectionClosed
  else modify (set_wire (fun w => w ++ [(ws, frame)])).

(** [await websocket.close()] *)
Definition ws_close (ws : nat) : M unit :=
  modify (set_closed (fun c => c ++ [ws])).

(** [session.query(User).filter_by(username=...).first()] *)
Definition find_user (username : string) (users : list User) : option User :=
  List.find (fun u => String.eqb (user_username u) username) users.

(** [session.query(User).filter_by(id=...).first()] *)
Definition find_user_by_id (id : Z) (users : list User) : option User :=
  List.find (fun u => Z.eqb (user_id u) id) users.

(** [f"*{username}"] for the moderator name, the name itself otherwise. *)
Definition display_name (st : ChatServer) (username : string) : string :=
  if String.eqb username (moderator_username st)
  then "*" +:+ username else username.

(** One [client.send] of [notify_all]'s [gather(..., return_exceptions=True)]:
    the exception of a failing send is collected and logged. *)
Definition gather_one (frame : Frame) (ws : nat) (st : ChatServer)
  : ChatServer :=
  if send_fails env ws
  then set_log (fun l => l ++ ["Error sending message"]) st
  else set_wire (fun w => w ++ [(ws, frame)]) st.

(** [ChatServer.notify_all] *)
Definition notify_all (frame : Frame) : M unit :=
  fun st => (Ok tt, fold_left (fun s ws => gather_one frame ws s)
                              (elements (clients st)) st).

(** [ChatServer.notify_user] *)
Definition notify_user (username : string) (frame : Frame) : M bool :=
  st ← get;
  match user_websockets st !! username with
  | Some ws =>
      try_except (send ws frame ;; mret true)
        (fun _ => logger_error ("Error sending message to " +:+ username) ;;
                  mret false)
  | None => mret false
  end.

(** [Message.type.in_(["chat", "notification"])] *)
Definition is_history_type (m : Message) : bool :=
  String.eqb (msg_type m) "chat" || String.eqb (msg_type m) "notification".

(** The rows matched by the [delete] of [/clear]. *)
Definition cleared_by (clear_point : Z) (m : Message) : bool :=
  (msg_timestamp m <? clear_point) && is_history_type m.

(** The size limit of [/file]: [10 * 1024 * 1024]. *)
Definition MAX_FILE_SIZE : Z := 10 * 1024 * 1024.

(** The [try] block of the [/file] branch. *)
Definition file_transfer (ws : nat) (username target_username file_data : string)
  : M unit :=
  match PyStr.split ";" file_data 1 with
  | [filename; base64_data] =>
      match b64decode env base64_data with
      | None => raise (ValueError "Invalid base64 data")
      | Some decoded_data =>
          let file_size := Z.of_nat (length decoded_data) in
          if file_size >? MAX_FILE_SIZE then
            send ws (CommandResponse "File too large. Maximum size is 10MB.")
          else
            st ← get;
            match find_user username (db_users st),
                  find_user target_username (db_users st) with
            | Some sender, Some receiver =>
                let file_hash := sha256_hexdigest env decoded_data in
                stamp ← now;
                modify (set_db_file_transfers (fun t => t ++
                  [mkFileTransfer filename file_size (user_id sender)
                     (user_id receiver) stamp "completed" file_hash])) ;;
                ts ← now;
                notify_user target_username
                  (FileEvent username filename file_size base64_data
                     file_hash ts) ;;
                send ws (CommandResponse
                  ("File '" +:+ filename +:+ "' (" +:+ pretty file_size
                   +:+ " bytes) sent to " +:+ target_username))
            | _, _ => raise (ValueError "User not found")
            end
      end
  | _ => raise (ValueError "Invalid file format")
  end.

(** The two [except] clauses of the [/file] branch. *)
Definition file_transfer_except (ws : nat) (e : Exn) : M unit :=
  match e with
  | ValueError msg => send ws (CommandResponse ("Error: " +:+ msg))
  | _ =>
      logger_error "Error processing file transfer" ;;
      send ws (CommandResponse
        "An error occurred while processing the file transfer.")
  end.

(** [ChatServer.handle_command] *)
Definition handle_command (ws : nat) (username command : string) : M unit :=
  let cmd := PyStr.lower (PyStr.strip command) in
  if String.eqb cmd "/users" then
    st ← get;
    send ws (CommandResponse
      ("Online users: " +:+ PyStr.join ", " (map snd (online_users st))))
  else if String.eqb cmd "/clear" then
    st ← get;
    if String.eqb username (moderator_username st) then
      clear_point ← now;
      match find_user username (db_users st) with
      | None => raise AttributeError
      | Some user =>
          stamp ← now;
          modify (set_db_messages (fun ms =>
            List.filter (fun m => negb (cleared_by clear_point m)) ms
            ++ [mkMessage (user_id user) "cleared the chat history." stamp
                  "clear"])) ;;
          notify_all (Notification ("*" +:+ moderator_username st)
                        "cleared the chat history.")
      end
    else
      send ws (CommandResponse
        "Permission denied. Only moderators can clear chat history.")
  else if String.eqb cmd "/quit" || String.eqb cmd "/exit" then
    send ws (CommandResponse "Disconnecting...") ;;
    ws_close ws
  else if PyStr.startswith "/whisper " cmd || PyStr.startswith "/w " cmd then
    match PyStr.split " " cmd 2 with
    | _ :: target_username :: private_message :: _ =>
        st ← get;
        match user_websockets st !! target_username with
        | None =>
            send ws (CommandResponse
              ("User " +:+ target_username +:+ " is not online."))
        | Some _ =>
            ts ← now;
            notify_user target_username
              (Whisper username private_message ts) ;;
            send ws (CommandResponse ("Whisper sent to " +:+ target_username))
        end
    | _ =>
        send ws (CommandResponse
          "Usage: /whisper <username> <message> or /w <username> <message>")
    end
  else if PyStr.startswith "/file " cmd then
    match PyStr.split " " cmd 2 with
    | _ :: target_username :: file_data :: _ =>
        st ← get;
        match user_websockets st !! target_username with
        | None =>
            send ws (CommandResponse
              ("User " +:+ target_username +:+ " is not online."))
        | Some _ =>
            try_except (file_transfer ws username target_username file_data)
              (file_transfer_except ws)
        end
    | _ =>
        send ws (CommandResponse
          "Usage: /file <username> <base64_encoded_file>")
    end
  else
    send ws (CommandResponse
      "Unknown command. Available commands: /users, /whisper, /w, /file, /clear, /quit, /exit").

(** [ChatServer.process_message] *)
Definition process_message (ws : nat) (username message : string) : M unit :=
  if PyStr.startswith "/" message then handle_command ws username message
  else
    st ← get;
    ts ← now;
    match find_user username (db_users st) with
    | None => raise AttributeError
    | Some user =>
        stamp ← now;
        modify (set_db_messages (fun ms =>
          ms ++ [mkMessage (user_id user) message stamp "chat"])) ;;
        notify_all (Chat (display_name st username) message ts)
    end.

End Server.

(** ** The life of a connection ([ChatServer.handle_client]) *)

(** The outcome of the authentication exchange: the credential check is
    an external collaborator. *)
Inductive AuthResult :=
| AuthRejected (message : string)
| AuthAccepted (username : string).

Section Lifecycle.

Variable env : Env.

Fixpoint for_each {A} (f : A -> M unit) (l : list A) : M unit :=
  match l with
  | [] => mret tt
  | x :: r => f x ;; for_each f r
  end.

(** [order_by(Message.timestamp.desc())]; rows with equal timestamps keep
    their table order. *)
Fixpoint insert_desc (m : Message) (l : list Message) : list Message :=
  match l with
  | [] => [m]
  | x :: r =>
      if msg_timestamp x <? msg_timestamp m then m :: l
      else x :: insert_desc m r
  end.

Definition order_by_timestamp_desc (l : list Message) : list Message :=
  fold_left (fun acc m => insert_desc m acc) l [].

(** [ChatServer.send_message_history] *)
Definition send_message_history (ws : nat) : M unit :=
  st ← get;
  let messages :=
    rev (firstn 100 (order_by_timestamp_desc
                       (List.filter is_history_type (db_messages st)))) in
  for_each (fun msg =>
    match find_user_by_id (msg_user_id msg) (db_users st) with
    | None => mret tt
    | Some user =>
        send env ws (HistoryItem (msg_type msg)
                       (display_name st (user_username user))
                       (msg_content msg) (msg_timestamp msg))
    end) messages.

(** "Register user as online" and "Set moderator websocket". *)
Definition register (ws : nat) (username : string) : M unit :=
  modify (set_online_users (dict_set ws username)) ;;
  modify (set_user_websockets (fun m => <[username := ws]> m)) ;;
  st ← get;
  match moderator_ws st with
  | None =>
      if String.eqb username (moderator_username st)
      then modify (set_moderator_ws (Some ws)) else mret tt
  | Some _ => mret tt
  end.

(** "Save join message" and "Broadcast join notification". *)
Definition announce_join (username : string) : M unit :=
  st ← get;
  match find_user username (db_users st) with
  | None => raise AttributeError
  | Some user =>
      stamp ← now env;
      modify (set_db_messages (fun ms =>
        ms ++ [mkMessage (user_id user) "joined the chat." stamp "join"])) ;;
      notify_all env (Notification (display_name st username)
                        "joined the chat.")
  end.

(** The [finally] block. *)
Definition cleanup (ws : nat) : M unit :=
  modify (set_clients (fun c => c ∖ {[ws]})) ;;
  st ← get;
  match dict_get ws (online_users st) with
  | Some username =>
      modify (set_online_users (dict_pop ws)) ;;
      modify (set_user_websockets (delete username)) ;;
      match find_user username (db_users st) with
      | Some user =>
          stamp ← now env;
          modify (set_db_messages (fun ms =>
            ms ++ [mkMessage (user_id user) "left the chat." stamp "leave"]))
      | None => mret tt
      end ;;
      notify_all env (Notification (display_name st username)
                        "left the chat.")
  | None => mret tt
  end ;;
  st' ← get;
  match moderator_ws st' with
  | Some m =>
      if Nat.eqb ws m then
        modify (set_moderator_ws None) ;;
        modify (set_moderator_disconnect_event true)
      else mret tt
  | None => mret tt
  end.

(** The [except] clauses: only [ConnectionClosed] is not logged as an
    error; every path then runs the [finally] block. *)
Definition on_exception (ws : nat) (e : Exn) : M unit :=
  match e with
  | ConnectionClosed => cleanup ws
  | _ => logger_error "Error handling client" ;; cleanup ws
  end.

(** From [self.clients.add(websocket)] to the start of the message loop. *)
Definition open_session (ws : nat) (auth : AuthResult) : M unit :=
  modify (set_clients (fun c => {[ws]} ∪ c)) ;;
  try_except
    match auth with
    | AuthRejected message =>
        send env ws (AuthResponse false message) ;;
        cleanup ws
    | AuthAccepted username =>
        send env ws (AuthResponse true username) ;;
        register ws username ;;
        send_message_history ws ;;
        announce_join username
    end
    (on_exception ws).

(** One iteration of [async for message in websocket], for a connection
    that is in its message loop; the loop ends when the handler raised
    or closed the connection. *)
Definition receive (ws : nat) (message : string) : M unit :=
  st ← get;
  match dict_get ws (online_users st) with
  | None => mret tt
  | Some username =>
      try_except
        (process_message env ws username message ;;
         st' ← get;
         if existsb (Nat.eqb ws) (closed st') then cleanup ws else mret tt)
        (on_exception ws)
  end.

Inductive Event :=
| Connect (ws : nat) (auth : AuthResult)
| Receive (ws : nat) (message : string)
| Disconnect (ws : nat).

Definition step (st : ChatServer) (ev : Event) : ChatServer :=
  match ev with
  | Connect ws auth => (open_session ws auth st).2
  | Receive ws message => (receive ws message st).2
  | Disconnect ws => (cleanup ws st).2
  end.

Definition run (st : ChatServer) (evs : list Event) : ChatServer :=
  fold_left step evs st.

End Lifecycle.

(** ** A concrete environment for executable examples *)

(** A stand-in for SHA-256 in executable examples: the decimal sum of the
    bytes.  No theorem depends on it. *)
Definition bytesum_hexdigest (data : list ascii) : string :=
  pretty (fold_left (fun acc c => acc + N_of_ascii c)%N data 0%N).

(** Clock readings 1000, 1001, ...; every connection is live. *)
Definition live_env : Env :=
  mkEnv (fun n => 1000 + Z.of_nat n) (fun _ => false)
        PyBase64.b64decode bytesum_hexdigest.

Definition demo_users : list User :=
  [mkUser 1 "admin"; mkUser 2 "alice"; mkUser 3 "bob"; mkUser 4 "Bob"].

(** [admin] (the moderator, connection 1), [alice] (2) and [bob] (3) have
    joined a new server. *)
Definition demo_server : ChatServer :=
  run live_env (new_server "admin" demo_users [] [])
    [Connect 1 (AuthAccepted "admin"); Connect 2 (AuthAccepted "alice");
     Connect 3 (AuthAccepted "bob")].

(** ** The client's file receiver ([ChatClient.display_message], type ["file"]) *)

Module Client.

(** What the receiver observes: the lines the handler prints on its
    console, the files written, and the lines the user is going to type
    at the prompts. *)
Record ChatClient := mkClient {
  console : list string;
  saved : list (string * list ascii);
  answers : list string
}.

(** The file system as the receiver meets it: the home directory
    ([os.path.expanduser("~")]), for which paths [os.makedirs] raises, and
    for which paths opening or writing the file raises. *)
Record Disk := mkDisk {
  home : string;
  makedirs_fails : string -> bool;
  open_fails : string -> bool
}.

(** How the handler ends: it returns, or [EOFError] leaves it. *)
Inductive Outcome : Type :=
  | Returned (c : ChatClient)
  | EOFError (c : ChatClient).

(** [Prompt.ask(..., choices=[...], default=...)] on the lines still to be
    typed: an empty line takes the default; any other line is stripped,
    returned when it is one of the choices, and asked again otherwise; at
    the end of the input [input()] raises [EOFError] ([None]). *)
Fixpoint prompt_ask (choices : list string) (default : string)
    (pending : list string) : option (string * list string) :=
  match pending with
  | [] => None
  | a :: r =>
      if String.eqb a EmptyString then Some (default, r)
      else if existsb (String.eqb (PyStr.strip a)) choices
      then Some (PyStr.strip a, r)
      else prompt_ask choices default r
  end.

(** [path.endswith("/")] *)
Fixpoint ends_with_sep (path : string) : bool :=
  match path with
  | EmptyString => false
  | String c EmptyString => Ascii.eqb c "/"
  | String _ r => ends_with_sep r
  end.

(** [os.path.join(a, b)] of [posixpath]: an absolute [b] replaces [a]. *)
Definition path_join (a b : string) : string :=
  if PyStr.startswith "/" b then b
  else if String.eqb a EmptyString || ends_with_sep a then a +:+ b
  else a +:+ "/" +:+ b.

Definition print (line : string) (c : ChatClient) : ChatClient :=
  mkClient (console c ++ [line]) (saved c) (answers c).

Definition write_file (path : string) (data : list ascii) (c : ChatClient)
  : ChatClient :=
  mkClient (console c) (saved c ++ [(path, data)]) (answers c).

Definition ask (choices : list string) (default : string) (c : ChatClient)
  : option string * ChatClient :=
  match prompt_ask choices default (answers c) with
  | Some (a, r) => (Some a, mkClient (console c) (saved c) r)
  | None => (None, mkClient (console c) (saved c) [])
  end.

Definition WARNING : string := "Warning: File integrity check failed!".
Definition NOT_SAVED : string := "File not saved.".
(** The line of the [except] clause, without the text of the exception
    that follows it. *)
Definition SAVE_ERROR : string := "Error saving file".

Section Receiver.

Variable env : Env.
Variable disk : Disk.

(** "Write file": [open] and [f.write], then the confirmation line; a
    failure is reported by the [except] clause. *)
Definition save_to (file_path : string) (decoded_data : list ascii)
    (c : ChatClient) : ChatClient :=
  if open_fails disk file_path then print SAVE_ERROR c
  else print ("File saved to " +:+ file_path)
         (write_file file_path decoded_data c).

(** The ["file"] branch of [display_message], on the fields of the
    received frame.  The first prompt is outside the [try], the second
    inside it. *)
Definition receive_file (username filename : string) (size : Z)
    (base64_data file_hash : string) (c : ChatClient) : Outcome :=
  let c := print ("[File] " +:+ username +:+ " sent you a file: "
                  +:+ filename +:+ " (" +:+ pretty size +:+ " bytes)") c in
  match ask ["y"; "n"] "y" c with
  | (None, c) => EOFError c
  | (Some save, c) =>
      Returned
        (if String.eqb (PyStr.lower save) "y" then
           let downloads_dir := path_join (home disk) "cli_chat_downloads" in
           if makedirs_fails disk downloads_dir then print SAVE_ERROR c
           else
             let file_path := path_join downloads_dir filename in
             match b64decode env base64_data with
             | None => print SAVE_ERROR c
             | Some decoded_data =>
                 let computed_hash := sha256_hexdigest env decoded_data in
                 if negb (String.eqb computed_hash file_hash) then
                   let c := print WARNING c in
                   match ask ["y"; "n"] "n" c with
                   | (None, c) => print SAVE_ERROR c
                   | (Some verify, c) =>
                       if negb (String.eqb (PyStr.lower verify) "y") then
                         print NOT_SAVED c
                       else save_to file_path decoded_data c
                   end
                 else save_to file_path decoded_data c
             end
         else print NOT_SAVED c)
  end.

(** The receiver applied to a frame delivered by the server. *)
Definition display_message (frame : Frame) (c : ChatClient) : Outcome :=
  match frame with
  | FileEvent username filename size data hash _ =>
      receive_file username filename size data hash c
  | _ => Returned c
  end.

End Receiver.

End Client.

(** ** The encryption manager ([utils/encryption.py]) *)

Module Encryption.

(** *** CFB mode over a block cipher (128-bit feedback) *)

Definition xor_ascii (a b : ascii) : ascii :=
  match a, b with
  | Ascii a0 a1 a2 a3 a4 a5 a6 a7, Ascii b0 b1 b2 b3 b4 b5 b6 b7 =>
      Ascii (xorb a0 b0) (xorb a1 b1) (xorb a2 b2) (xorb a3 b3)
            (xorb a4 b4) (xorb a5 b5) (xorb a6 b6) (xorb a7 b7)
  end.

(** Bytewise xor of a block with the key stream, cut to the shorter. *)
Fixpoint xor_bytes (a b : list ascii) : list ascii :=
  match a, b with
  | x :: a', y :: b' => xor_ascii x y :: xor_bytes a' b'
  | _, _ => []
  end.

Section CFB.

(** The block cipher under a fixed key. *)
Variable E : list ascii -> list ascii.

Fixpoint cfb_enc (fuel : nat) (prev data : list ascii) : list ascii :=
  match fuel with
  | O => []
  | S f =>
      match data with
      | [] => []
      | _ =>
          let c := xor_bytes (firstn 16 data) (E prev) in
          c ++ cfb_enc f c (skipn 16 data)
      end
  end.

Fixpoint cfb_dec (fuel : nat) (prev data : list ascii) : list ascii :=
  match fuel with
  | O => []
  | S f =>
      match data with
      | [] => []
      | _ =>
          let c := firstn 16 data in
          xor_bytes c (E prev) ++ cfb_dec f c (skipn 16 data)
      end
  end.

End CFB.

Inductive JVal :=
| JStr (s : string)
| JOther.

(** What the manager takes from [cryptography], [os], [base64] and the
    codec: RSA keys and RSA-OAEP (SHA-256, MGF1) with the entropy it draws,
    the AES block function, [os.urandom] (indexed by the number of draws
    so far), base64, and UTF-8. *)
Record CryptoLib := mkCryptoLib {
  PrivateKey : Type;
  PublicKey : Type;
  Text : Type;
  public_of : PrivateKey -> PublicKey;
  oaep_encrypt : PublicKey -> nat -> list ascii -> list ascii;
  oaep_decrypt : PrivateKey -> list ascii -> option (list ascii);
  aes_block : list ascii -> list ascii -> list ascii;
  urandom : nat -> nat -> list ascii;
  lib_b64encode : list ascii -> string;
  lib_b64decode : string -> option (list ascii);
  utf8_encode : Text -> list ascii;
  utf8_decode : list ascii -> option Text
}.

(** The contract of these functions that the manager relies on. *)
Record CryptoLaws (L : CryptoLib) : Prop := mkCryptoLaws {
  oaep_inverse : forall sk d m,
    oaep_decrypt L sk (oaep_encrypt L (public_of L sk) d m) = Some m;
  aes_block_length : forall k x, length (aes_block L k x) = 16%nat;
  urandom_length : forall d n, length (urandom L d n) = n;
  b64_inverse : forall b, lib_b64decode L (lib_b64encode L b) = Some b;
  utf8_strict : forall b t, utf8_decode L b = Some t -> utf8_encode L t = b
}.

Section Manager.

Variable L : CryptoLib.

(** [private_key], [public_key], [peer_keys], the peer key files of
    [keys_dir] (as the keys they parse to), and the number of entropy
    draws made so far. *)
Record EncryptionManager := mkManager {
  private_key : option (PrivateKey L);
  public_key : option (PublicKey L);
  peer_keys : gmap string (PublicKey L);
  peer_files : gmap string (PublicKey L);
  draws : nat
}.

(** [Cipher(algorithms.AES(key), modes.CFB(iv)).encryptor()] *)
Definition cfb_encrypt (key iv data : list ascii) : list ascii :=
  cfb_enc (aes_block L key) (length data) iv data.

Definition cfb_decrypt (key iv data : list ascii) : list ascii :=
  cfb_dec (aes_block L key) (length data) iv data.

(** [algorithms.AES(key)] and [modes.CFB(iv)] accept the key and IV. *)
Definition cipher_accepts (key iv : list ascii) : bool :=
  (Nat.eqb (length key) 16 || Nat.eqb (length key) 24
   || Nat.eqb (length key) 32) && Nat.eqb (length iv) 16.

(** [EncryptionManager.load_peer_key] *)
Definition load_peer_key (username : string) (m : EncryptionManager)
  : option (PublicKey L) * EncryptionManager :=
  match peer_keys m !! username with
  | Some k => (Some k, m)
  | None =>
      match peer_files m !! username with
      | Some k =>
          (Some k, mkManager (private_key m) (public_key m)
                     (<[username := k]> (peer_keys m)) (peer_files m)
                     (draws m))
      | None => (None, m)
      end
  end.

(** [EncryptionManager.encrypt_message]; the result is the object that
    [json.dumps] serialises. *)
Definition encrypt_message (message : Text L) (recipient_username : string)
    (m : EncryptionManager)
  : option (gmap string JVal) * EncryptionManager :=
  match load_peer_key recipient_username m with
  | (None, m') => (None, m')
  | (Some recipient_key, m') =>
      let d := draws m' in
      let aes_key := urandom L d 32 in
      let encrypted_key := oaep_encrypt L recipient_key (S d) aes_key in
      let iv := urandom L (S (S d)) 16 in
      let ciphertext := cfb_encrypt aes_key iv (utf8_encode L message) in
      (Some (<["encrypted_key" := JStr (lib_b64encode L encrypted_key)]>
              (<["iv" := JStr (lib_b64encode L iv)]>
                (<["ciphertext" := JStr (lib_b64encode L ciphertext)]> ∅))),
       mkManager (private_key m') (public_key m') (peer_keys m')
         (peer_files m') (S (S (S d))))
  end.

(** [base64.b64decode(encrypted_package[field])] *)
Definition field_bytes (package : gmap string JVal) (field : string)
  : option (list ascii) :=
  match package !! field with
  | Some (JStr s) => lib_b64decode L s
  | _ => None
  end.

(** [EncryptionManager.decrypt_message] on the value [json.loads]
    yields: [None] for text that is not a JSON object.  Every exception
    of the body is turned into [None]. *)
Definition decrypt_message (encrypted_message : option (gmap string JVal))
    (m : EncryptionManager) : option (Text L) :=
  match private_key m with
  | None => None
  | Some sk =>
      match encrypted_message with
      | None => None
      | Some package =>
          match field_bytes package "encrypted_key",
                field_bytes package "iv",
                field_bytes package "ciphertext" with
          | Some encrypted_key, Some iv, Some ciphertext =>
              match oaep_decrypt L sk encrypted_key with
              | Some aes_key =>
                  if cipher_accepts aes_key iv
                  then utf8_decode L (cfb_decrypt aes_key iv ciphertext)
                  else None
              | None => None
              end
          | _, _, _ => None
          end
      end
  end.

(** An envelope whose ciphertext bytes were replaced. *)
Definition with_ciphertext (ciphertext : list ascii)
    (package : gmap string JVal) : gmap string JVal :=
  <["ciphertext" := JStr (lib_b64encode L ciphertext)]> package.

End Manager.

(** *** A small instance of the library contract, for executable examples

    Keys are numbers and the key wrap prefixes the key number; the block
    function xors key and block; base64 is the identity on bytes, and the
    codec is UTF-8 restricted to ASCII. *)

Definition toy_oaep_decrypt (sk : nat) (c : list ascii) : option (list ascii) :=
  match c with
  | h :: t => if Ascii.eqb h (ascii_of_nat sk) then Some t else None
  | [] => None
  end.

Definition toy_block (key block : list ascii) : list ascii :=
  firstn 16 (xor_bytes key block ++ repeat zero 16).

Definition toy_utf8_decode (b : list ascii) : option string :=
  if forallb (fun c => (N_of_ascii c <? 128)%N) b
  then Some (string_of_list_ascii b) else None.

Definition toy_lib : CryptoLib :=
  mkCryptoLib nat nat string (fun sk => sk)
    (fun pk _ m => ascii_of_nat pk :: m) toy_oaep_decrypt toy_block
    (fun d n => repeat (ascii_of_nat (65 + d)) n)
    string_of_list_ascii (fun s => Some (list_ascii_of_string s))
    list_ascii_of_string toy_utf8_decode.

End Encryption.

(** ** Views of the state used in the statements *)

(** The registered sessions that hold the moderator role:
    [websocket == self.moderator_ws]. *)
Definition is_moderator (st : ChatServer) (ws : nat) : bool :=
  match moderator_ws st with
  | Some m => Nat.eqb ws m
  | None => false
  end.

Definition moderators (st : ChatServer) : list (nat * string) :=
  List.filter (fun p => is_moderator st p.1) (online_users st).

(** The frames a handler added to the wire. *)
Definition sent_since (st st' : ChatServer) : list (nat * Frame) :=
  skipn (length (wire st)) (wire st').

(** The reasons for which a [/file] line is refused before anything is
    stored. *)
Inductive FileError :=
| UsageError
| UserOfflineError (target : string)
| FormatError
| EncodingError
| SizeLimitError.

Definition render_error (e : FileError) : string :=
  match e with
  | UsageError => "Usage: /file <username> <base64_encoded_file>"
  | UserOfflineError target => "User " +:+ target +:+ " is not online."
  | FormatError => "Error: Invalid file format"
  | EncodingError => "Error: Invalid base64 data"
  | SizeLimitError => "File too large. Maximum size is 10MB."
  end.

Section Validation.

Variable env : Env.




(** The target, file name and payload the server reads off a [/file]
    line that has the [filename;payload] shape. *)
Definition file_command_parts (command : string)
  : option (string * string * string) :=
  let cmd := PyStr.lower (PyStr.strip command) in
  if PyStr.startswith "/file " cmd then
    match PyStr.split " " cmd 2 with
    | _ :: target :: file_data :: _ =>
        match PyStr.split ";" file_data 1 with
        | [filename; base64_data] => Some (target, filename, base64_data)
        | _ => None
        end
    | _ => None
    end
  else None.

End Validation.

(** ** Predicates and derived states used in the statements *)

(** A string that is empty or begins with a character that is not
    white space. *)
Definition lstripped (s : string) : Prop :=
  match s with
  | EmptyString => True
  | String c _ => PyStr.isspace c = false
  end.

(** No occurrence of the character [sep]. *)
Fixpoint lacks (sep : ascii) (s : string) : bool :=
  match s with
  | EmptyString => true
  | String c r => negb (Ascii.eqb c sep) && lacks sep r
  end.

(** [m] keeps the property [P] of the state, whether it returns or
    raises. *)
Definition preserves {A} (P : ChatServer -> Prop) (m : M A) : Prop :=
  forall st, P st -> P (m st).2.

(** Every frame but a file event. *)
Definition plain_frame (f : Frame) : Prop :=
  match f with
  | FileEvent _ _ _ _ _ _ => False
  | _ => True
  end.

Definition USAGE_FILE : Frame :=
  CommandResponse "Usage: /file <username> <base64_encoded_file>".

Definition announcement (username filename : string) (size : Z) : string :=
  "[File] " +:+ username +:+ " sent you a file: " +:+ filename
  +:+ " (" +:+ pretty size +:+ " bytes)".

(** The directory the receiver saves to, and the path of a received file:
    [os.path.join(os.path.join(home, "cli_chat_downloads"), filename)]. *)
Definition downloads_dir (disk : Client.Disk) : string :=
  Client.path_join (Client.home disk) "cli_chat_downloads".

Definition download_path (disk : Client.Disk) (filename : string) : string :=
  Client.path_join (downloads_dir disk) filename.

Section Derived.

Variable env : Env.

(** What a fan-out over the connections [l] does to the state. *)
Definition fan_out (frame : Frame) (l : list nat) (st : ChatServer)
: ChatServer :=
set_log (fun lg => lg ++ map (fun _ => "Error sending message")
                             (List.filter (send_fails env) l))
  (set_wire (fun w => w ++ map (fun c => (c, frame))
               (List.filter (fun c => negb (send_fails env c)) l)) st).

(** A refusal: [frame] goes to the caller alone and nothing else
  changes; when the caller's own connection is down the handler raises
  and still stores and delivers nothing. *)
Definition refused_with (ws : nat) (frame : Frame) (st : ChatServer)
  (r : Res unit * ChatServer) : Prop :=
db_file_transfers r.2 = db_file_transfers st
/\ db_messages r.2 = db_messages st
/\ (forall c f, (c, f) ∈ sent_since st r.2 -> c = ws /\ f = frame)
/\ (send_fails env ws = false ->
    r = (Ok tt, set_wire (fun w => w ++ [(ws, frame)]) st)).

(** The record stored and the event delivered for an accepted file. *)
Definition transfer_record (st : ChatServer) (filename : string)
  (decoded : list ascii) (sender receiver : User) : FileTransfer :=
mkFileTransfer filename (Z.of_nat (length decoded)) (user_id sender)
  (user_id receiver) (clock env (ticks st)) "completed"
  (sha256_hexdigest env decoded).

Definition file_event (st : ChatServer) (username filename base64_data : string)
  (decoded : list ascii) : Frame :=
FileEvent username filename (Z.of_nat (length decoded)) base64_data
  (sha256_hexdigest env decoded) (clock env (S (ticks st))).

Definition file_confirmation (filename target : string) (decoded : list ascii)
: Frame :=
CommandResponse
  ("File '" +:+ filename +:+ "' (" +:+ pretty (Z.of_nat (length decoded))
   +:+ " bytes) sent to " +:+ target).

(** Every file event on the wire carries the payload whose decoding has
  the advertised size and digest, and a ["completed"] record with the
  same file name, size and digest is stored. *)
Definition file_inv (st : ChatServer) : Prop :=
forall c u fn n d h t,
  (c, FileEvent u fn n d h t) ∈ wire st ->
  exists decoded,
    b64decode env d = Some decoded
    /\ h = sha256_hexdigest env decoded
    /\ n = Z.of_nat (length decoded)
    /\ exists rec, rec ∈ db_file_transfers st
         /\ ft_filename rec = fn /\ ft_size rec = n
         /\ ft_file_hash rec = h /\ ft_status rec = "completed".

End Derived.

(** The state after a successful [/clear]. *)
Definition cleared (env : Env) (user : User) (st : ChatServer) : ChatServer :=
  fan_out env
    (Notification ("*" +:+ moderator_username st) "cleared the chat history.")
    (elements (clients st))
    (set_db_messages (fun ms =>
       List.filter (fun m => negb (cleared_by (clock env (ticks st)) m)) ms
       ++ [mkMessage (user_id user) "cleared the chat history."
             (clock env (S (ticks st))) "clear"])
       (set_ticks S (set_ticks S st))).

(** The registry invariant: a connection is registered at most once, and
    the moderator connection is a registered one. *)
Definition registry_inv (st : ChatServer) : Prop :=
  NoDup (List.map fst (online_users st))
  /\ forall w, moderator_ws st = Some w ->
               is_Some (dict_get w (online_users st)).

(** ** Concrete states and inputs for the examples *)

(** [demo_server] after [alice] and [bob] each sent a chat line. *)
Definition demo_chat : ChatServer :=
  run live_env demo_server [Receive 2 "hello"; Receive 3 "hi alice"].

(** [demo_chat] after a second connection, 5, authenticated under the
    moderator name. *)
Definition demo_second_admin : ChatServer :=
  run live_env demo_chat [Connect 5 (AuthAccepted "admin")].

(** [demo_server] after user [Bob] joined on connection 4: both [bob] and
    [Bob] are registered. *)
Definition demo_server_two_bobs : ChatServer :=
  run live_env demo_server [Connect 4 (AuthAccepted "Bob")].

(** The environment in which every send to connection 2 raises. *)
Definition one_down_env : Env :=
  mkEnv (fun n => 1000 + Z.of_nat n) (fun ws => Nat.eqb ws 2)
        PyBase64.b64decode bytesum_hexdigest.

(** A block of [size] bytes, and an environment whose decoder yields it
    whatever the payload. *)
Definition block_of (size : Z) : list ascii := repeat "a"%char (Z.to_nat size).

Definition sized_env (size : Z) : Env :=
  mkEnv (fun n => 1000 + Z.of_nat n) (fun _ => false)
        (fun _ => Some (block_of size)) bytesum_hexdigest.

(** The double quote character. *)
Definition dq : string := String (ascii_of_nat 34) EmptyString.

(** An encrypted whisper as the client sends it: the [[ENCRYPTED]] marker
    followed by the JSON envelope. *)
Definition demo_envelope : string :=
  "[ENCRYPTED]{" +:+ dq +:+ "encrypted_key" +:+ dq +:+ ": " +:+ dq +:+ "QUJD"
  +:+ dq +:+ ", " +:+ dq +:+ "iv" +:+ dq +:+ ": " +:+ dq +:+ "REVG" +:+ dq
  +:+ ", " +:+ dq +:+ "ciphertext" +:+ dq +:+ ": " +:+ dq +:+ "R0hJ" +:+ dq
  +:+ "}".

(** A key-exchange whisper as the client sends it. *)
Definition demo_pubkey : string := "/pubkey -----BEGIN PUBLIC KEY-----".

(** A receiving client whose user answers [y] to "Save file?" and then
    [answer] to "Save anyway?". *)
Definition demo_client (answer : string) : Client.ChatClient :=
  Client.mkClient [] [] ["y"; answer].

(** A disk on which the downloads directory can be made and every file
    opened, except a path that names a directory. *)
Definition demo_disk : Client.Disk :=
  Client.mkDisk "/home/bob" (fun _ => false) Client.ends_with_sep.

(** The toy sender holds the public key of [bob]; the toy receiver is
    [bob], with the matching private key. *)
Definition toy_sender : Encryption.EncryptionManager Encryption.toy_lib :=
  Encryption.mkManager Encryption.toy_lib None None {["bob" := 7%nat]} ∅ 0.

Definition toy_receiver : Encryption.EncryptionManager Encryption.toy_lib :=
  Encryption.mkManager Encryption.toy_lib (Some 7%nat) (Some 7%nat) ∅ ∅ 0.

(** The envelope the toy sender produces for ["hello"]. *)
Definition toy_envelope : gmap string Encryption.JVal :=
  default ∅ (Encryption.encrypt_message Encryption.toy_lib "hello" "bob"
               toy_sender).1.

(** * Further definitions *)

(** The live connections among [l], in order. *)
Definition live (env : Env) (l : list nat) : list nat :=
  List.filter (fun c => negb (send_fails env c)) l.

(** The frames of one broadcast of [frame] from the state [st]. *)
Definition broadcast_of (env : Env) (frame : Frame) (st : ChatServer)
  : list (nat * Frame) :=
  map (fun c => (c, frame)) (live env (elements (clients st))).

(** The fields that make up the session registry, with the user table. *)
Definition registry (st : ChatServer)
  : gset nat * list (nat * string) * gmap string nat * option nat * bool
    * list User :=
  (clients st, online_users st, user_websockets st, moderator_ws st,
   moderator_disconnect_event st, db_users st).

(** The replies to malformed command lines. *)
Definition UNKNOWN_COMMAND : Frame :=
  CommandResponse
    "Unknown command. Available commands: /users, /whisper, /w, /file, /clear, /quit, /exit".

Definition USAGE_WHISPER : Frame :=
  CommandResponse
    "Usage: /whisper <username> <message> or /w <username> <message>".

(** The notice broadcast when the session of [username] ends. *)
Definition leave_notice (st : ChatServer) (username : string) : Frame :=
  Notification (display_name st username) "left the chat.".

(** The row stored when the session of [user] ends at the state [st]. *)
Definition leave_row (env : Env) (st : ChatServer) (user : User) : Message :=
  mkMessage (user_id user) "left the chat." (clock env (ticks st)) "leave".

(** [demo_server] after a second connection, 5, logged in as [alice]. *)
Definition demo_two_alices : ChatServer :=
  run live_env demo_server [Connect 5 (AuthAccepted "alice")].

(** The rows selected by [send_message_history], in the order in which
    they are replayed. *)
Definition history_rows (st : ChatServer) : list Message :=
  rev (firstn 100 (order_by_timestamp_desc
                     (List.filter is_history_type (db_messages st)))).

(** The frames of a replay of [rows] to [ws]: a row whose user is gone is
    skipped. *)
Definition history_frames (ws : nat) (st : ChatServer) (rows : list Message)
  : list (nat * Frame) :=
  flat_map (fun msg =>
    match find_user_by_id (msg_user_id msg) (db_users st) with
    | None => []
    | Some user =>
        [(ws, HistoryItem (msg_type msg)
                (display_name st (user_username user))
                (msg_content msg) (msg_timestamp msg))]
    end) rows.

(** Newest first. *)
Fixpoint descending (l : list Message) : Prop :=
  match l with
  | [] => True
  | m :: r =>
      Forall (fun m' => msg_timestamp m' <= msg_timestamp m)%Z r
      /\ descending r
  end.

(** Oldest first. *)
Fixpoint ascending (l : list Message) : Prop :=
  match l with
  | [] => True
  | m :: r =>
      Forall (fun m' => msg_timestamp m <= msg_timestamp m')%Z r
      /\ ascending r
  end.

(** No stored row has the type ["notification"], and every replayed
    history frame has the type ["chat"]. *)
Definition history_is_chat (st : ChatServer) : Prop :=
  (forall m, m ∈ db_messages st -> msg_type m <> "notification")
  /\ forall c ty u content t,
       (c, HistoryItem ty u content t) ∈ wire st -> ty = "chat".

(** The events that lead to [demo_server], followed by a file from
    [alice] to [bob]. *)
Definition demo_file_events : list Event :=
  [Connect 1 (AuthAccepted "admin"); Connect 2 (AuthAccepted "alice");
   Connect 3 (AuthAccepted "bob");
   Receive 2 "/file bob notes.txt;aGVsbG8="].

(** ** Python bytes methods used by [add_peer_key] *)

Module PyBytes.

(** [bytes.upper] on one byte: only ASCII a..z change. *)
Definition upper_char (c : ascii) : ascii :=
  let n := N_of_ascii c in
  if ((97 <=? n) && (n <=? 122))%N then ascii_of_N (n - 32) else c.

Fixpoint upper (s : string) : string :=
  match s with
  | EmptyString => EmptyString
  | String c r => String (upper_char c) (upper r)
  end.

(** [s.find(sub)], counting from [i]: the lowest index, or -1. *)
Fixpoint find_from (sub s : string) (i : Z) : Z :=
  if PyStr.startswith sub s then i
  else match s with
       | EmptyString => -1
       | String _ r => find_from sub r (i + 1)
       end.

Definition find (sub s : string) : Z := find_from sub s 0.

(** [sub in s] *)
Definition contains (sub s : string) : bool := 0 <=? find sub s.

(** [s.replace(old, new)] for a non-empty [old]: the occurrences are
    replaced from left to right, without overlap. *)
Fixpoint replace_fuel (fuel : nat) (old new s : string) : string :=
  match fuel with
  | O => s
  | S f =>
      if PyStr.startswith old s
      then new +:+ replace_fuel f old new (PyStr.drop (String.length old) s)
      else match s with
           | EmptyString => EmptyString
           | String c r => String c (replace_fuel f old new r)
           end
  end.

Definition replace (old new s : string) : string :=
  replace_fuel (String.length s) old new s.

(** [s[:n]] *)
Fixpoint take (n : nat) (s : string) : string :=
  match n, s with
  | S n', String c r => String c (take n' r)
  | _, _ => EmptyString
  end.

(** [s[start:stop]] for [0 <= start]. *)
Definition slice (s : string) (start stop : Z) : string :=
  take (Z.to_nat (stop - start)) (PyStr.drop (Z.to_nat start) s).

End PyBytes.

(** ** [EncryptionManager.add_peer_key] *)

Definition PEM_BEGIN : string := "-----BEGIN PUBLIC KEY-----".
Definition PEM_END : string := "-----END PUBLIC KEY-----".

(** "Fix the key format if needed": the bytes handed to the loader, or
    [None] when the block raises [ValueError]. *)
Definition repair_pem (public_key_pem : string) : option string :=
  if negb (PyStr.startswith PEM_BEGIN public_key_pem) then
    let upper_key := PyBytes.upper public_key_pem in
    if PyBytes.contains PEM_BEGIN upper_key then
      let start := PyBytes.find PEM_BEGIN upper_key in
      let end_ := PyBytes.find PEM_END upper_key in
      if end_ >? start then
        Some (PyBytes.slice public_key_pem start
                (end_ + Z.of_nat (String.length PEM_END)))
      else None
    else
      let fixed_key :=
        PyBytes.replace "-----begin public key-----" PEM_BEGIN public_key_pem in
      let fixed_key :=
        PyBytes.replace "-----end public key-----" PEM_END fixed_key in
      if PyStr.startswith PEM_BEGIN fixed_key then Some fixed_key else None
  else Some public_key_pem.

Section PeerKeys.

Variable L : Encryption.CryptoLib.

(** [serialization.load_pem_public_key]; [None] when it raises. *)
Variable load_pem_public_key : string -> option (Encryption.PublicKey L).

(** The key is cached and its PEM text written to the peer key file; a
    failure is raised again to the caller ([None]) with the manager as it
    was. *)
Definition add_peer_key (username public_key_pem : string)
    (m : Encryption.EncryptionManager L)
  : option (Encryption.EncryptionManager L) :=
  match repair_pem public_key_pem with
  | None => None
  | Some pem =>
      match load_pem_public_key pem with
      | None => None
      | Some public_key =>
          Some (Encryption.mkManager L
                  (Encryption.private_key L m) (Encryption.public_key L m)
                  (<[username := public_key]> (Encryption.peer_keys L m))
                  (<[username := public_key]> (Encryption.peer_files L m))
                  (Encryption.draws L m))
      end
  end.

End PeerKeys.

(** A loader for the toy library: the header must be exact, and the key
    number is the length of what follows. *)
Definition toy_loader (pem : string) : option nat :=
  if PyStr.startswith PEM_BEGIN pem
  then Some (String.length pem - String.length PEM_BEGIN)%nat else None.

(** A public key text as it arrives after the server relayed it in a
    whisper. *)
Definition demo_relayed_pem : string :=
  "-----begin public key----- miibijanbg -----end public key-----".

(** A toy manager that knows no peer, and the key text of the toy
    receiver. *)
Definition toy_newcomer : Encryption.EncryptionManager Encryption.toy_lib :=
  Encryption.mkManager Encryption.toy_lib None None ∅ ∅ 0.

Definition toy_pem : string := "-----BEGIN PUBLIC KEY-----QUJDREV".

(** The state after the registration block. *)
Definition registered (ws : nat) (username : string) (st : ChatServer)
  : ChatServer :=
  let st1 := set_user_websockets (fun m => <[username := ws]> m)
               (set_online_users (dict_set ws username) st) in
  match moderator_ws st with
  | None =>
      if String.eqb username (moderator_username st)
      then set_moderator_ws (Some ws) st1 else st1
  | Some _ => st1
  end.

(** The notice broadcast when [username] has joined, and the row stored. *)
Definition join_notice (st : ChatServer) (username : string) : Frame :=
  Notification (display_name st username) "joined the chat.".

Definition join_row (env : Env) (st : ChatServer) (user : User) : Message :=
  mkMessage (user_id user) "joined the chat." (clock env (ticks st)) "join".

(** The connection an event belongs to. *)
Definition connection_of (ev : Event) : nat :=
  match ev with
  | Connect ws _ | Receive ws _ | Disconnect ws => ws
  end.

(** The shutdown signal and the role are as in [st], or the role was
    vacant in [st] and has been claimed by [ws] under the moderator name. *)
Definition role_kept (st : ChatServer) (ws : nat) (username : string)
    (s : ChatServer) : Prop :=
  moderator_disconnect_event s = moderator_disconnect_event st
  /\ moderator_username s = moderator_username st
  /\ (moderator_ws s = moderator_ws st
      \/ (moderator_ws st = None /\ moderator_ws s = Some ws
          /\ username = moderator_username st)).

(** What a step leaves of the shutdown signal and the role before its
    [finally] block, if any, runs. *)
Definition role_after (st : ChatServer) (ev : Event) (s : ChatServer) : Prop :=
  moderator_disconnect_event s = moderator_disconnect_event st
  /\ (moderator_ws s = moderator_ws st
      \/ (moderator_ws st = None
          /\ moderator_ws s = Some (connection_of ev)
          /\ ev = Connect (connection_of ev)
                    (AuthAccepted (moderator_username st)))).

(** ** The client's input loop ([ChatClient.send_messages]) *)

Module Outgoing.

Section SendMessages.

Variable L : Encryption.CryptoLib.

(** What the loop takes from outside: the text type of the codec, the
    JSON serialiser, RSA key generation (by entropy draw), the PEM text
    of a public key, the files on disk, [os.path.basename] and
    [base64.b64encode]. *)
Variable to_text : string -> Encryption.Text L.
Variable json_dumps : gmap string Encryption.JVal -> string.
Variable rsa_generate : nat -> Encryption.PrivateKey L.
Variable public_bytes : Encryption.PublicKey L -> string.
Variable files : gmap string (list ascii).
Variable basename : string -> string.
Variable b64encode : list ascii -> string.

(** The encryption manager ([None] when encryption is not available, in
    which case [encryption_enabled] is false), the texts sent to the
    server, the lines printed, whether the connection still accepts a
    send, and whether the loop has ended. *)
Record State := mkState {
  manager : option (Encryption.EncryptionManager L);
  sent : list string;
  screen : list string;
  link_up : bool;
  stopped : bool
}.

Definition print (line : string) (c : State) : State :=
  mkState (manager c) (sent c) (screen c ++ [line]) (link_up c) (stopped c).

Definition with_manager (m : Encryption.EncryptionManager L) (c : State)
  : State :=
  mkState (Some m) (sent c) (screen c) (link_up c) (stopped c).

(** [await websocket.send(text)]; [None] when it raises. *)
Definition ws_send (text : string) (c : State) : option State :=
  if link_up c
  then Some (mkState (manager c) (sent c ++ [text]) (screen c) (link_up c)
               (stopped c))
  else None.

(** [await websocket.close()] and [break]. *)
Definition ws_close (c : State) : State :=
  mkState (manager c) (sent c) (screen c) (link_up c) true.

(** [EncryptionManager.generate_keypair] *)
Definition generate_keypair (m : Encryption.EncryptionManager L)
  : Encryption.EncryptionManager L :=
  let sk := rsa_generate (Encryption.draws L m) in
  Encryption.mkManager L (Some sk) (Some (Encryption.public_of L sk))
    (Encryption.peer_keys L m) (Encryption.peer_files L m)
    (S (Encryption.draws L m)).

(** How a branch of the loop body ends: with [continue], by going on to
    the plain send, or with an exception for the outer handler. *)
Inductive Flow :=
| Next (c : State)
| Fall (c : State)
| Failed (c : State).

Definition sendkey (m : Encryption.EncryptionManager L) (message : string)
    (c : State) : State :=
  match PyStr.split " " message 1 with
  | _ :: target_username :: _ =>
      match Encryption.public_key L m with
      | None => print "No encryption keys available. Use /keygen first." c
      | Some pk =>
          let public_key_str := public_bytes pk in
          let c := print ("Sending key: " +:+ PyBytes.take 50 public_key_str
                          +:+ "...") c in
          match ws_send ("/whisper " +:+ target_username +:+ " /pubkey "
                         +:+ public_key_str) c with
          | Some c' => print ("Public key sent to " +:+ target_username +:+ ".") c'
          | None => print "Error sending public key" c
          end
      end
  | _ => print "Usage: /sendkey <username>" c
  end.

Definition encrypt_command (m : Encryption.EncryptionManager L)
    (message : string) (c : State) : State :=
  match PyStr.split " " message 1 with
  | _ :: target_username :: _ =>
      match Encryption.load_peer_key L target_username m with
      | (Some _, m') =>
          print ("End-to-end encryption enabled for " +:+ target_username +:+ ".")
            (with_manager m' c)
      | (None, m') =>
          print ("No public key found for " +:+ target_username
                 +:+ ". Use /sendkey to request their key first.")
            (with_manager m' c)
      end
  | _ => print "Usage: /encrypt <username>" c
  end.

Definition file_command (message : string) (c : State) : State :=
  match PyStr.split " " message 2 with
  | _ :: target_username :: file_path :: _ =>
      match files !! file_path with
      | None => print ("Error: File '" +:+ file_path +:+ "' not found.") c
      | Some file_data =>
          if Z.of_nat (length file_data) >? 10 * 1024 * 1024
          then print "Error: File too large. Maximum size is 10MB." c
          else
            let filename := basename file_path in
            let file_message :=
              "/file " +:+ target_username +:+ " " +:+ filename +:+ ";"
              +:+ b64encode file_data in
            let c := print ("Sending file '" +:+ filename +:+ "' to "
                            +:+ target_username +:+ "...") c in
            match ws_send file_message c with
            | Some c' => c'
            | None => print "Error sending file" c
            end
      end
  | _ => print "Usage: /file <username> <filepath>" c
  end.

(** "Handle encrypted whispers" *)
Definition whisper (message : string) (c : State) : Flow :=
  match PyStr.split " " message 2 with
  | cmd :: target_username :: content :: _ =>
      if PyStr.startswith "/pubkey " content then
        match ws_send message c with
        | Some c' => Next c'
        | None => Failed c
        end
      else
        match manager c with
        | None => Failed c
        | Some m =>
            match Encryption.load_peer_key L target_username m with
            | (None, m') => Fall (with_manager m' c)
            | (Some _, m') =>
                match Encryption.encrypt_message L (to_text content)
                        target_username m' with
                | (Some package, m'') =>
                    match ws_send (cmd +:+ " " +:+ target_username
                                   +:+ " [ENCRYPTED]" +:+ json_dumps package)
                            (with_manager m'' c) with
                    | Some c' => Next c'
                    | None =>
                        Fall (print "Error encrypting message"
                                (with_manager m'' c))
                    end
                | (None, m'') => Fall (with_manager m'' c)
                end
            end
        end
  | _ => Fall c
  end.

(** From "Handle file sending" to the end of the loop body. *)
Definition send_or_whisper (message : string) (c : State) : State :=
  if PyStr.startswith "/file " message then file_command message c
  else
    let enabled := match manager c with Some _ => true | None => false end in
    let flow :=
      if enabled && PyStr.startswith "/whisper " message
         || PyStr.startswith "/w " message
      then whisper message c else Fall c in
    match flow with
    | Next c' => c'
    | Failed c' => print "Error sending message" c'
    | Fall c' =>
        match ws_send message c' with
        | None => print "Error sending message" c'
        | Some c'' =>
            if String.eqb (PyStr.lower message) "/quit"
               || String.eqb (PyStr.lower message) "/exit"
            then ws_close c'' else c''
        end
    end.

(** One pass through the loop body for the typed line [message]. *)
Definition send_line (message : string) (c : State) : State :=
  if String.eqb (PyStr.strip message) EmptyString then c
  else if String.eqb (PyStr.lower message) "/help"
  then print "Available commands" c
  else
    match manager c with
    | Some m =>
        if PyStr.startswith "/keygen" message then
          print "New encryption keys generated."
            (with_manager (generate_keypair m) c)
        else if PyStr.startswith "/sendkey " message then sendkey m message c
        else if PyStr.startswith "/encrypt " message
        then encrypt_command m message c
        else send_or_whisper message c
    | None => send_or_whisper message c
    end.

End SendMessages.

End Outgoing.

(** A toy serialiser and two toy clients: one without encryption, one
    whose manager is [toy_sender]. *)
Definition toy_dumps (package : gmap string Encryption.JVal) : string :=
  match package !! "ciphertext" with
  | Some (Encryption.JStr s) => "{" +:+ s +:+ "}"
  | _ => "{}"
  end.

Definition toy_send_line
  : string -> Outgoing.State Encryption.toy_lib
    -> Outgoing.State Encryption.toy_lib :=
  Outgoing.send_line Encryption.toy_lib (fun s => s) toy_dumps (fun d => d)
    (fun _ => PEM_BEGIN) ∅ (fun p => p) string_of_list_ascii.

Definition toy_plain : Outgoing.State Encryption.toy_lib :=
  Outgoing.mkState Encryption.toy_lib None [] [] true false.

Definition toy_keyed : Outgoing.State Encryption.toy_lib :=
  Outgoing.mkState Encryption.toy_lib (Some toy_sender) [] [] true false.

(** ** The client's whisper display ([ChatClient.display_message], type
       ["whisper"]) *)

Module Incoming.

(** [len(s.encode('utf-8'))] for code points below 256. *)
Fixpoint utf8_len (s : string) : nat :=
  match s with
  | EmptyString => O
  | String c r =>
      ((if (N_of_ascii c <? 128)%N then 1 else 2) + utf8_len r)%nat
  end.

Section DisplayWhisper.

Variable L : Encryption.CryptoLib.

(** The decrypted [str] as text on the screen, [json.loads] ([None] when
    it raises or the value is not an object), and the PEM loader. *)
Variable of_text : Encryption.Text L -> string.
Variable json_loads : string -> option (gmap string Encryption.JVal).
Variable load_pem_public_key : string -> option (Encryption.PublicKey L).

Definition FAILED (username : string) : string :=
  "Failed to decrypt message from " +:+ username +:+ ".".

(** "Regular unencrypted whisper" *)
Definition plain_whisper (username content : string) (c : Outgoing.State L)
  : Outgoing.State L :=
  Outgoing.print L ("[Whisper] " +:+ username +:+ ": " +:+ content) c.

(** "Handle public key exchange": the [try] returns after the system
    line and the [except] clause after its two lines (printed here without
    the text of the exception), so neither falls through to the plain
    whisper.  The lock sign of an encrypted whisper is written
    [(encrypted)]. *)
Definition receive_key (username content : string) (c : Outgoing.State L)
  : Outgoing.State L :=
  match PyStr.split " " content 1 with
  | _ :: public_key_str :: _ =>
      let c1 := Outgoing.print L
                  ("Received key length: " +:+ pretty (utf8_len public_key_str)
                   +:+ " bytes") c in
      let failed :=
        Outgoing.print L "Error details"
          (Outgoing.print L "Error processing public key" c1) in
      match Outgoing.manager L c with
      | None => failed
      | Some m =>
          match add_peer_key L load_pem_public_key username public_key_str m with
          | None => failed
          | Some m' =>
              Outgoing.print L
                ("[System] Received public key from " +:+ username
                 +:+ ". You can now use /encrypt " +:+ username
                 +:+ " to enable encryption.")
                (Outgoing.with_manager L m' c1)
          end
      end
  | _ => plain_whisper username content c
  end.

Definition display_whisper (username content : string) (c : Outgoing.State L)
  : Outgoing.State L :=
  let keys_or_plain :=
    if PyStr.startswith "/pubkey " content
    then receive_key username content c
    else plain_whisper username content c in
  match Outgoing.manager L c with
  | Some m =>
      if PyStr.startswith "[ENCRYPTED]" content then
        match Encryption.decrypt_message L
                (json_loads (PyStr.drop 11 content)) m with
        | Some decrypted_content =>
            if String.eqb (of_text decrypted_content) EmptyString
            then Outgoing.print L (FAILED username) c
            else Outgoing.print L
                   ("[Whisper] " +:+ username +:+ " (encrypted): "
                    +:+ of_text decrypted_content) c
        | None => Outgoing.print L (FAILED username) c
        end
      else keys_or_plain
  | None => keys_or_plain
  end.

End DisplayWhisper.

End Incoming.

(** A toy parser that knows the one envelope of the examples, and a toy
    receiver in its input loop. *)
Definition toy_loads (s : string) : option (gmap string Encryption.JVal) :=
  if String.eqb s (toy_dumps toy_envelope) then Some toy_envelope else None.

Definition toy_listener : Outgoing.State Encryption.toy_lib :=
  Outgoing.mkState Encryption.toy_lib (Some toy_receiver) [] [] true false.


(** A message of three blocks and the envelope the toy sender produces
    for it. *)
Definition toy_long_message : string :=
  "attack at dawn, fall back at dusk, hold at noon".

Definition toy_long_envelope : gmap string Encryption.JVal :=
  default ∅ (Encryption.encrypt_message Encryption.toy_lib toy_long_message
               "bob" toy_sender).1.

(** * Properties *)

(** ** The string methods and the decoder on concrete inputs *)

Example strip_lower_ex :
  PyStr.lower (PyStr.strip "  /Whisper Bob Hi There ") = "/whisper bob hi there".
Proof. reflexivity. Qed.

Example split_ex1 :
  PyStr.split " " "/whisper bob hi there" 2 = ["/whisper"; "bob"; "hi there"].
Proof. reflexivity. Qed.

Example split_ex2 : PyStr.split " " "/file bob" 2 = ["/file"; "bob"].
Proof. reflexivity. Qed.

Example split_ex3 : PyStr.split ";" "a;b;c" 1 = ["a"; "b;c"].
Proof. reflexivity. Qed.

Example join_ex : PyStr.join ", " ["alice"; "bob"] = "alice, bob".
Proof. reflexivity. Qed.

Example b64decode_ex1 :
  PyBase64.b64decode "aGVsbG8=" = Some (list_ascii_of_string "hello").
Proof. reflexivity. Qed.

Example b64decode_ex2 : PyBase64.b64decode "base64data" = None.
Proof. reflexivity. Qed.

Example b64decode_ex3 : PyBase64.b64decode "invalid_base64!" = None.
Proof. reflexivity. Qed.

(** ** Normalising a command line: [command.strip().lower()] *)

Section StringFacts.

Import PyStr.

Lemma lower_char_idem c : lower_char (lower_char c) = lower_char c.
Proof. destruct c as [[] [] [] [] [] [] [] []]; reflexivity. Qed.

Lemma isspace_lower_char c : isspace (lower_char c) = isspace c.
Proof. destruct c as [[] [] [] [] [] [] [] []]; reflexivity. Qed.

Lemma lower_char_space c : Ascii.eqb (lower_char c) " " = Ascii.eqb c " ".
Proof. destruct c as [[] [] [] [] [] [] [] []]; reflexivity. Qed.

Lemma lower_char_semicolon c : Ascii.eqb (lower_char c) ";" = Ascii.eqb c ";".
Proof. destruct c as [[] [] [] [] [] [] [] []]; reflexivity. Qed.

Lemma lower_idem s : lower (lower s) = lower s.
Proof. induction s as [|c s IH]; simpl; [|rewrite lower_char_idem, IH]; reflexivity. Qed.

Lemma lower_app a b : lower (a +:+ b) = lower a +:+ lower b.
Proof. induction a as [|c a IH]; simpl; [|rewrite IH]; reflexivity. Qed.

Lemma lstrip_lower s : lstrip (lower s) = lower (lstrip s).
Proof.
  induction s as [|c s IH]; simpl; [reflexivity|].
  rewrite isspace_lower_char. destruct (isspace c); [exact IH | reflexivity].
Qed.

Lemma rstrip_lower s : rstrip (lower s) = lower (rstrip s).
Proof.
  induction s as [|c s IH]; simpl; [reflexivity|].
  rewrite IH, isspace_lower_char.
  destruct (rstrip s); simpl; [destruct (isspace c)|]; reflexivity.
Qed.

Lemma strip_lower s : strip (lower s) = lower (strip s).
Proof. unfold strip. now rewrite lstrip_lower, rstrip_lower. Qed.

Lemma rstrip_idem s : rstrip (rstrip s) = rstrip s.
Proof.
  induction s as [|c s IH]; simpl; [reflexivity|].
  destruct (rstrip s) as [|d r] eqn:E.
  - destruct (isspace c) eqn:Ec; simpl; [|rewrite Ec]; reflexivity.
  - simpl in IH |- *. now rewrite IH.
Qed.

Lemma lstrip_lstripped s : lstripped (lstrip s).
Proof.
  induction s as [|c s IH]; simpl; [exact I|].
  destruct (isspace c) eqn:E; [exact IH | exact E].
Qed.

Lemma lstrip_fixed s : lstripped s -> lstrip s = s.
Proof. destruct s; simpl; [reflexivity|]. now intros ->. Qed.

Lemma rstrip_lstripped s : lstripped s -> lstripped (rstrip s).
Proof.
  destruct s as [|c s]; simpl; [trivial|]. intros E.
  destruct (rstrip s); simpl; [rewrite E|]; simpl; exact E.
Qed.

Lemma strip_idem s : strip (strip s) = strip s.
Proof.
  unfold strip.
  rewrite (lstrip_fixed (rstrip (lstrip s))).
  - apply rstrip_idem.
  - apply rstrip_lstripped, lstrip_lstripped.
Qed.

(** The normal form is stable: normalising twice changes nothing. *)
Lemma normalise_idem s :
  lower (strip (lower (strip s))) = lower (strip s).
Proof. now rewrite strip_lower, strip_idem, lower_idem. Qed.

Lemma startswith_app p s :
  startswith p s = true -> exists r, s = p +:+ r.
Proof.
  revert s; induction p as [|a p IH]; intros s H; simpl in *.
  - now exists s.
  - destruct s as [|b s]; [discriminate|].
    apply andb_true_iff in H as [Hab H].
    apply Ascii.eqb_eq in Hab as ->.
    destruct (IH _ H) as [r ->]. now exists r.
Qed.

Lemma lacks_lower_space s : lacks " " (lower s) = lacks " " s.
Proof.
  induction s as [|c s IH]; simpl; [reflexivity|].
  now rewrite lower_char_space, IH.
Qed.

Lemma lacks_lower_semicolon s : lacks ";" (lower s) = lacks ";" s.
Proof.
  induction s as [|c s IH]; simpl; [reflexivity|].
  now rewrite lower_char_semicolon, IH.
Qed.

Lemma split_nonempty sep s n : split sep s n <> [].
Proof. revert n; induction s as [|c s IH]; intros [|n]; simpl; try discriminate.
  destruct (Ascii.eqb c sep); [discriminate|].
  destruct (split sep s (S n)); discriminate.
Qed.

(** Splitting [a sep b] once, where [a] has no separator. *)
Lemma split_first sep a b n :
  lacks sep a = true ->
  split sep (a +:+ String sep b) (S n) = a :: split sep b n.
Proof.
  induction a as [|c a IH]; simpl; intros H.
  - now rewrite Ascii.eqb_refl.
  - apply andb_true_iff in H as [Hc H].
    apply negb_true_iff in Hc. rewrite Hc, (IH H). reflexivity.
Qed.

Lemma split_zero sep s : s <> EmptyString -> split sep s 0 = [s].
Proof. destruct s; [congruence | reflexivity]. Qed.

Lemma split_zero_any sep s : split sep s 0 = [s].
Proof. destruct s; reflexivity. Qed.

Lemma rstrip_app_fixed a t :
  t <> EmptyString -> rstrip t = t -> rstrip (a +:+ t) = a +:+ t.
Proof.
  intros Hne Ht. induction a as [|c a IH]; [exact Ht|].
  change (String c a +:+ t) with (String c (a +:+ t)). simpl.
  rewrite IH. destruct (a +:+ t) eqn:E; [|reflexivity].
  destruct a; [change (t = EmptyString) in E; congruence | discriminate].
Qed.

End StringFacts.

(** ** Broadcast ([notify_all]) *)

Section ServerFacts.

Variable env : Env.

Lemma sent_since_app st st' x :
  wire st' = wire st ++ x -> sent_since st st' = x.
Proof. unfold sent_since. intros ->. apply drop_app_length. Qed.

Lemma fold_gather frame l st :
  fold_left (fun s ws => gather_one env frame ws s) l st = fan_out env frame l st.
Proof.
  revert st; induction l as [|c l IH]; intros st.
  - destruct st; unfold fan_out, set_log, set_wire; simpl.
    now rewrite !app_nil_r.
  - simpl. rewrite IH. unfold gather_one, fan_out. simpl.
    destruct (send_fails env c); destruct st;
      unfold set_log, set_wire; simpl; f_equal;
      rewrite <- ?app_assoc; reflexivity.
Qed.

Lemma notify_all_fan_out frame st :
  notify_all env frame st = (Ok tt, fan_out env frame (elements (clients st)) st).
Proof. unfold notify_all. now rewrite fold_gather. Qed.

Lemma filter_only (f : nat -> bool) (l : list nat) bad :
  NoDup l -> bad ∈ l -> (forall c, c ∈ l -> (f c = true <-> c = bad)) ->
  List.filter f l = [bad].
Proof.
  induction l as [|x l IH]; intros Hnd Hin Hf.
  - inversion Hin.
  - apply NoDup_cons in Hnd as [Hx Hnd]. simpl.
    destruct (decide (x = bad)) as [->|Hne].
    + rewrite (proj2 (Hf bad (list_elem_of_here _ _)) eq_refl). f_equal.
      clear IH Hin. induction l as [|y l IHl]; [reflexivity|]. simpl.
      apply not_elem_of_cons in Hx as [Hy Hx].
      apply NoDup_cons in Hnd as [_ Hnd].
      destruct (f y) eqn:Ey.
      * apply (Hf y) in Ey; [congruence|]. apply list_elem_of_further, list_elem_of_here.
      * apply IHl; auto. intros c Hc. apply Hf.
        apply elem_of_cons in Hc as [->|Hc];
          [apply list_elem_of_here | do 2 apply list_elem_of_further; exact Hc].
    + destruct (f x) eqn:Ex.
      * apply (Hf x) in Ex; [congruence | apply list_elem_of_here].
      * apply IH; auto.
        -- apply elem_of_cons in Hin as [->|Hin]; [congruence | exact Hin].
        -- intros c Hc. apply Hf. now apply list_elem_of_further.
Qed.

Lemma filter_split_length (f : nat -> bool) (l : list nat) :
  (length (List.filter (fun c => negb (f c)) l)
   + length (List.filter f l) = length l)%nat.
Proof.
  induction l as [|x l IH]; simpl; [reflexivity|].
  destruct (f x); simpl; lia.
Qed.

Lemma elem_of_filter_bool {A} (f : A -> bool) (l : list A) x :
  x ∈ List.filter f l <-> x ∈ l /\ f x = true.
Proof. rewrite !list_elem_of_In. apply filter_In. Qed.

End ServerFacts.

(** C8. A broadcast to the live sessions in which the send to exactly one
    session fails returns normally, reaches every other session (so N-1
    frames are delivered, none to the failing session), and records the
    failure in the error log only. *)
Theorem broadcast_survives_one_failure env st frame bad :
  bad ∈ clients st ->
  (forall c, c ∈ clients st -> (send_fails env c = true <-> c = bad)) ->
  let r := notify_all env frame st in
  r.1 = Ok tt
  /\ (forall c, c ∈ clients st -> c <> bad -> (c, frame) ∈ sent_since st r.2)
  /\ (forall f, (bad, f) ∉ sent_since st r.2)
  /\ length (sent_since st r.2) = (size (clients st) - 1)%nat
  /\ log r.2 = log st ++ ["Error sending message"]
  /\ clients r.2 = clients st
  /\ db_messages r.2 = db_messages st.
Proof.
  intros Hbad Hf r. subst r. rewrite notify_all_fan_out. simpl.
  assert (Hs : sent_since st (fan_out env frame (elements (clients st)) st)
               = map (fun c => (c, frame))
                   (List.filter (fun c => negb (send_fails env c))
                      (elements (clients st)))).
  { apply sent_since_app. destruct st; reflexivity. }
  assert (Hone : List.filter (send_fails env) (elements (clients st)) = [bad]).
  { apply filter_only.
    - apply NoDup_elements.
    - now apply elem_of_elements.
    - intros c Hc. apply Hf. now apply elem_of_elements. }
  rewrite Hs. split; [reflexivity|].
  split; [|split; [|split; [|split; [|split]]]].
  - intros c Hc Hne. apply (list_elem_of_fmap_2 (fun c => (c, frame))).
    apply elem_of_filter_bool. split; [now apply elem_of_elements|].
    destruct (send_fails env c) eqn:E; [|reflexivity].
    apply Hf in E; [contradiction | exact Hc].
  - intros f Hin. apply list_elem_of_fmap in Hin as [c [Heq Hc]].
    inversion Heq; subst. apply elem_of_filter_bool in Hc as [_ Hc].
    rewrite (proj2 (Hf c Hbad) eq_refl) in Hc. discriminate.
  - rewrite length_map.
    pose proof (filter_split_length (send_fails env) (elements (clients st))) as H.
    rewrite Hone in H. simpl in H. unfold size, set_size. simpl. lia.
  - destruct st; simpl in *. now rewrite Hone.
  - destruct st; reflexivity.
  - destruct st; reflexivity.
Qed.

(** ** [/clear] *)

Lemma not_moderator_eqb (a b : string) : a <> b -> String.eqb a b = false.
Proof. intros H. now apply String.eqb_neq. Qed.

Lemma clear_by_moderator env st ws command user :
  PyStr.lower (PyStr.strip command) = "/clear" ->
  find_user (moderator_username st) (db_users st) = Some user ->
  handle_command env ws (moderator_username st) command st
  = (Ok tt, cleared env user st).
Proof.
  intros Hcmd Huser. unfold handle_command. rewrite Hcmd.
  change (String.eqb "/clear" "/users") with false.
  change (String.eqb "/clear" "/clear") with true. cbv iota.
  unfold mbind, M_bind, get. rewrite String.eqb_refl.
  unfold now at 1. rewrite Huser. unfold now, modify.
  rewrite notify_all_fan_out. reflexivity.
Qed.

Lemma clear_by_other env st ws username command :
  PyStr.lower (PyStr.strip command) = "/clear" ->
  username <> moderator_username st ->
  handle_command env ws username command st
  = send env ws (CommandResponse
      "Permission denied. Only moderators can clear chat history.") st.
Proof.
  intros Hcmd Hne. unfold handle_command. rewrite Hcmd.
  change (String.eqb "/clear" "/users") with false.
  change (String.eqb "/clear" "/clear") with true. cbv iota.
  unfold mbind, M_bind, get. now rewrite (not_moderator_eqb _ _ Hne).
Qed.

(** A direct [send] either delivers its frame to [ws] alone or raises and
    leaves the state as it was. *)
Lemma send_cases env ws frame st :
  (send_fails env ws = false
   /\ send env ws frame st = (Ok tt, set_wire (fun w => w ++ [(ws, frame)]) st))
  \/ (send_fails env ws = true
      /\ send env ws frame st = (Raise ConnectionClosed, st)).
Proof. unfold send. destruct (send_fails env ws); [right | left]; auto. Qed.

(** C2 (amended). The gate of [/clear] is the sender's user name, whatever
    connection it comes from and whether or not that connection holds the
    moderator role: a [/clear] line from the moderator name deletes exactly
    the stored chat and notification events older than the command's time
    stamp, keeps every event at or after it, stores the "cleared the chat
    history" event and broadcasts it to every live session; from any other
    name it deletes nothing, broadcasts nothing, and only the sender gets
    the permission-denied response. *)
Theorem clear_is_moderator_gated env st ws username command :
  PyStr.lower (PyStr.strip command) = "/clear" ->
  let r := handle_command env ws username command st in
  let clear_point := clock env (ticks st) in
  let notice :=
    Notification ("*" +:+ moderator_username st) "cleared the chat history." in
  let denied :=
    CommandResponse "Permission denied. Only moderators can clear chat history." in
  (username = moderator_username st ->
   forall user, find_user username (db_users st) = Some user ->
     r.1 = Ok tt
     /\ db_messages r.2
        = List.filter (fun m => negb (cleared_by clear_point m)) (db_messages st)
          ++ [mkMessage (user_id user) "cleared the chat history."
                (clock env (S (ticks st))) "clear"]
     /\ (forall m, m ∈ db_messages st -> is_history_type m = true ->
                   msg_timestamp m < clear_point -> m ∉ db_messages r.2)
     /\ (forall m, m ∈ db_messages st -> clear_point <= msg_timestamp m ->
                   m ∈ db_messages r.2)
     /\ (forall c, c ∈ clients st -> send_fails env c = false ->
                   (c, notice) ∈ sent_since st r.2)
     /\ (forall c f, (c, f) ∈ sent_since st r.2 -> c ∈ clients st /\ f = notice))
  /\ (username <> moderator_username st ->
      db_messages r.2 = db_messages st
      /\ (forall c f, (c, f) ∈ sent_since st r.2 -> c = ws /\ f = denied)
      /\ (send_fails env ws = false ->
          r.1 = Ok tt /\ sent_since st r.2 = [(ws, denied)])).
Proof.
  intros Hcmd r clear_point notice denied. subst r. split.
  - intros -> user Huser. rewrite (clear_by_moderator env st ws command user Hcmd Huser).
    cbn [fst snd].
    assert (Hdb : db_messages (cleared env user st)
                  = List.filter (fun m => negb (cleared_by clear_point m))
                      (db_messages st)
                    ++ [mkMessage (user_id user) "cleared the chat history."
                          (clock env (S (ticks st))) "clear"]).
    { destruct st; reflexivity. }
    assert (Hsent : sent_since st (cleared env user st)
            = map (fun c => (c, notice))
                (List.filter (fun c => negb (send_fails env c))
                   (elements (clients st)))).
    { apply sent_since_app. destruct st; reflexivity. }
    rewrite Hdb, Hsent. split; [reflexivity|]. split; [reflexivity|].
    split; [|split; [|split]].
    + intros m Hm Hty Hold Hin. apply elem_of_app in Hin as [Hin|Hin].
      * apply elem_of_filter_bool in Hin as [_ Hk]. unfold cleared_by in Hk.
        rewrite Hty, (proj2 (Z.ltb_lt _ _) Hold) in Hk. discriminate.
      * apply list_elem_of_singleton in Hin. subst m. discriminate.
    + intros m Hm Hnew. apply elem_of_app. left.
      apply elem_of_filter_bool. split; [exact Hm|]. unfold cleared_by.
      rewrite (proj2 (Z.ltb_ge _ _) Hnew). reflexivity.
    + intros c Hc Hlive. apply (list_elem_of_fmap_2 (fun c => (c, notice))).
      apply elem_of_filter_bool. split; [now apply elem_of_elements|].
      now rewrite Hlive.
    + intros c f Hin. apply list_elem_of_fmap in Hin as [c' [Heq Hc']].
      inversion Heq; subst. apply elem_of_filter_bool in Hc' as [Hc' _].
      apply elem_of_elements in Hc'. auto.
  - intros Hne. rewrite (clear_by_other env st ws username command Hcmd Hne).
    fold denied.
    destruct (send_cases env ws denied st) as [[Hlive ->]|[Hdown ->]]; cbn [fst snd].
    + assert (Hsent : sent_since st (set_wire (fun w => w ++ [(ws, denied)]) st)
                      = [(ws, denied)]).
      { apply sent_since_app. destruct st; reflexivity. }
      rewrite Hsent. split; [destruct st; reflexivity|]. split.
      * intros c f Hin. apply list_elem_of_singleton in Hin. now inversion Hin.
      * auto.
    + assert (Hsent : sent_since st st = []).
      { apply sent_since_app. now rewrite app_nil_r. }
      rewrite Hsent. split; [reflexivity|]. split.
      * intros c f Hin. inversion Hin.
      * rewrite Hdown. discriminate.
Qed.

(** ** The session registry and the moderator role *)

Section Dict.

Context {V : Type}.

Lemma dict_set_keys k (v : V) d :
  forall x, x ∈ List.map fst (dict_set k v d)
            <-> x = k \/ x ∈ List.map fst d.
Proof.
  induction d as [|[k' v'] d IH]; intros x; simpl.
  - rewrite list_elem_of_singleton. split; [auto|].
    intros [H|H]; [exact H | inversion H].
  - destruct (Nat.eqb k k') eqn:E; simpl.
    + apply Nat.eqb_eq in E as ->. rewrite elem_of_cons. tauto.
    + rewrite !elem_of_cons, IH. tauto.
Qed.

Lemma dict_set_nodup k (v : V) d :
  NoDup (List.map fst d) -> NoDup (List.map fst (dict_set k v d)).
Proof.
  induction d as [|[k' v'] d IH]; simpl; intros H.
  - apply NoDup_singleton.
  - apply NoDup_cons in H as [Hk H]. destruct (Nat.eqb k k') eqn:E; simpl.
    + apply NoDup_cons; auto.
    + apply NoDup_cons. split; [|auto].
      rewrite dict_set_keys. intros [->|Hin]; [|contradiction].
      now rewrite Nat.eqb_refl in E.
Qed.

Lemma dict_pop_keys k d :
  forall x, x ∈ List.map fst (dict_pop (V:=V) k d) -> x ∈ List.map fst d.
Proof.
  induction d as [|[k' v'] d IH]; intros x; simpl; [auto|].
  destruct (Nat.eqb k k'); simpl; rewrite ?elem_of_cons; [tauto|].
  intros [->|H]; auto.
Qed.

Lemma dict_pop_nodup k d :
  NoDup (List.map fst d) -> NoDup (List.map fst (dict_pop (V:=V) k d)).
Proof.
  induction d as [|[k' v'] d IH]; simpl; intros H; [exact H|].
  apply NoDup_cons in H as [Hk H]. destruct (Nat.eqb k k'); simpl; [exact H|].
  apply NoDup_cons. split; [|auto]. intros Hin. now apply dict_pop_keys in Hin.
Qed.

Lemma dict_get_keys k (d : list (nat * V)) :
  is_Some (dict_get k d) <-> k ∈ List.map fst d.
Proof.
  induction d as [|[k' v'] d IH]; simpl.
  - split; [intros [? H]; discriminate | intros H; inversion H].
  - destruct (Nat.eqb k k') eqn:E.
    + apply Nat.eqb_eq in E as ->. split; [intros _; apply list_elem_of_here | eauto].
    + rewrite elem_of_cons, IH. apply Nat.eqb_neq in E. tauto.
Qed.

Lemma dict_get_pop_ne k k' (d : list (nat * V)) :
  k <> k' -> dict_get k (dict_pop k' d) = dict_get k d.
Proof.
  intros Hne. induction d as [|[x v] d IH]; simpl; [reflexivity|].
  destruct (Nat.eqb k' x) eqn:E.
  - apply Nat.eqb_eq in E as <-.
    now rewrite (proj2 (Nat.eqb_neq _ _) Hne).
  - simpl. now rewrite IH.
Qed.

Lemma dict_pop_absent k (d : list (nat * V)) :
  dict_get k d = None -> dict_pop k d = d.
Proof.
  induction d as [|[x v] d IH]; simpl; [reflexivity|].
  destruct (Nat.eqb k x); [discriminate|]. intros H. now rewrite IH.
Qed.

(** With unique keys, at most one entry has a given key. *)
Lemma filter_key_length m (d : list (nat * V)) :
  NoDup (List.map fst d) ->
  (length (List.filter (fun p => Nat.eqb p.1 m) d) <= 1)%nat.
Proof.
  induction d as [|[x v] d IH]; simpl; intros H; [lia|].
  apply NoDup_cons in H as [Hx H]. destruct (Nat.eqb x m) eqn:E; [|auto].
  apply Nat.eqb_eq in E as ->. simpl.
  enough (List.filter (fun p : nat * V => Nat.eqb p.1 m) d = []) as -> by (simpl; lia).
  clear IH H. induction d as [|[y w] d IHd]; simpl; [reflexivity|].
  simpl in Hx. apply not_elem_of_cons in Hx as [Hy Hx].
  rewrite (proj2 (Nat.eqb_neq y m)) by congruence. auto.
Qed.

End Dict.

Section Preservation.

Variable env : Env.

Variable P : ChatServer -> Prop.

Lemma preserves_ret {A} (a : A) : preserves P (mret a).
Proof. intros st H; exact H. Qed.

Lemma preserves_bind {A B} (m : M A) (k : A -> M B) :
  preserves P m -> (forall a, preserves P (k a)) -> preserves P (m ≫= k).
Proof.
  intros Hm Hk st H. unfold mbind, M_bind. specialize (Hm st H).
  destruct (m st) as [[a|e] st']; simpl in *; [now apply Hk | exact Hm].
Qed.

Lemma preserves_try {A} (m : M A) (h : Exn -> M A) :
  preserves P m -> (forall e, preserves P (h e)) -> preserves P (try_except m h).
Proof.
  intros Hm Hh st H. unfold try_except. specialize (Hm st H).
  destruct (m st) as [[a|e] st']; simpl in *; [exact Hm | now apply Hh].
Qed.

Lemma preserves_get : preserves P get.
Proof. intros st H; exact H. Qed.

Lemma preserves_raise {A} e : preserves P (raise (A:=A) e).
Proof. intros st H; exact H. Qed.

Lemma preserves_modify f :
  (forall st, P st -> P (f st)) -> preserves P (modify f).
Proof. intros Hf st H. now apply Hf. Qed.

(** [P] survives the delivery of a plain frame, and does not look at the
    log, the clock, the message table or the closed connections. *)
Hypothesis P_wire : forall c f st,
  plain_frame f -> P st -> P (set_wire (fun w => w ++ [(c, f)]) st).
Hypothesis P_log : forall f st, P st -> P (set_log f st).
Hypothesis P_ticks : forall f st, P st -> P (set_ticks f st).
Hypothesis P_messages : forall f st, P st -> P (set_db_messages f st).
Hypothesis P_closed : forall f st, P st -> P (set_closed f st).

Lemma preserves_send_if ws frame :
  (forall st, P st -> P (set_wire (fun w => w ++ [(ws, frame)]) st)) ->
  preserves P (send env ws frame).
Proof.
  intros Hw st H. unfold send. destruct (send_fails env ws); simpl; [exact H|].
  now apply Hw.
Qed.

Lemma preserves_send ws frame :
  plain_frame frame -> preserves P (send env ws frame).
Proof. intros Hf. apply preserves_send_if. intros st. now apply P_wire. Qed.

Lemma preserves_now : preserves P (now env).
Proof. intros st H. now apply P_ticks. Qed.

Lemma preserves_logger line : preserves P (logger_error line).
Proof. intros st H. now apply P_log. Qed.

Lemma preserves_notify_all frame :
  plain_frame frame -> preserves P (notify_all env frame).
Proof.
  intros Hf st H. unfold notify_all. simpl.
  generalize (elements (clients st)). intros l.
  revert st H. induction l as [|c l IH]; intros st H; simpl; [exact H|].
  apply IH. unfold gather_one.
  destruct (send_fails env c); [now apply P_log | now apply P_wire].
Qed.

Lemma preserves_notify_user_if username frame :
  (forall c st, P st -> P (set_wire (fun w => w ++ [(c, frame)]) st)) ->
  preserves P (notify_user env username frame).
Proof.
  intros Hw. unfold notify_user.
  apply preserves_bind; [apply preserves_get|]. intros st.
  destruct (user_websockets st !! username); [|apply preserves_ret].
  apply preserves_try.
  - apply preserves_bind; [|intros; apply preserves_ret].
    apply preserves_send_if. intros st0. apply Hw.
  - intros e. apply preserves_bind; [apply preserves_logger | intros; apply preserves_ret].
Qed.

Lemma preserves_notify_user username frame :
  plain_frame frame -> preserves P (notify_user env username frame).
Proof. intros Hf. apply preserves_notify_user_if. intros c st. now apply P_wire. Qed.

Ltac step_preserves :=
  first
    [ apply preserves_ret | apply preserves_get | apply preserves_raise
    | apply preserves_send; exact I | apply preserves_now
    | apply preserves_logger
    | apply preserves_notify_all; exact I
    | apply preserves_notify_user; exact I
    | apply preserves_modify; intros;
      first [apply P_messages | apply P_closed]; assumption
    | apply preserves_bind; [|intros ?]
    | apply preserves_try; [|intros ?]
    | match goal with
      | |- preserves _ (match ?x with _ => _ end) => destruct x
      end ].

(** The router keeps [P] as soon as the [try] block of [/file] does. *)
Hypothesis P_file_transfer : forall ws username target file_data,
  preserves P (file_transfer env ws username target file_data).

Lemma preserves_handle_command ws username command :
  preserves P (handle_command env ws username command).
Proof.
  unfold handle_command, file_transfer_except, ws_close.
  repeat first [apply P_file_transfer | step_preserves].
Qed.

Lemma preserves_process_message ws username message :
  preserves P (process_message env ws username message).
Proof.
  unfold process_message.
  repeat first [apply preserves_handle_command | step_preserves].
Qed.

Lemma preserves_for_each {A} (f : A -> M unit) l :
  (forall x, preserves P (f x)) -> preserves P (for_each f l).
Proof.
  intros Hf. induction l as [|x l IH]; simpl; [apply preserves_ret|].
  apply preserves_bind; [apply Hf | intros _; exact IH].
Qed.

Lemma preserves_history ws : preserves P (send_message_history env ws).
Proof.
  unfold send_message_history. apply preserves_bind; [apply preserves_get|].
  intros st. apply preserves_for_each. intros m. repeat step_preserves.
Qed.

Lemma preserves_announce_join username :
  preserves P (announce_join env username).
Proof. unfold announce_join. repeat step_preserves. Qed.

(** What remains of [handle_client] once [register] and [cleanup] keep
    [P] and [P] does not look at the connection set. *)
Hypothesis P_clients : forall f st, P st -> P (set_clients f st).
Hypothesis P_register : forall ws username, preserves P (register ws username).
Hypothesis P_cleanup : forall ws, preserves P (cleanup env ws).

Lemma preserves_on_exception ws e : preserves P (on_exception env ws e).
Proof.
  destruct e; simpl; try apply P_cleanup;
    (apply preserves_bind; [apply preserves_logger | intros _; apply P_cleanup]).
Qed.

Lemma preserves_open_session ws auth : preserves P (open_session env ws auth).
Proof.
  unfold open_session.
  apply preserves_bind; [apply preserves_modify, P_clients | intros _].
  apply preserves_try; [|apply preserves_on_exception].
  destruct auth as [message|username].
  - apply preserves_bind; [apply preserves_send; exact I | intros _; apply P_cleanup].
  - apply preserves_bind; [apply preserves_send; exact I | intros _].
    apply preserves_bind; [apply P_register | intros _].
    apply preserves_bind; [apply preserves_history | intros _].
    apply preserves_announce_join.
Qed.

Lemma preserves_receive ws message : preserves P (receive env ws message).
Proof.
  unfold receive. apply preserves_bind; [apply preserves_get | intros st].
  destruct (dict_get ws (online_users st)); [|apply preserves_ret].
  apply preserves_try; [|apply preserves_on_exception].
  apply preserves_bind; [apply preserves_process_message | intros _].
  apply preserves_bind; [apply preserves_get | intros st'].
  destruct (existsb _ _); [apply P_cleanup | apply preserves_ret].
Qed.

Lemma preserves_step st ev : P st -> P (step env st ev).
Proof.
  destruct ev; simpl;
    [apply preserves_open_session | apply preserves_receive | apply P_cleanup].
Qed.

Lemma preserves_run evs st : P st -> P (run env st evs).
Proof.
  revert st; induction evs as [|ev evs IH]; intros st H; simpl; [exact H|].
  apply IH, preserves_step, H.
Qed.

End Preservation.

(** Reading a field of an updated state. *)
Ltac fields :=
  cbn [fst snd moderator_username clients online_users user_websockets
       moderator_ws moderator_disconnect_event db_users db_messages
       db_file_transfers wire closed log ticks
       set_clients set_online_users set_user_websockets set_moderator_ws
       set_moderator_disconnect_event set_db_messages set_db_file_transfers
       set_wire set_closed set_log set_ticks] in *.

Section Registry.

Variable env : Env.

(** What the [finally] block does to the registry. *)
Lemma cleanup_registry ws st :
  let r := cleanup env ws st in
  r.1 = Ok tt
  /\ online_users r.2 = dict_pop ws (online_users st)
  /\ moderator_ws r.2 = (if is_moderator st ws then None else moderator_ws st)
  /\ moderator_disconnect_event r.2
     = (is_moderator st ws || moderator_disconnect_event st)
  /\ clients r.2 = clients st ∖ {[ws]}.
Proof.
  unfold cleanup, is_moderator, mbind, M_bind, modify, get, mret, M_ret.
  fields.
  destruct (dict_get ws (online_users st)) as [u|] eqn:Hget.
  - destruct (find_user u (db_users st)) as [user|]; unfold now;
      rewrite notify_all_fan_out; unfold fan_out; fields;
      (destruct (moderator_ws st) as [m|] eqn:Hm; [destruct (Nat.eqb ws m)|]);
      fields; rewrite ?Hm; auto.
  - rewrite (dict_pop_absent _ _ Hget). fields.
    destruct (moderator_ws st) as [m|] eqn:Hm; [destruct (Nat.eqb ws m)|];
      fields; rewrite ?Hm; auto.
Qed.

(** What registration does to the registry. *)
Lemma register_registry ws username st :
  let r := register ws username st in
  r.1 = Ok tt
  /\ online_users r.2 = dict_set ws username (online_users st)
  /\ user_websockets r.2 = <[username := ws]> (user_websockets st)
  /\ moderator_ws r.2
     = match moderator_ws st with
       | None => if String.eqb username (moderator_username st)
                 then Some ws else None
       | Some m => Some m
       end
  /\ moderator_disconnect_event r.2 = moderator_disconnect_event st.
Proof.
  unfold register, mbind, M_bind, modify, get, mret, M_ret. fields.
  destruct (moderator_ws st) as [m|] eqn:Hm.
  - fields. rewrite Hm. auto.
  - destruct (String.eqb username (moderator_username st)); fields;
      rewrite ?Hm; auto.
Qed.

Lemma cleanup_inv ws : preserves registry_inv (cleanup env ws).
Proof.
  intros st [Hnd Hmod].
  destruct (cleanup_registry ws st) as (_ & Hou & Hmw & _).
  unfold registry_inv. rewrite Hou, Hmw. split.
  - now apply dict_pop_nodup.
  - intros w Hw. unfold is_moderator in Hw.
    destruct (moderator_ws st) as [m|] eqn:Hm; [|discriminate].
    destruct (Nat.eqb ws m) eqn:E; [discriminate|].
    inversion Hw; subst w. apply Nat.eqb_neq in E.
    rewrite dict_get_pop_ne by congruence. now apply Hmod.
Qed.

Lemma register_inv ws username : preserves registry_inv (register ws username).
Proof.
  intros st [Hnd Hmod].
  destruct (register_registry ws username st) as (_ & Hou & _ & Hmw & _).
  unfold registry_inv. rewrite Hou, Hmw. split.
  - now apply dict_set_nodup.
  - intros w Hw. apply dict_get_keys, dict_set_keys.
    destruct (moderator_ws st) as [m|] eqn:Hm.
    + inversion Hw; subst w. right. now apply dict_get_keys, Hmod.
    + destruct (String.eqb username (moderator_username st)); [|discriminate].
      inversion Hw. now left.
Qed.

Lemma file_transfer_inv ws username target file_data :
  preserves registry_inv (file_transfer env ws username target file_data).
Proof.
  unfold file_transfer.
  repeat first
    [ apply preserves_ret | apply preserves_get | apply preserves_raise
    | apply preserves_send_if; intros ? Hinv; exact Hinv
    | apply preserves_notify_user_if;
      [intros ? ? Hinv; exact Hinv | intros ? ? Hinv; exact Hinv]
    | apply preserves_modify; intros ? Hinv; exact Hinv
    | (intros st0 Hinv; exact Hinv)
    | apply preserves_bind; [|intros ?]
    | match goal with
      | |- preserves _ (match ?x with _ => _ end) => destruct x
      end ].
Qed.

Lemma run_inv evs st : registry_inv st -> registry_inv (run env st evs).
Proof.
  apply preserves_run; try (intros; assumption).
  - apply file_transfer_inv.
  - apply register_inv.
  - apply cleanup_inv.
Qed.

Lemma new_server_inv moderator users messages transfers :
  registry_inv (new_server moderator users messages transfers).
Proof. split; simpl; [apply NoDup_nil_2 | discriminate]. Qed.

Lemma moderators_length st :
  registry_inv st -> (length (moderators st) <= 1)%nat.
Proof.
  intros [Hnd _]. unfold moderators, is_moderator.
  destruct (moderator_ws st) as [m|].
  - now apply filter_key_length.
  - clear Hnd. induction (online_users st); simpl; auto.
Qed.

End Registry.

(** C9. Along every sequence of connections, received lines and
    disconnections of a new server, at most one registered session holds
    the moderator role, and the holder is a registered session; the role
    goes to the first session registered under the moderator name, a
    later registration (under any name) does not take it, and the
    [finally] block of the holding session sets it to none and raises the
    moderator-disconnect signal, while that of any other session leaves
    it. *)
Theorem at_most_one_moderator env moderator users messages transfers evs :
  let st := run env (new_server moderator users messages transfers) evs in
  ((length (moderators st) <= 1)%nat
   /\ (forall w, moderator_ws st = Some w ->
                 is_Some (dict_get w (online_users st))))
  /\ (forall s ws, moderator_ws s = None ->
        moderator_ws (register ws (moderator_username s) s).2 = Some ws)
  /\ (forall s ws username m, moderator_ws s = Some m ->
        moderator_ws (register ws username s).2 = Some m)
  /\ (forall s ws, moderator_ws s = Some ws ->
        moderator_ws (cleanup env ws s).2 = None
        /\ moderator_disconnect_event (cleanup env ws s).2 = true)
  /\ (forall s ws m, moderator_ws s = Some m -> ws <> m ->
        moderator_ws (cleanup env ws s).2 = Some m).
Proof.
  intros st.
  assert (Hinv : registry_inv st) by apply run_inv, new_server_inv.
  split; [split; [now apply moderators_length | apply Hinv]|].
  split; [|split; [|split]].
  - intros s ws Hm.
    destruct (register_registry ws (moderator_username s) s) as (_ & _ & _ & -> & _).
    now rewrite Hm, String.eqb_refl.
  - intros s ws username m Hm.
    destruct (register_registry ws username s) as (_ & _ & _ & -> & _).
    now rewrite Hm.
  - intros s ws Hm.
    destruct (cleanup_registry env ws s) as (_ & _ & -> & -> & _).
    unfold is_moderator. now rewrite Hm, Nat.eqb_refl.
  - intros s ws m Hm Hne.
    destruct (cleanup_registry env ws s) as (_ & _ & -> & _).
    unfold is_moderator. rewrite Hm.
    now rewrite (proj2 (Nat.eqb_neq _ _) Hne).
Qed.

(** ** [/file] *)

Section FileFacts.

Variable env : Env.

(** A line whose normal form starts with ["/file "] reaches the file
    branch of the router. *)
Lemma handle_file_branch ws username command st :
  PyStr.startswith "/file " (PyStr.lower (PyStr.strip command)) = true ->
  handle_command env ws username command st
  = match PyStr.split " " (PyStr.lower (PyStr.strip command)) 2 with
    | _ :: target_username :: file_data :: _ =>
        match user_websockets st !! target_username with
        | None =>
            send env ws (CommandResponse
              ("User " +:+ target_username +:+ " is not online.")) st
        | Some _ =>
            try_except
              (file_transfer env ws username target_username file_data)
              (file_transfer_except env ws) st
        end
    | _ => send env ws USAGE_FILE st
    end.
Proof.
  intros H. unfold handle_command.
  destruct (startswith_app _ _ H) as [r Hr]. rewrite Hr.
  change ("/file " +:+ r)
    with (String "/" (String "f" (String "i" (String "l" (String "e"
           (String " " r)))))).
  cbn [String.eqb Ascii.eqb Bool.eqb PyStr.startswith orb andb].
  unfold mbind, M_bind, get.
  destruct (PyStr.split _ _ _) as [|p0 [|target [|file_data l]]]; try reflexivity.
  destruct (user_websockets st !! target); reflexivity.
Qed.

Lemma sent_since_refl st : sent_since st st = [].
Proof. apply sent_since_app. now rewrite app_nil_r. Qed.

Lemma sent_since_one st c f :
  sent_since st (set_wire (fun w => w ++ [(c, f)]) st) = [(c, f)].
Proof. now apply sent_since_app. Qed.

Lemma refused_send ws frame st : refused_with env ws frame st (send env ws frame st).
Proof.
  unfold refused_with.
  destruct (send_cases env ws frame st) as [[Hlive ->]|[Hdown ->]]; fields.
  - rewrite sent_since_one. do 2 (split; [reflexivity|]). split; [|reflexivity].
    intros c f Hin; apply list_elem_of_singleton in Hin; now inversion Hin.
  - rewrite sent_since_refl. do 2 (split; [reflexivity|]). split.
    + intros c f Hin; inversion Hin.
    + rewrite Hdown. discriminate.
Qed.


(** The size refusal is sent from inside the [try] block. *)
Lemma refused_in_try ws frame st (body : M unit) :
  body st = send env ws frame st ->
  refused_with env ws frame st (try_except body (file_transfer_except env ws) st).
Proof.
  intros Hb. unfold try_except. rewrite Hb.
  destruct (send_cases env ws frame st) as [[Hlive Hs]|[Hdown Hs]]; rewrite Hs.
  - rewrite <- Hs. apply refused_send.
  - simpl. unfold mbind, M_bind, logger_error, modify.
    unfold send at 1. rewrite Hdown. unfold raise, refused_with. fields.
    assert (Hw : sent_since st
              (set_log (fun l => l ++ ["Error processing file transfer"]) st) = []).
    { apply sent_since_app. fields. now rewrite app_nil_r. }
    rewrite Hw. do 2 (split; [reflexivity|]). split.
    + intros c f Hin; inversion Hin.
    + rewrite Hdown. discriminate.
Qed.

End FileFacts.


Section FileAccepted.

Variable env : Env.

(** The accepted path of the [try] block, for a live caller. *)
Lemma file_accepted st ws username target file_data filename base64_data
      decoded sender receiver tws :
  PyStr.split ";" file_data 1 = [filename; base64_data] ->
  b64decode env base64_data = Some decoded ->
  Z.of_nat (length decoded) <= MAX_FILE_SIZE ->
  find_user username (db_users st) = Some sender ->
  find_user target (db_users st) = Some receiver ->
  user_websockets st !! target = Some tws ->
  send_fails env ws = false ->
  let r := try_except (file_transfer env ws username target file_data)
             (file_transfer_except env ws) st in
  r.1 = Ok tt
  /\ db_file_transfers r.2
     = db_file_transfers st
       ++ [transfer_record env st filename decoded sender receiver]
  /\ db_messages r.2 = db_messages st
  /\ sent_since st r.2
     = (if send_fails env tws then []
        else [(tws, file_event env st username filename base64_data decoded)])
       ++ [(ws, file_confirmation filename target decoded)].
Proof.
  intros Hsplit Hdec Hsize Hs Hr Htws Hlive r. subst r.
  unfold try_except, file_transfer. rewrite Hsplit, Hdec.
  rewrite Z.gtb_ltb, (proj2 (Z.ltb_ge _ _) Hsize).
  unfold mbind, M_bind, get. rewrite Hs, Hr.
  unfold now, modify, notify_user, mbind, M_bind, get. fields.
  rewrite Htws. unfold try_except, mbind, M_bind, mret, M_ret, send, raise,
    logger_error, modify.
  rewrite Hlive. unfold transfer_record, file_event, file_confirmation.
  destruct (send_fails env tws); fields.
  - do 3 (split; [reflexivity|]). apply sent_since_app. fields. reflexivity.
  - do 3 (split; [reflexivity|]). apply sent_since_app. fields.
    now rewrite <- app_assoc.
Qed.

End FileAccepted.

(** C6. A [/file] line for a registered target whose payload decodes to
    exactly 10 MiB is accepted: the record is stored with status
    ["completed"], the file event goes to the target and the confirmation
    to the sender.  A payload that decodes to one byte more is refused with
    the size-limit response to the sender alone: nothing is stored and no
    file event is delivered. *)
Theorem file_size_boundary env st ws username command target filename
    base64_data decoded tws :
  file_command_parts command = Some (target, filename, base64_data) ->
  b64decode env base64_data = Some decoded ->
  user_websockets st !! target = Some tws ->
  let r := handle_command env ws username command st in
  (Z.of_nat (length decoded) = 10 * 1024 * 1024 ->
   forall sender receiver,
     find_user username (db_users st) = Some sender ->
     find_user target (db_users st) = Some receiver ->
     send_fails env ws = false ->
     r.1 = Ok tt
     /\ db_file_transfers r.2
        = db_file_transfers st
          ++ [transfer_record env st filename decoded sender receiver]
     /\ sent_since st r.2
        = (if send_fails env tws then []
           else [(tws, file_event env st username filename base64_data decoded)])
          ++ [(ws, file_confirmation filename target decoded)])
  /\ (Z.of_nat (length decoded) = 10 * 1024 * 1024 + 1 ->
      refused_with env ws (CommandResponse (render_error SizeLimitError)) st r
      /\ forall c u f n d h t, (c, FileEvent u f n d h t) ∉ sent_since st r.2).
Proof.
  intros Hparts Hdec Htws r. subst r.
  unfold file_command_parts in Hparts.
  destruct (PyStr.startswith "/file " _) eqn:Hfile; [|discriminate].
  rewrite (handle_file_branch env _ _ _ _ Hfile).
  destruct (PyStr.split " " _ 2) as [|p0 [|target' [|file_data l]]];
    try discriminate.
  destruct (PyStr.split ";" file_data 1) as [|fn [|b64 [|x l']]] eqn:Hsplit;
    try discriminate.
  inversion Hparts; subst target' fn b64. rewrite Htws. split.
  - intros Hsize sender receiver Hs Hr Hlive.
    destruct (file_accepted env st ws username target file_data filename
                base64_data decoded sender receiver tws) as (H1 & H2 & _ & H4);
      auto.
    rewrite Hsize. unfold MAX_FILE_SIZE. lia.
  - intros Hsize.
    assert (Href : refused_with env ws
              (CommandResponse (render_error SizeLimitError)) st
              (try_except (file_transfer env ws username target file_data)
                 (file_transfer_except env ws) st)).
    { apply refused_in_try. unfold file_transfer. rewrite Hsplit, Hdec.
      rewrite Hsize. reflexivity. }
    split; [exact Href|].
    intros c u f n d h t Hin. destruct Href as (_ & _ & Honly & _).
    apply Honly in Hin as [_ Hf]. discriminate.
Qed.

(** ** Integrity of relayed files *)

Section FileIntegrity.

Variable env : Env.

Lemma file_inv_plain c f st :
  plain_frame f -> file_inv env st ->
  file_inv env (set_wire (fun w => w ++ [(c, f)]) st).
Proof.
  intros Hf H c' u fn n d h t Hin. fields.
  apply elem_of_app in Hin as [Hin|Hin]; [exact (H _ _ _ _ _ _ _ Hin)|].
  apply list_elem_of_singleton in Hin. inversion Hin; subst. destruct Hf.
Qed.

Lemma file_inv_record rec st :
  file_inv env st -> file_inv env (set_db_file_transfers (fun t => t ++ [rec]) st).
Proof.
  intros H c u fn n d h t Hin. fields.
  destruct (H c u fn n d h t Hin) as (decoded & H1 & H2 & H3 & r & Hr & Hrest).
  exists decoded. do 3 (split; [assumption|]). exists r.
  split; [|exact Hrest]. apply elem_of_app. now left.
Qed.

Lemma file_inv_event c u fn d decoded t st :
  b64decode env d = Some decoded ->
  (exists rec, rec ∈ db_file_transfers st
     /\ ft_filename rec = fn /\ ft_size rec = Z.of_nat (length decoded)
     /\ ft_file_hash rec = sha256_hexdigest env decoded
     /\ ft_status rec = "completed") ->
  file_inv env st ->
  file_inv env (set_wire (fun w => w ++
    [(c, FileEvent u fn (Z.of_nat (length decoded)) d
           (sha256_hexdigest env decoded) t)]) st).
Proof.
  intros Hdec Hrec H c' u' fn' n' d' h' t' Hin. fields.
  apply elem_of_app in Hin as [Hin|Hin]; [exact (H _ _ _ _ _ _ _ Hin)|].
  apply list_elem_of_singleton in Hin. inversion Hin; subst.
  exists decoded. auto.
Qed.

Lemma file_transfer_integrity ws username target file_data :
  preserves (file_inv env) (file_transfer env ws username target file_data).
Proof.
  unfold file_transfer.
  destruct (PyStr.split ";" file_data 1) as [|filename [|base64_data [|x l]]];
    try apply preserves_raise.
  destruct (b64decode env base64_data) as [decoded|] eqn:Hdec;
    [|apply preserves_raise].
  destruct (_ >? _).
  { apply preserves_send; [apply file_inv_plain | exact I]. }
  intros st H. unfold mbind, M_bind, get.
  destruct (find_user username (db_users st)) as [sender|]; [|exact H].
  destruct (find_user target (db_users st)) as [receiver|]; [|exact H].
  unfold now, modify. fields.
  set (rec := mkFileTransfer _ _ _ _ _ _ _).
  set (st2 := set_ticks S (set_db_file_transfers _ _)).
  assert (H2 : file_inv env st2) by (apply (file_inv_record rec), H).
  assert (Hrec : exists r, r ∈ db_file_transfers st2
            /\ ft_filename r = filename
            /\ ft_size r = Z.of_nat (length decoded)
            /\ ft_file_hash r = sha256_hexdigest env decoded
            /\ ft_status r = "completed").
  { exists rec. split; [|auto]. subst st2. fields.
    apply elem_of_app. right. apply list_elem_of_here. }
  clearbody st2. clear H.
  unfold notify_user, mbind, M_bind, get.
  destruct (user_websockets st2 !! target) as [tws|].
  - unfold try_except, mbind, M_bind, send, raise, mret, M_ret,
      logger_error, modify.
    destruct (send_fails env tws); fields.
    + destruct (send_fails env ws); fields; [exact H2|].
      apply file_inv_plain; [exact I | exact H2].
    + destruct (send_fails env ws); fields;
        [|apply file_inv_plain; [exact I|]];
        apply file_inv_event; assumption.
  - unfold mret, M_ret, send, raise, modify.
    destruct (send_fails env ws); fields; [exact H2|].
    apply file_inv_plain; [exact I | exact H2].
Qed.

Lemma register_integrity ws username : preserves (file_inv env) (register ws username).
Proof.
  intros st H.
  unfold register, mbind, M_bind, modify, get, mret, M_ret. fields.
  destruct (moderator_ws st); [exact H|].
  destruct (String.eqb _ _); exact H.
Qed.

Lemma cleanup_integrity ws : preserves (file_inv env) (cleanup env ws).
Proof.
  unfold cleanup.
  repeat first
    [ apply preserves_ret | apply preserves_get
    | apply preserves_now; intros ? ? Hinv; exact Hinv
    | apply preserves_notify_all;
      [apply file_inv_plain | intros ? ? Hinv; exact Hinv | exact I]
    | apply preserves_modify; intros ? Hinv; exact Hinv
    | apply preserves_bind; [|intros ?]
    | match goal with
      | |- preserves _ (match ?x with _ => _ end) => destruct x
      end ].
Qed.

Lemma run_integrity evs st : file_inv env st -> file_inv env (run env st evs).
Proof.
  apply preserves_run; try (intros ? ? Hinv; exact Hinv).
  - apply file_inv_plain.
  - apply file_transfer_integrity.
  - apply register_integrity.
  - apply cleanup_integrity.
Qed.

End FileIntegrity.

Section Receiver.

Import Client.

Lemma prompt_ask_yn default pending v rest :
  default = "y" \/ default = "n" ->
  prompt_ask ["y"; "n"] default pending = Some (v, rest) ->
  v = "y" \/ v = "n".
Proof.
  intros Hd. induction pending as [|a r IH]; simpl; [discriminate|].
  destruct (String.eqb a EmptyString);
    [intros [= <- _]; exact Hd|].
  destruct (String.eqb (PyStr.strip a) "y") eqn:Ey;
    [intros [= <- _]; left; now apply String.eqb_eq|].
  destruct (String.eqb (PyStr.strip a) "n") eqn:En;
    [intros [= <- _]; right; now apply String.eqb_eq|].
  exact IH.
Qed.

Variable env : Env.
Variable disk : Disk.

(** The receiver, by the user's answers. *)
Lemma receive_file_eq username filename size data hash c :
  receive_file env disk username filename size data hash c
  = let lines := console c ++ [announcement username filename size] in
    match prompt_ask ["y"; "n"] "y" (answers c) with
    | None => EOFError (mkClient lines (saved c) [])
    | Some (save, rest) =>
        let c1 := mkClient lines (saved c) rest in
        Returned
          (if String.eqb save "y" then
             if makedirs_fails disk (downloads_dir disk)
             then print SAVE_ERROR c1
             else
               match b64decode env data with
               | None => print SAVE_ERROR c1
               | Some decoded =>
                   if String.eqb (sha256_hexdigest env decoded) hash
                   then save_to disk (download_path disk filename) decoded c1
                   else
                     match prompt_ask ["y"; "n"] "n" rest with
                     | None =>
                         print SAVE_ERROR
                           (mkClient (lines ++ [WARNING]) (saved c) [])
                     | Some (verify, rest') =>
                         let c2 := mkClient (lines ++ [WARNING]) (saved c)
                                     rest' in
                         if String.eqb verify "y"
                         then save_to disk (download_path disk filename)
                                decoded c2
                         else print NOT_SAVED c2
                     end
               end
           else print NOT_SAVED c1)
    end.
Proof.
  unfold receive_file, ask, print. cbn [answers console saved].
  destruct (prompt_ask ["y"; "n"] "y" (answers c)) as [[v rest]|] eqn:Hv;
    [|reflexivity].
  cbv zeta. f_equal.
  destruct (prompt_ask_yn _ _ _ _ (or_introl eq_refl) Hv) as [-> | ->];
    [|reflexivity].
  change (String.eqb (PyStr.lower "y") "y") with true.
  change (String.eqb "y" "y") with true. cbv iota.
  fold (downloads_dir disk). fold (download_path disk filename).
  destruct (makedirs_fails disk (downloads_dir disk)); [reflexivity|].
  destruct (b64decode env data) as [decoded|]; [|reflexivity].
  destruct (String.eqb (sha256_hexdigest env decoded) hash); [reflexivity|].
  cbn [negb answers console saved].
  destruct (prompt_ask ["y"; "n"] "n" rest) as [[v' rest']|] eqn:Hv';
    [|reflexivity].
  destruct (prompt_ask_yn _ _ _ _ (or_intror eq_refl) Hv') as [-> | ->];
    reflexivity.
Qed.

(** The receiver of a file whose recomputed digest differs from the
    advertised one, after the user chose to save it. *)
Lemma receive_mismatch username filename size data hash decoded rest c :
  b64decode env data = Some decoded ->
  sha256_hexdigest env decoded <> hash ->
  prompt_ask ["y"; "n"] "y" (answers c) = Some ("y", rest) ->
  exists c',
    receive_file env disk username filename size data hash c = Returned c'
    /\ let verify := prompt_ask ["y"; "n"] "n" rest in
       let path := download_path disk filename in
       let said lines :=
         console c'
         = console c ++ announcement username filename size :: lines in
       (makedirs_fails disk (downloads_dir disk) = true ->
          said [SAVE_ERROR] /\ saved c' = saved c)
       /\ (makedirs_fails disk (downloads_dir disk) = false ->
           (forall rest', verify = Some ("y", rest') ->
              open_fails disk path = false ->
              said [WARNING; "File saved to " +:+ path]
              /\ saved c' = saved c ++ [(path, decoded)])
           /\ (forall rest', verify = Some ("y", rest') ->
               open_fails disk path = true ->
               said [WARNING; SAVE_ERROR] /\ saved c' = saved c)
           /\ (forall answer rest', verify = Some (answer, rest') ->
               answer <> "y" ->
               said [WARNING; NOT_SAVED] /\ saved c' = saved c)
           /\ (verify = None ->
               said [WARNING; SAVE_ERROR] /\ saved c' = saved c)).
Proof.
  intros Hdec Hne Hsave.
  rewrite receive_file_eq. rewrite Hsave. cbv zeta.
  change (String.eqb "y" "y") with true. cbv iota.
  eexists. split; [reflexivity|].
  split.
  - intros ->. unfold print. cbn [console saved].
    rewrite <- app_assoc. auto.
  - intros ->. rewrite Hdec, (proj2 (String.eqb_neq _ _) Hne).
    split; [|split; [|split]].
    + intros rest' -> Hopen. change (String.eqb "y" "y") with true. cbv iota.
      unfold save_to. rewrite Hopen. unfold print, write_file.
      cbn [console saved]. rewrite <- !app_assoc. auto.
    + intros rest' -> Hopen. change (String.eqb "y" "y") with true. cbv iota.
      unfold save_to. rewrite Hopen. unfold print.
      cbn [console saved]. rewrite <- !app_assoc. auto.
    + intros answer rest' -> Hv. rewrite (proj2 (String.eqb_neq _ _) Hv).
      unfold print. cbn [console saved]. rewrite <- !app_assoc. auto.
    + intros ->. unfold print. cbn [console saved].
      rewrite <- !app_assoc. auto.
Qed.

End Receiver.

(** The path of a received file is made by [os.path.join]: a plain name
    lands in the downloads directory, an absolute name replaces it. *)
Example download_path_examples :
  download_path demo_disk "notes.txt"
  = "/home/bob/cli_chat_downloads/notes.txt"
  /\ download_path demo_disk "/tmp/notes.txt" = "/tmp/notes.txt"
  /\ download_path demo_disk EmptyString = "/home/bob/cli_chat_downloads/".
Proof. repeat split; reflexivity. Qed.

(** C7. In every state a new server reaches, each delivered file event
    carries the payload whose decoded bytes have the digest and size in the
    event, and a ["completed"] record with that digest is stored.  On the
    receiving side, when the user accepted the offer and the digest
    recomputed from the payload differs from the advertised one, the
    handler returns after the warning and one more line: the file is
    written only if the user then answers ["y"] (after stripping) and the
    file can be written; with any other answer the receiver is told that
    the file was not saved, and when the input ends or the file cannot be
    written, that saving failed.  When the downloads directory cannot be
    made the digest is not reached and saving fails. *)
Theorem file_hash_integrity env moderator users messages transfers evs :
  file_inv env (run env (new_server moderator users messages transfers) evs)
  /\ forall disk username filename size data hash decoded rest c,
       b64decode env data = Some decoded ->
       sha256_hexdigest env decoded <> hash ->
       Client.prompt_ask ["y"; "n"] "y" (Client.answers c)
       = Some ("y", rest) ->
       exists c',
         Client.receive_file env disk username filename size data hash c
         = Client.Returned c'
         /\ let verify := Client.prompt_ask ["y"; "n"] "n" rest in
            let path := download_path disk filename in
            let said lines :=
              Client.console c'
              = Client.console c
                ++ announcement username filename size :: lines in
            (Client.makedirs_fails disk (downloads_dir disk) = true ->
               said [Client.SAVE_ERROR] /\ Client.saved c' = Client.saved c)
            /\ (Client.makedirs_fails disk (downloads_dir disk) = false ->
                (forall rest', verify = Some ("y", rest') ->
                   Client.open_fails disk path = false ->
                   said [Client.WARNING; "File saved to " +:+ path]
                   /\ Client.saved c' = Client.saved c ++ [(path, decoded)])
                /\ (forall rest', verify = Some ("y", rest') ->
                    Client.open_fails disk path = true ->
                    said [Client.WARNING; Client.SAVE_ERROR]
                    /\ Client.saved c' = Client.saved c)
                /\ (forall answer rest', verify = Some (answer, rest') ->
                    answer <> "y" ->
                    said [Client.WARNING; Client.NOT_SAVED]
                    /\ Client.saved c' = Client.saved c)
                /\ (verify = None ->
                    said [Client.WARNING; Client.SAVE_ERROR]
                    /\ Client.saved c' = Client.saved c)).
Proof.
  split.
  - apply run_integrity. intros c u fn n d h t Hin. inversion Hin.
  - intros. now apply receive_mismatch.
Qed.

(** ** Case folding of command lines *)

Section Folding.

Variable env : Env.

Lemma app_cons c a b : String c a +:+ b = String c (a +:+ b).
Proof. reflexivity. Qed.

Lemma app_assoc_string a b c : (a +:+ b) +:+ c = a +:+ (b +:+ c).
Proof. induction a as [|x a IH]; [reflexivity|]. rewrite !app_cons. now rewrite IH. Qed.

(** The router only sees the normal form of the line. *)
Lemma handle_command_normal ws username command st :
  handle_command env ws username (PyStr.lower (PyStr.strip command)) st
  = handle_command env ws username command st.
Proof. unfold handle_command. now rewrite normalise_idem. Qed.

(** The normal form of [verb target text], and its three parts. *)
Lemma normal_parts verb target text :
  lstripped verb -> verb <> EmptyString ->
  lacks " " verb = true -> lacks " " target = true ->
  PyStr.rstrip text = text -> text <> EmptyString ->
  let line := verb +:+ " " +:+ target +:+ " " +:+ text in
  PyStr.lower (PyStr.strip line)
  = PyStr.lower verb +:+ " " +:+ PyStr.lower target +:+ " " +:+ PyStr.lower text
  /\ PyStr.split " " (PyStr.lower (PyStr.strip line)) 2
     = [PyStr.lower verb; PyStr.lower target; PyStr.lower text].
Proof.
  intros Hv Hne Hlv Hlt Hr Hnt line.
  assert (Hstrip : PyStr.strip line = line).
  { unfold PyStr.strip. rewrite lstrip_fixed.
    - subst line.
      rewrite <- (app_assoc_string verb), <- (app_assoc_string (verb +:+ " ")),
        <- (app_assoc_string ((verb +:+ " ") +:+ target)).
      now apply rstrip_app_fixed.
    - subst line. destruct verb; [congruence | exact Hv]. }
  rewrite Hstrip. subst line. rewrite !lower_app.
  change (PyStr.lower " ") with " ". split; [reflexivity|].
  change (" " +:+ PyStr.lower target +:+ " " +:+ PyStr.lower text)
    with (String " " (PyStr.lower target +:+ String " " (PyStr.lower text))).
  rewrite split_first by now rewrite lacks_lower_space.
  rewrite split_first by now rewrite lacks_lower_space.
  now rewrite split_zero_any.
Qed.

(** A whisper line: the registry is asked for the lowercased target,
    and the text is relayed in lower case. *)
Lemma handle_whisper ws username target text st :
  lacks " " target = true ->
  PyStr.rstrip text = text -> text <> EmptyString ->
  handle_command env ws username ("/whisper " +:+ target +:+ " " +:+ text) st
  = match user_websockets st !! PyStr.lower target with
    | None =>
        send env ws (CommandResponse
          ("User " +:+ PyStr.lower target +:+ " is not online.")) st
    | Some _ =>
        (ts ← now env;
         notify_user env (PyStr.lower target)
           (Whisper username (PyStr.lower text) ts) ;;
         send env ws (CommandResponse
           ("Whisper sent to " +:+ PyStr.lower target))) st
    end.
Proof.
  intros Hlt Hr Hnt.
  destruct (normal_parts "/whisper" target text) as [Hn Hs];
    try assumption; try reflexivity; try discriminate.
  change ("/whisper" +:+ " " +:+ target +:+ " " +:+ text)
    with ("/whisper " +:+ target +:+ " " +:+ text) in Hn, Hs.
  unfold handle_command. rewrite Hs, Hn.
  change (PyStr.lower "/whisper" +:+ " " +:+ PyStr.lower target +:+ " "
          +:+ PyStr.lower text)
    with (String "/" (String "w" (String "h" (String "i" (String "s"
           (String "p" (String "e" (String "r" (String " "
             (PyStr.lower target +:+ " " +:+ PyStr.lower text)))))))))).
  cbn [String.eqb Ascii.eqb Bool.eqb PyStr.startswith orb andb].
  unfold mbind, M_bind, get.
  destruct (user_websockets st !! PyStr.lower target); reflexivity.
Qed.

(** A file line: the registry is asked for the lowercased target. *)
Lemma handle_file_offline ws username target payload st :
  lacks " " target = true ->
  PyStr.rstrip payload = payload -> payload <> EmptyString ->
  user_websockets st !! PyStr.lower target = None ->
  handle_command env ws username ("/file " +:+ target +:+ " " +:+ payload) st
  = send env ws (CommandResponse
      ("User " +:+ PyStr.lower target +:+ " is not online.")) st.
Proof.
  intros Hlt Hr Hnt Hoff.
  destruct (normal_parts "/file" target payload) as [Hn Hs];
    try assumption; try reflexivity; try discriminate.
  change ("/file" +:+ " " +:+ target +:+ " " +:+ payload)
    with ("/file " +:+ target +:+ " " +:+ payload) in Hn, Hs.
  rewrite handle_file_branch.
  - now rewrite Hs, Hoff.
  - rewrite Hn. reflexivity.
Qed.

End Folding.

(** What the router does with the arguments of [/whisper] and [/file]:
    the target is looked up in lower case and the whisper text is relayed
    in lower case.  A line addressed to a name with an upper-case letter is
    answered "is not online" when the lowercased name is not registered,
    and is delivered to the session of the lowercased name when that one
    is registered. *)
Lemma arguments_are_folded env st ws username :
  (forall command,
     handle_command env ws username (PyStr.lower (PyStr.strip command)) st
     = handle_command env ws username command st)
  /\ handle_command env ws username "/USERS" st
     = handle_command env ws username "/users" st
  /\ (forall target text,
        lacks " " target = true ->
        PyStr.rstrip text = text -> text <> EmptyString ->
        let r := handle_command env ws username
                   ("/whisper " +:+ target +:+ " " +:+ text) st in
        (user_websockets st !! PyStr.lower target = None ->
         r = send env ws (CommandResponse
               ("User " +:+ PyStr.lower target +:+ " is not online.")) st)
        /\ (forall tws,
              user_websockets st !! PyStr.lower target = Some tws ->
              send_fails env tws = false -> send_fails env ws = false ->
              r.1 = Ok tt
              /\ sent_since st r.2
                 = [(tws, Whisper username (PyStr.lower text)
                            (clock env (ticks st)));
                    (ws, CommandResponse
                           ("Whisper sent to " +:+ PyStr.lower target))]))
  /\ (forall target payload,
        lacks " " target = true ->
        PyStr.rstrip payload = payload -> payload <> EmptyString ->
        user_websockets st !! PyStr.lower target = None ->
        handle_command env ws username
          ("/file " +:+ target +:+ " " +:+ payload) st
        = send env ws (CommandResponse
            ("User " +:+ PyStr.lower target +:+ " is not online.")) st).
Proof.
  split; [intros; apply handle_command_normal|].
  split; [now rewrite <- (handle_command_normal env ws username "/USERS")|].
  split; [|intros; now apply handle_file_offline].
  intros target text Hlt Hr Hnt r. subst r.
  rewrite (handle_whisper env ws username target text st Hlt Hr Hnt). split.
  - now intros ->.
  - intros tws Htws Hlive Hws. rewrite Htws.
    unfold notify_user, now. unfold mbind, M_bind, get. fields. rewrite Htws.
    unfold try_except, send, mret, M_ret, modify.
    rewrite Hlive, Hws. fields. split; [reflexivity|].
    apply sent_since_app. fields. now rewrite <- app_assoc.
Qed.

Lemma normal_prefix_fold a b rest :
  PyStr.lower a = PyStr.lower b ->
  PyStr.lower (PyStr.strip (a +:+ rest)) = PyStr.lower (PyStr.strip (b +:+ rest)).
Proof.
  intros H. rewrite <- !strip_lower, !lower_app. now rewrite H.
Qed.

(** C10 (amended). The router classifies a line by its stripped,
    lowercased form, so command names match whatever their case and the
    white space around the line: two lines that differ only in the case of
    the command name are handled alike, a line is handled as its stripped
    form, [/USERS] is [/users], and every line whose normal form is
    [/users] gets the list of online users. *)
Theorem command_names_fold_case env st ws username :
  (forall name name' rest,
     lacks " " name = true ->
     PyStr.lower name = PyStr.lower name' ->
     handle_command env ws username (name +:+ rest) st
     = handle_command env ws username (name' +:+ rest) st)
  /\ (forall command,
        handle_command env ws username (PyStr.strip command) st
        = handle_command env ws username command st)
  /\ handle_command env ws username "/USERS" st
     = handle_command env ws username "/users" st
  /\ (forall command,
        PyStr.lower (PyStr.strip command) = "/users" ->
        handle_command env ws username command st
        = send env ws (CommandResponse
            ("Online users: "
             +:+ PyStr.join ", " (map snd (online_users st)))) st).
Proof.
  split; [|split; [|split]].
  - intros name name' rest _ H. unfold handle_command.
    now rewrite (normal_prefix_fold name name' rest H).
  - intros command. unfold handle_command. now rewrite strip_idem.
  - reflexivity.
  - intros command H. unfold handle_command. rewrite H. reflexivity.
Qed.

(** ** The theorems at concrete inputs *)

Lemma broadcast_survives_one_failure_witness :
  2%nat ∈ clients demo_server
  /\ (notify_all one_down_env (Notification "*admin" "cleared the chat history.")
        demo_server).1 = Ok tt
  /\ length (sent_since demo_server
       (notify_all one_down_env
          (Notification "*admin" "cleared the chat history.") demo_server).2)
     = (size (clients demo_server) - 1)%nat.
Proof.
  assert (H2 : 2%nat ∈ clients demo_server).
  { refine (bool_decide_unpack _ _). vm_compute. exact I. }
  split; [exact H2|].
  destruct (broadcast_survives_one_failure one_down_env demo_server
              (Notification "*admin" "cleared the chat history.") 2 H2)
    as (Hok & _ & _ & Hlen & _).
  - intros c _. simpl. apply Nat.eqb_eq.
  - split; [exact Hok | exact Hlen].
Defined.

Lemma clear_is_moderator_gated_witness :
  PyStr.lower (PyStr.strip "/Clear ") = "/clear"
  /\ (handle_command live_env 1 "admin" "/Clear " demo_chat).1 = Ok tt
  /\ db_messages (handle_command live_env 2 "alice" "/Clear " demo_chat).2
     = db_messages demo_chat.
Proof.
  split; [reflexivity|].
  destruct (clear_is_moderator_gated live_env demo_chat 1 "admin" "/Clear "
              eq_refl) as [Hmod _].
  destruct (clear_is_moderator_gated live_env demo_chat 2 "alice" "/Clear "
              eq_refl) as [_ Hother].
  split.
  - apply (Hmod eq_refl (mkUser 1 "admin")). vm_compute. reflexivity.
  - apply Hother. vm_compute. discriminate.
Defined.

Example clear_example :
  map msg_content (db_messages demo_chat)
  = ["joined the chat."; "joined the chat."; "joined the chat."; "hello";
     "hi alice"]
  /\ map msg_content
       (db_messages (handle_command live_env 1 "admin" "/clear" demo_chat).2)
     = ["joined the chat."; "joined the chat."; "joined the chat.";
        "cleared the chat history."].
Proof. split; vm_compute; reflexivity. Qed.

(** C2, as first stated: the gate is not the moderator session.  In
    [demo_second_admin] connection 1 holds the moderator role and
    connection 5, authenticated under the moderator name, does not; yet
    [/clear] from connection 5 deletes the two stored chat lines, is
    broadcast to the four live sessions, and nobody is answered with the
    permission-denied response. *)
Lemma second_admin_session_clears :
  let st := demo_second_admin in
  let r := handle_command live_env 5 "admin" "/clear" st in
  is_moderator st 1 = true
  /\ is_moderator st 5 = false
  /\ map msg_content (db_messages st)
     = ["joined the chat."; "joined the chat."; "joined the chat."; "hello";
        "hi alice"; "joined the chat."]
  /\ map msg_content (db_messages r.2)
     = ["joined the chat."; "joined the chat."; "joined the chat.";
        "joined the chat."; "cleared the chat history."]
  /\ map snd (sent_since st r.2)
     = repeat (Notification "*admin" "cleared the chat history.") 4.
Proof. repeat split; vm_compute; reflexivity. Qed.

Lemma at_most_one_moderator_witness :
  moderator_ws (new_server "admin" demo_users [] []) = None
  /\ moderator_ws
       (register 1 "admin" (new_server "admin" demo_users [] [])).2 = Some 1%nat
  /\ moderator_ws (register 5 "admin" demo_server).2 = Some 1%nat
  /\ moderator_ws (cleanup live_env 1 demo_server).2 = None.
Proof.
  pose proof (at_most_one_moderator live_env "admin" demo_users [] [] [])
    as (_ & Hfirst & Hlater & Hrelease & _).
  split; [reflexivity|]. split; [|split].
  - apply (Hfirst (new_server "admin" demo_users [] []) 1%nat eq_refl).
  - apply (Hlater demo_server 5%nat "admin" 1%nat). vm_compute. reflexivity.
  - apply (Hrelease demo_server 1%nat). vm_compute. reflexivity.
Defined.



Lemma file_size_boundary_witness :
  Z.of_nat (length (block_of 10485760)) = 10 * 1024 * 1024
  /\ (handle_command (sized_env 10485760) 2 "alice" "/file bob big.bin;QUJD"
        demo_server).1 = Ok tt
  /\ db_file_transfers
       (handle_command (sized_env 10485760) 2 "alice" "/file bob big.bin;QUJD"
          demo_server).2
     = db_file_transfers demo_server
       ++ [transfer_record (sized_env 10485760) demo_server "big.bin"
             (block_of 10485760) (mkUser 2 "alice") (mkUser 3 "bob")]
  /\ Z.of_nat (length (block_of 10485761)) = 10 * 1024 * 1024 + 1
  /\ db_file_transfers
       (handle_command (sized_env 10485761) 2 "alice" "/file bob big.bin;QUJD"
          demo_server).2
     = db_file_transfers demo_server.
Proof.
  assert (Hlen : forall n, 0 <= n -> Z.of_nat (length (block_of n)) = n).
  { intros n Hn. unfold block_of. rewrite repeat_length. now apply Z2Nat.id. }
  assert (Hbob : user_websockets demo_server !! "bob" = Some 3%nat)
    by (vm_compute; reflexivity).
  destruct (file_size_boundary (sized_env 10485760) demo_server 2 "alice"
              "/file bob big.bin;QUJD" "bob" "big.bin" "qujd"
              (block_of 10485760) 3 eq_refl eq_refl Hbob) as [Hat _].
  destruct (file_size_boundary (sized_env 10485761) demo_server 2 "alice"
              "/file bob big.bin;QUJD" "bob" "big.bin" "qujd"
              (block_of 10485761) 3 eq_refl eq_refl Hbob) as [_ Hover].
  destruct (Hat (Hlen 10485760 ltac:(discriminate))
              (mkUser 2 "alice") (mkUser 3 "bob")) as (H1 & H2 & _);
    [vm_compute; reflexivity | vm_compute; reflexivity | reflexivity |].
  destruct (Hover (Hlen 10485761 ltac:(discriminate))) as [(H3 & _) _].
  split; [apply Hlen; discriminate|].
  split; [exact H1|]. split; [exact H2|].
  split; [apply Hlen; discriminate | exact H3].
Defined.

Lemma file_hash_integrity_witness :
  (exists decoded,
     b64decode live_env "agvsbg8=" = Some decoded
     /\ "478" = sha256_hexdigest live_env decoded
     /\ 5 = Z.of_nat (length decoded))
  /\ (exists c',
        Client.receive_file live_env demo_disk "alice" "notes.txt" 5
          "aGVsbG8=" "0000" (Client.mkClient [] [] [" y "; " n "])
        = Client.Returned c'
        /\ Client.console c'
           = [announcement "alice" "notes.txt" 5; Client.WARNING;
              Client.NOT_SAVED]
        /\ Client.saved c' = [])
  /\ (exists c',
        Client.receive_file live_env demo_disk "alice" "notes.txt" 5
          "aGVsbG8=" "0000" (demo_client "y")
        = Client.Returned c'
        /\ Client.saved c'
           = [("/home/bob/cli_chat_downloads/notes.txt",
               list_ascii_of_string "hello")]).
Proof.
  pose proof (file_hash_integrity live_env "admin" demo_users [] []
                demo_file_events) as [Hinv H].
  split; [|split].
  - assert (Hin : (3%nat, FileEvent "alice" "notes.txt" 5 "agvsbg8=" "478" 1004)
                    ∈ wire (run live_env (new_server "admin" demo_users [] [])
                              demo_file_events)).
    { apply list_elem_of_In. vm_compute.
      repeat (first [left; reflexivity | right]). }
    destruct (Hinv _ _ _ _ _ _ _ Hin) as (decoded & H1 & H2 & H3 & _).
    exists decoded. auto.
  - destruct (H demo_disk "alice" "notes.txt" 5 "aGVsbG8=" "0000"
                (list_ascii_of_string "hello") [" n "]
                (Client.mkClient [] [] [" y "; " n "]) eq_refl
                ltac:(vm_compute; discriminate) eq_refl)
      as (c' & Hret & _ & Hok).
    exists c'. split; [exact Hret|].
    destruct (Hok eq_refl) as (_ & _ & Hno & _).
    apply (Hno "n" [] eq_refl). discriminate.
  - destruct (H demo_disk "alice" "notes.txt" 5 "aGVsbG8=" "0000"
                (list_ascii_of_string "hello") ["y"] (demo_client "y") eq_refl
                ltac:(vm_compute; discriminate) eq_refl)
      as (c' & Hret & _ & Hok).
    exists c'. split; [exact Hret|].
    destruct (Hok eq_refl) as (Hyes & _).
    apply (Hyes [] eq_refl eq_refl).
Defined.

(** C10, as first stated: [Bob] is registered and has an upper-case
    letter, and a whisper addressed to [Bob] is not answered "is not
    online": it is delivered to [bob]. *)
Lemma uppercase_target_reaches_namesake :
  user_websockets demo_server_two_bobs !! "Bob" = Some 4%nat
  /\ user_websockets demo_server_two_bobs !! "bob" = Some 3%nat
  /\ sent_since demo_server_two_bobs
       (handle_command live_env 2 "alice" "/whisper Bob hi"
          demo_server_two_bobs).2
     = [(3%nat, Whisper "alice" "hi" 1004);
        (2%nat, CommandResponse "Whisper sent to bob")].
Proof. repeat split; vm_compute; reflexivity. Qed.

Example arguments_are_folded_example :
  sent_since demo_server
    (handle_command live_env 2 "alice" "/whisper Bob Hi There" demo_server).2
  = [(3%nat, Whisper "alice" "hi there" 1003);
     (2%nat, CommandResponse "Whisper sent to bob")]
  /\ handle_command live_env 2 "alice" "/file Carol notes.txt;QUJD" demo_server
     = send live_env 2 (CommandResponse "User carol is not online.") demo_server.
Proof.
  pose proof (arguments_are_folded live_env demo_server 2 "alice")
    as (_ & _ & Hw & Hf).
  split.
  - destruct (Hw "Bob" "Hi There") as [_ H];
      [reflexivity | reflexivity | discriminate |].
    apply (H 3%nat); [vm_compute; reflexivity | reflexivity | reflexivity].
  - apply (Hf "Carol" "notes.txt;QUJD");
      [reflexivity | reflexivity | discriminate | vm_compute; reflexivity].
Qed.

Lemma command_names_fold_case_witness :
  lacks " " "/WHISPER" = true
  /\ PyStr.lower "/WHISPER" = PyStr.lower "/whisper"
  /\ handle_command live_env 2 "alice" "/WHISPER bob hi" demo_server
     = handle_command live_env 2 "alice" "/whisper bob hi" demo_server
  /\ handle_command live_env 2 "alice" " /Users " demo_server
     = send live_env 2 (CommandResponse "Online users: admin, alice, bob")
         demo_server.
Proof.
  pose proof (command_names_fold_case live_env demo_server 2 "alice")
    as (Hfold & _ & _ & Husers).
  split; [reflexivity|]. split; [reflexivity|]. split.
  - apply (Hfold "/WHISPER" "/whisper" " bob hi"); reflexivity.
  - apply (Husers " /Users "). reflexivity.
Defined.

(** C1, on the server as written: the encrypted envelope and the
    key-exchange marker of a whisper reach the target in lower case, not
    as the sender submitted them. *)
Lemma whisper_payload_is_lowercased :
  sent_since demo_server
    (handle_command live_env 2 "alice" ("/whisper bob " +:+ demo_envelope)
       demo_server).2
  = [(3%nat, Whisper "alice" (PyStr.lower demo_envelope) 1003);
     (2%nat, CommandResponse "Whisper sent to bob")]
  /\ PyStr.lower demo_envelope <> demo_envelope
  /\ PyStr.startswith "[ENCRYPTED]" (PyStr.lower demo_envelope) = false
  /\ sent_since demo_server
       (handle_command live_env 2 "alice" ("/whisper bob " +:+ demo_pubkey)
          demo_server).2
     = [(3%nat, Whisper "alice" "/pubkey -----begin public key-----" 1003);
        (2%nat, CommandResponse "Whisper sent to bob")].
Proof.
  split; [vm_compute; reflexivity|].
  split; [vm_compute; discriminate|].
  split; vm_compute; reflexivity.
Qed.

(** ** The encryption manager *)

Section CFBFacts.

Import Encryption.

Lemma xorb_cancel x y : xorb (xorb x y) y = x.
Proof. destruct x, y; reflexivity. Qed.

Lemma xor_ascii_cancel a b : xor_ascii (xor_ascii a b) b = a.
Proof.
  destruct a, b; simpl. now rewrite !xorb_cancel.
Qed.

Lemma xor_bytes_length a b :
  length (xor_bytes a b) = Nat.min (length a) (length b).
Proof.
  revert b; induction a as [|x a IH]; intros [|y b]; simpl; auto.
Qed.

Lemma xor_bytes_cancel a b :
  (length a <= length b)%nat -> xor_bytes (xor_bytes a b) b = a.
Proof.
  revert b; induction a as [|x a IH]; intros [|y b]; simpl; intros H;
    try reflexivity; try lia.
  rewrite xor_ascii_cancel, IH by lia. reflexivity.
Qed.

(** The first block of [c ++ rest] is [c] when [c] is a full block, or a
    short last one. *)
Lemma split_block (c rest : list ascii) :
  (length c <= 16)%nat -> length c = 16%nat \/ rest = [] ->
  firstn 16 (c ++ rest) = c /\ skipn 16 (c ++ rest) = rest.
Proof.
  intros Hle [H16| ->].
  - rewrite <- H16. split; [apply take_app_length | apply drop_app_length].
  - rewrite app_nil_r. split; [now apply firstn_all2 | now apply skipn_all2].
Qed.

Variable E : list ascii -> list ascii.
Hypothesis E_length : forall x, length (E x) = 16%nat.

Lemma cfb_enc_nil fuel prev : cfb_enc E fuel prev [] = [].
Proof. destruct fuel; reflexivity. Qed.

Lemma cfb_dec_nil fuel prev : cfb_dec E fuel prev [] = [].
Proof. destruct fuel; reflexivity. Qed.

(** One step of either direction: the block produced from the first
    block [b] of the data has the length of [b], and xoring it with the
    key stream again gives [b] back. *)
Lemma block_facts (data : list ascii) prev :
  data <> [] ->
  let b := firstn 16 data in
  let c := xor_bytes b (E prev) in
  (length c <= 16)%nat
  /\ (length c = 16%nat \/ skipn 16 data = [])
  /\ c <> []
  /\ xor_bytes c (E prev) = b
  /\ (length (skipn 16 data) < length data)%nat.
Proof.
  intros Hne b c. subst b c.
  rewrite xor_bytes_length, E_length, length_take.
  assert (0 < length data)%nat by (destruct data; [congruence | simpl; lia]).
  split; [lia|]. split.
  - destruct (Nat.le_gt_cases 16 (length data)); [left; lia|].
    right. apply skipn_all2. lia.
  - split.
    + intros Hnil. apply (f_equal length) in Hnil.
      rewrite xor_bytes_length, E_length, length_take in Hnil.
      cbn [length] in Hnil. lia.
    + split; [apply xor_bytes_cancel; rewrite E_length, length_take; lia|].
      rewrite length_skipn. lia.
Qed.

Lemma cfb_dec_enc fuel1 : forall fuel2 prev data,
  (length data <= fuel1)%nat -> (length data <= fuel2)%nat ->
  cfb_dec E fuel2 prev (cfb_enc E fuel1 prev data) = data.
Proof.
  induction fuel1 as [|f1 IH]; intros fuel2 prev data H1 H2.
  - destruct data; [|simpl in H1; lia]. apply cfb_dec_nil.
  - destruct data as [|x d] eqn:Hd; [apply cfb_dec_nil|]. rewrite <- Hd in *.
    assert (Hne : data <> []) by (subst data; discriminate).
    destruct (block_facts data prev Hne) as (Hle & Hfull & Hc & Hx & Hlt).
    destruct fuel2 as [|f2]; [subst data; simpl in H2; lia|].
    assert (Henc : cfb_enc E (S f1) prev data
                   = xor_bytes (firstn 16 data) (E prev)
                     ++ cfb_enc E f1 (xor_bytes (firstn 16 data) (E prev))
                          (skipn 16 data)).
    { subst data. reflexivity. }
    rewrite Henc. set (c := xor_bytes (firstn 16 data) (E prev)) in *.
    set (rest := cfb_enc E f1 c (skipn 16 data)).
    assert (Hrest : length c = 16%nat \/ rest = []).
    { destruct Hfull as [H|H]; [now left | right].
      subst rest. rewrite H. apply cfb_enc_nil. }
    destruct (split_block c rest Hle Hrest) as [Hf Hs].
    assert (Hdec : cfb_dec E (S f2) prev (c ++ rest)
                   = xor_bytes (firstn 16 (c ++ rest)) (E prev)
                     ++ cfb_dec E f2 (firstn 16 (c ++ rest))
                          (skipn 16 (c ++ rest))).
    { destruct (c ++ rest) eqn:Hcr; [|reflexivity].
      apply app_eq_nil in Hcr as [Hcr _]. contradiction. }
    rewrite Hdec, Hf, Hs, Hx. subst rest. rewrite IH by lia.
    apply firstn_skipn.
Qed.

Lemma cfb_enc_dec fuel1 : forall fuel2 prev data,
  (length data <= fuel1)%nat -> (length data <= fuel2)%nat ->
  cfb_enc E fuel2 prev (cfb_dec E fuel1 prev data) = data.
Proof.
  induction fuel1 as [|f1 IH]; intros fuel2 prev data H1 H2.
  - destruct data; [|simpl in H1; lia]. apply cfb_enc_nil.
  - destruct data as [|x d] eqn:Hd; [apply cfb_enc_nil|]. rewrite <- Hd in *.
    assert (Hne : data <> []) by (subst data; discriminate).
    destruct (block_facts data prev Hne) as (Hle & Hfull & Hc & Hx & Hlt).
    destruct fuel2 as [|f2]; [subst data; simpl in H2; lia|].
    assert (Hdec : cfb_dec E (S f1) prev data
                   = xor_bytes (firstn 16 data) (E prev)
                     ++ cfb_dec E f1 (firstn 16 data) (skipn 16 data)).
    { subst data. reflexivity. }
    rewrite Hdec. set (p := xor_bytes (firstn 16 data) (E prev)) in *.
    set (rest := cfb_dec E f1 (firstn 16 data) (skipn 16 data)).
    assert (Hrest : length p = 16%nat \/ rest = []).
    { destruct Hfull as [H|H]; [now left | right].
      subst rest. rewrite H. apply cfb_dec_nil. }
    destruct (split_block p rest Hle Hrest) as [Hf Hs].
    assert (Henc : cfb_enc E (S f2) prev (p ++ rest)
                   = xor_bytes (firstn 16 (p ++ rest)) (E prev)
                     ++ cfb_enc E f2 (xor_bytes (firstn 16 (p ++ rest)) (E prev))
                          (skipn 16 (p ++ rest))).
    { destruct (p ++ rest) eqn:Hcr; [|reflexivity].
      apply app_eq_nil in Hcr as [Hcr _]. contradiction. }
    rewrite Henc, Hf, Hs, Hx. subst rest. rewrite IH by lia.
    apply firstn_skipn.
Qed.

Lemma cfb_dec_length fuel : forall prev data,
  (length data <= fuel)%nat -> length (cfb_dec E fuel prev data) = length data.
Proof.
  induction fuel as [|f IH]; intros prev data H.
  - destruct data; [reflexivity | simpl in H; lia].
  - destruct data as [|x d] eqn:Hd; [reflexivity|]. rewrite <- Hd in *.
    assert (Hne : data <> []) by (subst data; discriminate).
    destruct (block_facts data prev Hne) as (Hle & Hfull & Hc & Hx & Hlt).
    assert (Hdec : cfb_dec E (S f) prev data
                   = xor_bytes (firstn 16 data) (E prev)
                     ++ cfb_dec E f (firstn 16 data) (skipn 16 data)).
    { subst data. reflexivity. }
    rewrite Hdec, length_app, IH by lia.
    rewrite xor_bytes_length, E_length, length_take, length_skipn. lia.
Qed.

Lemma cfb_enc_length fuel : forall prev data,
  (length data <= fuel)%nat -> length (cfb_enc E fuel prev data) = length data.
Proof.
  induction fuel as [|f IH]; intros prev data H.
  - destruct data; [reflexivity | simpl in H; lia].
  - destruct data as [|x d] eqn:Hd; [reflexivity|]. rewrite <- Hd in *.
    assert (Hne : data <> []) by (subst data; discriminate).
    destruct (block_facts data prev Hne) as (Hle & Hfull & Hc & Hx & Hlt).
    assert (Henc : cfb_enc E (S f) prev data
                   = xor_bytes (firstn 16 data) (E prev)
                     ++ cfb_enc E f (xor_bytes (firstn 16 data) (E prev))
                          (skipn 16 data)).
    { subst data. reflexivity. }
    rewrite Henc, length_app, IH by lia.
    rewrite xor_bytes_length, E_length, length_take, length_skipn. lia.
Qed.

End CFBFacts.

Section ManagerFacts.

Import Encryption.

Variable L : CryptoLib.
Hypothesis laws : CryptoLaws L.

Lemma load_peer_key_draws username m :
  draws L (load_peer_key L username m).2 = draws L m.
Proof.
  unfold load_peer_key. destruct (peer_keys L m !! username); [reflexivity|].
  destruct (peer_files L m !! username); reflexivity.
Qed.

(** The three fields of the envelope built for [message]. *)
Lemma encrypt_fields message recipient m pk pkg m' :
  (load_peer_key L recipient m).1 = Some pk ->
  encrypt_message L message recipient m = (Some pkg, m') ->
  let key := urandom L (draws L m) 32 in
  let iv := urandom L (S (S (draws L m))) 16 in
  field_bytes L pkg "encrypted_key"
  = Some (oaep_encrypt L pk (S (draws L m)) key)
  /\ field_bytes L pkg "iv" = Some iv
  /\ field_bytes L pkg "ciphertext"
     = Some (cfb_encrypt L key iv (utf8_encode L message)).
Proof.
  intros Hpk Henc key iv. unfold encrypt_message in Henc.
  pose proof (load_peer_key_draws recipient m) as Hd.
  destruct (load_peer_key L recipient m) as [[k|] m1]; simpl in Hpk, Hd;
    [|discriminate].
  inversion Hpk; subst k. inversion Henc; subst pkg. clear Henc.
  rewrite Hd. unfold field_bytes.
  rewrite lookup_insert_eq.
  rewrite lookup_insert_ne, lookup_insert_eq by discriminate.
  rewrite !lookup_insert_ne, lookup_insert_eq by discriminate.
  now rewrite !(b64_inverse L laws).
Qed.

Lemma cipher_accepts_drawn d1 d2 :
  cipher_accepts (urandom L d1 32) (urandom L d2 16) = true.
Proof. unfold cipher_accepts. now rewrite !(urandom_length L laws). Qed.

(** Decrypting an envelope whose key and IV fields are those of
    [encrypt_message] and whose ciphertext field holds [ct]. *)
Lemma decrypt_fields receiver sk pkg d seed ct :
  private_key L receiver = Some sk ->
  field_bytes L pkg "encrypted_key"
  = Some (oaep_encrypt L (public_of L sk) seed (urandom L d 32)) ->
  field_bytes L pkg "iv" = Some (urandom L (S (S d)) 16) ->
  field_bytes L pkg "ciphertext" = Some ct ->
  decrypt_message L (Some pkg) receiver
  = utf8_decode L (cfb_decrypt L (urandom L d 32) (urandom L (S (S d)) 16) ct).
Proof.
  intros Hsk Hk Hiv Hct. unfold decrypt_message.
  rewrite Hsk, Hk, Hiv, Hct, (oaep_inverse L laws), cipher_accepts_drawn.
  reflexivity.
Qed.

Lemma with_ciphertext_fields ct pkg :
  field_bytes L (with_ciphertext L ct pkg) "ciphertext" = Some ct
  /\ field_bytes L (with_ciphertext L ct pkg) "encrypted_key"
     = field_bytes L pkg "encrypted_key"
  /\ field_bytes L (with_ciphertext L ct pkg) "iv" = field_bytes L pkg "iv".
Proof.
  unfold field_bytes, with_ciphertext.
  rewrite lookup_insert_eq, !lookup_insert_ne by discriminate.
  now rewrite (b64_inverse L laws).
Qed.

Lemma cfb_decrypt_encrypt key iv data :
  cfb_decrypt L key iv (cfb_encrypt L key iv data) = data.
Proof.
  pose proof (aes_block_length L laws key) as HE.
  unfold cfb_decrypt, cfb_encrypt.
  rewrite cfb_enc_length by auto. now apply cfb_dec_enc.
Qed.

Lemma cfb_encrypt_decrypt key iv data :
  cfb_encrypt L key iv (cfb_decrypt L key iv data) = data.
Proof.
  pose proof (aes_block_length L laws key) as HE.
  unfold cfb_decrypt, cfb_encrypt.
  rewrite cfb_dec_length by auto. now apply cfb_enc_dec.
Qed.

(** The round trip of an envelope, for a text the codec round-trips. *)
Lemma decrypt_encrypt_round_trip sender receiver sk recipient message pkg sender' :
  private_key L receiver = Some sk ->
  (load_peer_key L recipient sender).1 = Some (public_of L sk) ->
  utf8_decode L (utf8_encode L message) = Some message ->
  encrypt_message L message recipient sender = (Some pkg, sender') ->
  decrypt_message L (Some pkg) receiver = Some message.
Proof.
  intros Hsk Hpk Hutf Henc.
  destruct (encrypt_fields message recipient sender _ pkg sender' Hpk Henc)
    as (Hk & Hiv & Hct).
  rewrite (decrypt_fields receiver sk pkg _ _ _ Hsk Hk Hiv Hct).
  now rewrite cfb_decrypt_encrypt.
Qed.

End ManagerFacts.

Section Freshness.

Import Encryption.

Variable L : CryptoLib.
Hypothesis laws : CryptoLaws L.

Lemma encrypt_keeps_peer message recipient m pk pkg m' :
  (load_peer_key L recipient m).1 = Some pk ->
  encrypt_message L message recipient m = (Some pkg, m') ->
  (load_peer_key L recipient m').1 = Some pk
  /\ draws L m' = S (S (S (draws L m))).
Proof.
  intros Hpk Henc. unfold encrypt_message in Henc.
  pose proof (load_peer_key_draws L recipient m) as Hd.
  unfold load_peer_key in *.
  destruct (peer_keys L m !! recipient) as [k|] eqn:Hmem; simpl in *.
  - inversion Hpk; subst k. inversion Henc; subst m'. simpl.
    now rewrite Hmem.
  - destruct (peer_files L m !! recipient) as [k|] eqn:Hfile; simpl in *;
      [|discriminate].
    inversion Hpk; subst k. inversion Henc; subst m'. simpl.
    now rewrite lookup_insert_eq.
Qed.

(** Each call draws its own key and IV: the second of two successive
    calls reads the entropy source three draws further on, and the two
    envelopes differ as soon as the source returns a different key or a
    different IV there. *)
Lemma successive_envelopes message recipient sk m pkg1 m1 pkg2 m2 :
  (load_peer_key L recipient m).1 = Some (public_of L sk) ->
  encrypt_message L message recipient m = (Some pkg1, m1) ->
  encrypt_message L message recipient m1 = (Some pkg2, m2) ->
  draws L m1 = S (S (S (draws L m)))
  /\ (urandom L (draws L m) 32 <> urandom L (draws L m1) 32
      \/ urandom L (S (S (draws L m))) 16 <> urandom L (S (S (draws L m1))) 16 ->
      pkg1 <> pkg2).
Proof.
  intros Hpk H1 H2.
  destruct (encrypt_keeps_peer message recipient m _ pkg1 m1 Hpk H1)
    as [Hpk1 Hd].
  split; [exact Hd|]. intros Hfresh Heq. subst pkg2.
  destruct (encrypt_fields L laws message recipient m _ pkg1 m1 Hpk H1)
    as (Hk & Hiv & _).
  destruct (encrypt_fields L laws message recipient m1 _ pkg1 m2 Hpk1 H2)
    as (Hk' & Hiv' & _).
  rewrite Hk in Hk'. rewrite Hiv in Hiv'.
  inversion Hiv' as [Hiv_eq]. inversion Hk' as [Hk_eq].
  apply (f_equal (oaep_decrypt L sk)) in Hk_eq.
  rewrite !(oaep_inverse L laws) in Hk_eq. inversion Hk_eq as [Hkey].
  destruct Hfresh as [Hf|Hf]; [now apply Hf | now apply Hf].
Qed.

End Freshness.

(** C4 (amended). For an envelope produced by [encrypt_message] for the
    holder of the private key, replacing one byte of the ciphertext never
    makes [decrypt_message] raise and never makes it return the original
    message: the result is the UTF-8 decoding of the CFB decryption of the
    altered bytes, that is [None] when these are not valid UTF-8 and a
    different text otherwise. *)
Theorem tampered_ciphertext_never_original
    (L : Encryption.CryptoLib) sender receiver sk recipient message pkg
    sender' ct (i : nat) (b : ascii) :
  Encryption.CryptoLaws L ->
  Encryption.private_key L receiver = Some sk ->
  (Encryption.load_peer_key L recipient sender).1
  = Some (Encryption.public_of L sk) ->
  Encryption.encrypt_message L message recipient sender = (Some pkg, sender') ->
  Encryption.field_bytes L pkg "ciphertext" = Some ct ->
  (i < length ct)%nat ->
  ct !! i <> Some b ->
  let tampered := Encryption.with_ciphertext L (<[i := b]> ct) pkg in
  let key := Encryption.urandom L (Encryption.draws L sender) 32 in
  let iv := Encryption.urandom L (S (S (Encryption.draws L sender))) 16 in
  Encryption.decrypt_message L (Some tampered) receiver
  = Encryption.utf8_decode L (Encryption.cfb_decrypt L key iv (<[i := b]> ct))
  /\ Encryption.decrypt_message L (Some tampered) receiver <> Some message.
Proof.
  intros laws Hsk Hpk Henc Hct Hi Hb tampered key iv.
  destruct (encrypt_fields L laws message recipient sender _ pkg sender' Hpk Henc)
    as (Hk & Hiv & Hct0).
  destruct (with_ciphertext_fields L laws (<[i := b]> ct) pkg)
    as (Tct & Tk & Tiv).
  rewrite Hk in Tk. rewrite Hiv in Tiv.
  assert (Hdec := decrypt_fields L laws receiver sk tampered _ _ _ Hsk Tk Tiv Tct).
  split; [exact Hdec|].
  rewrite Hdec. intros Hsame.
  apply (Encryption.utf8_strict L laws) in Hsame.
  rewrite Hct in Hct0. inversion Hct0 as [Hct1].
  apply (f_equal (Encryption.cfb_encrypt L key iv)) in Hsame.
  rewrite cfb_encrypt_decrypt in Hsame by exact laws.
  fold key iv in Hct1. rewrite <- Hct1 in Hsame.
  apply Hb. rewrite Hsame at 1. now apply list_lookup_insert_eq.
Qed.

Section Malleability.

Import Encryption.

Lemma xor_ascii_swap a b c :
  xor_ascii (xor_ascii a b) c = xor_ascii (xor_ascii a c) b.
Proof.
  assert (H : forall x y z, xorb (xorb x y) z = xorb (xorb x z) y)
    by (intros [] [] []; reflexivity).
  destruct a, b, c; simpl. f_equal; apply H.
Qed.

Lemma xor_bytes_insert (a k : list ascii) i b x :
  k !! i = Some x -> (i < length a)%nat ->
  xor_bytes (<[i := b]> a) k = <[i := xor_ascii b x]> (xor_bytes a k).
Proof.
  revert k i; induction a as [|y a IH]; intros [|z k] [|i] Hk Hi;
    simpl in *; try discriminate; try lia.
  - now inversion Hk.
  - f_equal. apply IH; [exact Hk | lia].
Qed.

Lemma xor_bytes_lookup (a k : list ascii) i y :
  a !! i = Some y -> (length a <= length k)%nat ->
  exists x, k !! i = Some x /\ xor_bytes a k !! i = Some (xor_ascii y x).
Proof.
  revert k i; induction a as [|z a IH]; intros [|x k] [|i] Ha Hl;
    simpl in *; try discriminate; try lia.
  - inversion Ha; subst. eauto.
  - apply IH; [exact Ha | lia].
Qed.

Variable E : list ascii -> list ascii.
Hypothesis E_length : forall x, length (E x) = 16%nat.

Lemma cfb_enc_single prev data :
  (length data <= 16)%nat ->
  cfb_enc E (length data) prev data = xor_bytes data (E prev).
Proof.
  intros H. destruct data as [|x d]; [reflexivity|].
  cbn [length cfb_enc]. rewrite firstn_all2, skipn_all2 by exact H.
  now rewrite cfb_enc_nil, app_nil_r.
Qed.

Lemma cfb_dec_single prev data :
  (length data <= 16)%nat ->
  cfb_dec E (length data) prev data = xor_bytes data (E prev).
Proof.
  intros H. destruct data as [|x d]; [reflexivity|].
  cbn [length cfb_dec]. rewrite firstn_all2, skipn_all2 by exact H.
  now rewrite cfb_dec_nil, app_nil_r.
Qed.

End Malleability.

(** Whoever relays an envelope can flip chosen bits of a short message:
    xoring byte [i] of the ciphertext with [delta] xors byte [i] of the
    plaintext with [delta], whatever the block cipher. *)
Lemma single_block_bit_flip (L : Encryption.CryptoLib) sender receiver sk
    recipient message pkg sender' (i : nat) (p delta : ascii) :
  Encryption.CryptoLaws L ->
  Encryption.private_key L receiver = Some sk ->
  (Encryption.load_peer_key L recipient sender).1
  = Some (Encryption.public_of L sk) ->
  Encryption.encrypt_message L message recipient sender = (Some pkg, sender') ->
  (length (Encryption.utf8_encode L message) <= 16)%nat ->
  Encryption.utf8_encode L message !! i = Some p ->
  exists ct c,
    Encryption.field_bytes L pkg "ciphertext" = Some ct
    /\ ct !! i = Some c
    /\ Encryption.decrypt_message L
         (Some (Encryption.with_ciphertext L
                  (<[i := Encryption.xor_ascii c delta]> ct) pkg)) receiver
       = Encryption.utf8_decode L
           (<[i := Encryption.xor_ascii p delta]>
              (Encryption.utf8_encode L message)).
Proof.
  intros laws Hsk Hpk Henc Hlen Hp.
  destruct (encrypt_fields L laws message recipient sender _ pkg sender' Hpk Henc)
    as (Hk & Hiv & Hct).
  set (key := Encryption.urandom L (Encryption.draws L sender) 32) in *.
  set (iv := Encryption.urandom L (S (S (Encryption.draws L sender))) 16) in *.
  set (data := Encryption.utf8_encode L message) in *.
  pose proof (Encryption.aes_block_length L laws key) as HE.
  set (ks := Encryption.aes_block L key iv).
  assert (Hks : length ks = 16%nat) by apply HE.
  assert (Hcipher : Encryption.cfb_encrypt L key iv data
                    = Encryption.xor_bytes data ks).
  { unfold Encryption.cfb_encrypt. now apply cfb_enc_single. }
  rewrite Hcipher in Hct.
  destruct (xor_bytes_lookup data ks i p Hp) as (x & Hx & Hc); [lia|].
  exists (Encryption.xor_bytes data ks), (Encryption.xor_ascii p x).
  split; [exact Hct|]. split; [exact Hc|].
  set (ct' := <[i := _]> (Encryption.xor_bytes data ks)).
  destruct (with_ciphertext_fields L laws ct' pkg) as (Tct & Tk & Tiv).
  rewrite Hk in Tk. rewrite Hiv in Tiv.
  rewrite (decrypt_fields L laws receiver sk _ _ _ _ Hsk Tk Tiv Tct).
  f_equal. fold key iv. unfold Encryption.cfb_decrypt.
  assert (Hl' : (length ct' <= 16)%nat).
  { subst ct'. rewrite length_insert, xor_bytes_length. lia. }
  rewrite cfb_dec_single by assumption. fold ks. subst ct'.
  assert (Hi : (i < length data)%nat) by (apply lookup_lt_Some in Hp; exact Hp).
  rewrite (xor_bytes_insert _ ks i _ x Hx)
    by (rewrite xor_bytes_length; lia).
  rewrite xor_bytes_cancel by lia.
  now rewrite xor_ascii_swap, xor_ascii_cancel.
Qed.

Lemma toy_laws : Encryption.CryptoLaws Encryption.toy_lib.
Proof.
  constructor; simpl.
  - intros sk d m. now rewrite Ascii.eqb_refl.
  - intros k x. unfold Encryption.toy_block.
    rewrite length_take, length_app, repeat_length. lia.
  - intros d n. apply repeat_length.
  - intros b. now rewrite list_ascii_of_string_of_list_ascii.
  - intros b t. unfold Encryption.toy_utf8_decode.
    destruct (forallb _ b); [|discriminate]. intros H. inversion H.
    apply list_ascii_of_string_of_list_ascii.
Qed.

(** C4, as first stated: the envelope of ["hello"] with the first
    ciphertext byte changed from [j] to [k] decrypts, without any error,
    to the text ["iello"]. *)
Lemma tampered_envelope_decrypts :
  (Encryption.encrypt_message Encryption.toy_lib "hello" "bob" toy_sender).1
  = Some toy_envelope
  /\ Encryption.decrypt_message Encryption.toy_lib (Some toy_envelope)
       toy_receiver = Some "hello"
  /\ Encryption.field_bytes Encryption.toy_lib toy_envelope "ciphertext"
     = Some (list_ascii_of_string "jgnnm")
  /\ Encryption.decrypt_message Encryption.toy_lib
       (Some (Encryption.with_ciphertext Encryption.toy_lib
                (<[0%nat := "k"%char]> (list_ascii_of_string "jgnnm"))
                toy_envelope))
       toy_receiver
     = Some "iello".
Proof. repeat split; vm_compute; reflexivity. Qed.

Lemma tampered_ciphertext_never_original_witness :
  Encryption.decrypt_message Encryption.toy_lib
    (Some (Encryption.with_ciphertext Encryption.toy_lib
             (<[0%nat := "k"%char]> (list_ascii_of_string "jgnnm"))
             toy_envelope))
    toy_receiver
  <> Some "hello".
Proof.
  apply (tampered_ciphertext_never_original Encryption.toy_lib toy_sender
           toy_receiver 7%nat "bob" "hello" toy_envelope
           (Encryption.encrypt_message Encryption.toy_lib "hello" "bob"
              toy_sender).2
           (list_ascii_of_string "jgnnm") 0%nat "k"%char).
  - exact toy_laws.
  - reflexivity.
  - vm_compute. reflexivity.
  - vm_compute. reflexivity.
  - vm_compute. reflexivity.
  - simpl. lia.
  - simpl. discriminate.
Defined.

(** * Further properties *)

(** ** Plain chat lines *)

Lemma fan_out_sent env frame st st' :
  wire st' = wire st ->
  sent_since st (fan_out env frame (elements (clients st)) st')
  = broadcast_of env frame st.
Proof.
  intros H. apply sent_since_app. unfold fan_out. fields. now rewrite H.
Qed.

(** X1. A line that does not start with [/] is stored as a ["chat"] row
    and broadcast to every live connection with its content exactly as
    received, under the sender's display name; when the sender has no user
    row the handler raises and nothing is stored or sent. *)
Theorem chat_is_relayed_verbatim env st ws username message :
  PyStr.startswith "/" message = false ->
  let r := process_message env ws username message st in
  (forall user, find_user username (db_users st) = Some user ->
     r.1 = Ok tt
     /\ db_messages r.2
        = db_messages st
          ++ [mkMessage (user_id user) message (clock env (S (ticks st))) "chat"]
     /\ sent_since st r.2
        = broadcast_of env
            (Chat (display_name st username) message (clock env (ticks st))) st
     /\ db_file_transfers r.2 = db_file_transfers st
     /\ registry r.2 = registry st)
  /\ (find_user username (db_users st) = None ->
      r.1 = Raise AttributeError
      /\ db_messages r.2 = db_messages st
      /\ sent_since st r.2 = []).
Proof.
  intros Hplain r. subst r. unfold process_message. rewrite Hplain.
  unfold mbind, M_bind, get, now. fields. split.
  - intros user Hu. rewrite Hu. unfold modify.
    rewrite notify_all_fan_out. fields.
    split; [reflexivity|]. split; [reflexivity|].
    split; [|split; reflexivity].
    now apply fan_out_sent.
  - intros Hu. rewrite Hu. unfold raise. fields.
    split; [reflexivity|]. split; [reflexivity|].
    apply sent_since_app. fields. now rewrite app_nil_r.
Qed.

Lemma chat_is_relayed_verbatim_witness :
  sent_since demo_server
    (process_message live_env 1 "admin" "Hello, Bob!" demo_server).2
  = [(2%nat, Chat "*admin" "Hello, Bob!" 1003);
     (3%nat, Chat "*admin" "Hello, Bob!" 1003);
     (1%nat, Chat "*admin" "Hello, Bob!" 1003)].
Proof.
  destruct (chat_is_relayed_verbatim live_env demo_server 1 "admin"
              "Hello, Bob!" eq_refl) as [H _].
  destruct (H (mkUser 1 "admin")) as (_ & _ & Hs & _).
  - vm_compute. reflexivity.
  - rewrite Hs. vm_compute. reflexivity.
Defined.

(** ** What a command leaves alone *)

Lemma preserves_at {A} (P : ChatServer -> Prop) (m : M A) st :
  preserves P m -> P st -> P (m st).2.
Proof. intros H. apply H. Qed.

(** Steps through a handler for a property that is kept, up to
    computation, by every update the handler reaches. *)
Ltac kept := solve [intros; match goal with H : _ |- _ => exact H end].

Ltac keep env :=
  repeat first
    [ apply preserves_ret | apply preserves_get | apply preserves_raise
    | apply (preserves_send_if env); kept
    | apply (preserves_now env); kept
    | apply preserves_logger; kept
    | apply (preserves_notify_all env); [kept | kept | exact I]
    | apply (preserves_notify_user_if env); [kept | kept]
    | apply preserves_modify; kept
    | apply preserves_bind; [|intros ?]
    | apply preserves_try; [|intros ?]
    | match goal with
      | |- preserves _ (match ?x with _ => _ end) =>
          destruct x eqn:?; try congruence
      end ].

(** X2. No command line changes the session registry or the user table;
    the message table is changed only by [/clear] from the moderator
    name, and the transfer table only by [/file]. *)
Theorem commands_leave_tables_alone env st ws username command :
  let cmd := PyStr.lower (PyStr.strip command) in
  let r := handle_command env ws username command st in
  registry r.2 = registry st
  /\ (cmd <> "/clear" \/ username <> moderator_username st ->
      db_messages r.2 = db_messages st)
  /\ (PyStr.startswith "/file " cmd = false ->
      db_file_transfers r.2 = db_file_transfers st).
Proof.
  intros cmd r. subst r. split; [|split].
  - apply (preserves_at (fun s => registry s = registry st)); [|reflexivity].
    unfold handle_command, file_transfer, file_transfer_except, ws_close.
    keep env.
  - intros Hnot. unfold handle_command, file_transfer, file_transfer_except,
      ws_close. fold cmd.
    destruct (String.eqb cmd "/users");
      [apply (preserves_at (fun s => db_messages s = db_messages st));
         [keep env | reflexivity]|].
    destruct (String.eqb cmd "/clear") eqn:Ec.
    + unfold mbind, M_bind, get.
      destruct (String.eqb username (moderator_username st)) eqn:Eu.
      * apply String.eqb_eq in Ec, Eu. tauto.
      * apply (preserves_at (fun s => db_messages s = db_messages st));
          [keep env | reflexivity].
    + apply (preserves_at (fun s => db_messages s = db_messages st));
        [keep env | reflexivity].
  - intros Hnot.
    apply (preserves_at (fun s => db_file_transfers s = db_file_transfers st));
      [|reflexivity].
    unfold handle_command, file_transfer_except, ws_close. fold cmd.
    keep env.
Qed.

Lemma commands_leave_tables_alone_witness :
  db_messages (handle_command live_env 2 "alice" "/clear" demo_chat).2
  = db_messages demo_chat
  /\ db_file_transfers
       (handle_command live_env 2 "alice" "/whisper bob hi" demo_chat).2
     = db_file_transfers demo_chat.
Proof.
  split.
  - apply (commands_leave_tables_alone live_env demo_chat 2 "alice" "/clear").
    right. vm_compute. discriminate.
  - apply (commands_leave_tables_alone live_env demo_chat 2 "alice"
             "/whisper bob hi").
    reflexivity.
Defined.

(** ** Malformed command lines *)

Lemma split_lacks sep s n : lacks sep s = true -> PyStr.split sep s n = [s].
Proof.
  revert n; induction s as [|c s IH]; intros n H; [reflexivity|].
  simpl in H. apply andb_true_iff in H as [Hc H]. apply negb_true_iff in Hc.
  destruct n as [|n]; [reflexivity|]. simpl. now rewrite Hc, (IH (S n) H).
Qed.

(** The normal form of [verb target], and its two parts. *)
Lemma normal_two_parts verb target :
  lstripped verb -> verb <> EmptyString ->
  lacks " " verb = true -> lacks " " target = true ->
  PyStr.rstrip target = target -> target <> EmptyString ->
  let line := verb +:+ " " +:+ target in
  PyStr.lower (PyStr.strip line) = PyStr.lower verb +:+ " " +:+ PyStr.lower target
  /\ PyStr.split " " (PyStr.lower (PyStr.strip line)) 2
     = [PyStr.lower verb; PyStr.lower target].
Proof.
  intros Hv Hne Hlv Hlt Hr Hnt line.
  assert (Hstrip : PyStr.strip line = line).
  { unfold PyStr.strip. rewrite lstrip_fixed.
    - subst line. rewrite <- (app_assoc_string verb).
      now apply rstrip_app_fixed.
    - subst line. destruct verb; [congruence | exact Hv]. }
  rewrite Hstrip. subst line. rewrite !lower_app.
  change (PyStr.lower " ") with " ". split; [reflexivity|].
  change (" " +:+ PyStr.lower target) with (String " " (PyStr.lower target)).
  rewrite split_first by now rewrite lacks_lower_space.
  rewrite split_lacks by now rewrite lacks_lower_space.
  reflexivity.
Qed.

(** X3. A line whose normal form is none of [/users], [/clear], [/quit],
    [/exit] and does not start with [/whisper ], [/w ] or [/file ] is
    answered "Unknown command" to the caller alone, with nothing stored.
    This includes a bare [/whisper], [/w] or [/file] in any case and with
    any white space around it: the blank that the prefix test needs has
    been stripped. *)
Theorem unknown_command_reply env st ws username command :
  let cmd := PyStr.lower (PyStr.strip command) in
  (cmd <> "/users" -> cmd <> "/clear" -> cmd <> "/quit" -> cmd <> "/exit" ->
   PyStr.startswith "/whisper " cmd = false ->
   PyStr.startswith "/w " cmd = false ->
   PyStr.startswith "/file " cmd = false ->
   refused_with env ws UNKNOWN_COMMAND st
     (handle_command env ws username command st))
  /\ (cmd = "/whisper" \/ cmd = "/w" \/ cmd = "/file" ->
      refused_with env ws UNKNOWN_COMMAND st
        (handle_command env ws username command st)).
Proof.
  intros cmd.
  assert (Hgen : cmd <> "/users" -> cmd <> "/clear" -> cmd <> "/quit" ->
                 cmd <> "/exit" ->
                 PyStr.startswith "/whisper " cmd = false ->
                 PyStr.startswith "/w " cmd = false ->
                 PyStr.startswith "/file " cmd = false ->
                 refused_with env ws UNKNOWN_COMMAND st
                   (handle_command env ws username command st)).
  { intros H1 H2 H3 H4 H5 H6 H7. unfold handle_command. fold cmd.
    rewrite (proj2 (String.eqb_neq _ _) H1), (proj2 (String.eqb_neq _ _) H2),
      (proj2 (String.eqb_neq _ _) H3), (proj2 (String.eqb_neq _ _) H4),
      H5, H6, H7.
    apply refused_send. }
  split; [exact Hgen|].
  intros [H|[H|H]]; apply Hgen; rewrite H; solve [discriminate | reflexivity].
Qed.

Lemma unknown_command_reply_witness :
  refused_with live_env 2 UNKNOWN_COMMAND demo_server
    (handle_command live_env 2 "alice" "/Whisper  " demo_server)
  /\ refused_with live_env 2 UNKNOWN_COMMAND demo_server
       (handle_command live_env 2 "alice" "/help me" demo_server).
Proof.
  split.
  - apply (proj2 (unknown_command_reply live_env demo_server 2 "alice"
                    "/Whisper  ")).
    left. reflexivity.
  - apply (proj1 (unknown_command_reply live_env demo_server 2 "alice"
                    "/help me")); solve [discriminate | reflexivity].
Defined.

(** X4. A [/whisper], [/w] or [/file] line (the verb in any case) with a
    single argument is answered with the usage text of the command, to the
    caller alone and with nothing stored, whether or not the argument is a
    registered name. *)
Theorem one_argument_gets_usage env st ws username verb target :
  lacks " " target = true ->
  PyStr.rstrip target = target -> target <> EmptyString ->
  let r := handle_command env ws username (verb +:+ " " +:+ target) st in
  (PyStr.lower verb = "/whisper" \/ PyStr.lower verb = "/w" ->
   refused_with env ws USAGE_WHISPER st r)
  /\ (PyStr.lower verb = "/file" -> refused_with env ws USAGE_FILE st r).
Proof.
  intros Hlt Hr Hnt r. subst r.
  assert (Hparts : forall v, PyStr.lower verb = v ->
            v = "/whisper" \/ v = "/w" \/ v = "/file" ->
            PyStr.lower (PyStr.strip (verb +:+ " " +:+ target))
            = v +:+ " " +:+ PyStr.lower target
            /\ PyStr.split " "
                 (PyStr.lower (PyStr.strip (verb +:+ " " +:+ target))) 2
               = [v; PyStr.lower target]).
  { intros v Hv Hcases. rewrite <- Hv.
    apply normal_two_parts; try assumption.
    - destruct verb as [|c verb]; [exact I|]. simpl in Hv |- *.
      rewrite <- isspace_lower_char.
      destruct Hcases as [-> | [-> | ->]]; inversion Hv as [[Hc Hrest]];
        rewrite Hc; reflexivity.
    - intros ->. destruct Hcases as [-> | [-> | ->]]; discriminate.
    - rewrite <- lacks_lower_space, Hv.
      destruct Hcases as [-> | [-> | ->]]; reflexivity. }
  split.
  - intros Hv. unfold handle_command.
    destruct Hv as [Hv|Hv];
      (destruct (Hparts _ Hv) as [Hn Hs]; [tauto|]); rewrite Hs, Hn.
    + change ("/whisper" +:+ " " +:+ PyStr.lower target)
        with (String "/" (String "w" (String "h" (String "i" (String "s"
               (String "p" (String "e" (String "r" (String " "
                 (PyStr.lower target)))))))))).
      cbn [String.eqb Ascii.eqb Bool.eqb PyStr.startswith orb andb].
      apply refused_send.
    + change ("/w" +:+ " " +:+ PyStr.lower target)
        with (String "/" (String "w" (String " " (PyStr.lower target)))).
      cbn [String.eqb Ascii.eqb Bool.eqb PyStr.startswith orb andb].
      apply refused_send.
  - intros Hv. destruct (Hparts _ Hv) as [Hn Hs]; [tauto|].
    rewrite handle_file_branch by (rewrite Hn; reflexivity).
    rewrite Hs. apply refused_send.
Qed.

Lemma one_argument_gets_usage_witness :
  refused_with live_env 2 USAGE_WHISPER demo_server
    (handle_command live_env 2 "alice" "/W bob" demo_server)
  /\ refused_with live_env 2 USAGE_FILE demo_server
       (handle_command live_env 2 "alice" "/file carol" demo_server).
Proof.
  split.
  - apply (proj1 (one_argument_gets_usage live_env demo_server 2 "alice" "/W"
                    "bob" eq_refl eq_refl ltac:(discriminate))).
    right. reflexivity.
  - apply (proj2 (one_argument_gets_usage live_env demo_server 2 "alice"
                    "/file" "carol" eq_refl eq_refl ltac:(discriminate))).
    reflexivity.
Defined.

(** ** Whispers *)

(** X5. A whisper to a registered name is confirmed to the sender whether
    or not it could be delivered: when the send to the target's connection
    raises, nothing reaches the target, the failure is only logged, and
    the sender still reads "Whisper sent to".  Whispers are never stored,
    so they never appear in a history replay.  The frame carries the text
    as the router normalised it. *)
Theorem whisper_is_confirmed_regardless env st ws username target text tws :
  lacks " " target = true ->
  PyStr.rstrip text = text -> text <> EmptyString ->
  user_websockets st !! PyStr.lower target = Some tws ->
  send_fails env ws = false ->
  let r := handle_command env ws username
             ("/whisper " +:+ target +:+ " " +:+ text) st in
  let confirmation :=
    (ws, CommandResponse ("Whisper sent to " +:+ PyStr.lower target)) in
  r.1 = Ok tt
  /\ db_messages r.2 = db_messages st
  /\ (send_fails env tws = false ->
      sent_since st r.2
      = [(tws, Whisper username (PyStr.lower text) (clock env (ticks st)));
         confirmation]
      /\ log r.2 = log st)
  /\ (send_fails env tws = true ->
      sent_since st r.2 = [confirmation]
      /\ log r.2
         = log st ++ ["Error sending message to " +:+ PyStr.lower target]).
Proof.
  intros Hlt Hr Hnt Htws Hlive r confirmation. subst r confirmation.
  rewrite handle_whisper by assumption. rewrite Htws.
  unfold notify_user, now, send, try_except, logger_error, raise, modify,
    mbind, M_bind, get, mret, M_ret.
  fields. rewrite Htws, Hlive.
  destruct (send_fails env tws); fields.
  - do 2 (split; [reflexivity|]). split; [discriminate|]. intros _.
    split; [|reflexivity]. apply sent_since_app. now fields.
  - do 2 (split; [reflexivity|]). split; [|discriminate]. intros _.
    split; [|reflexivity]. apply sent_since_app. fields.
    now rewrite <- app_assoc.
Qed.

Lemma whisper_is_confirmed_regardless_witness :
  let r := handle_command one_down_env 3 "bob" "/whisper alice Hello" demo_server in
  r.1 = Ok tt
  /\ sent_since demo_server r.2
     = [(3%nat, CommandResponse "Whisper sent to alice")]
  /\ log r.2 = log demo_server ++ ["Error sending message to alice"].
Proof.
  destruct (whisper_is_confirmed_regardless one_down_env demo_server 3 "bob"
              "alice" "Hello" 2 eq_refl eq_refl ltac:(discriminate)
              ltac:(vm_compute; reflexivity) eq_refl)
    as (H1 & _ & _ & H4).
  destruct (H4 eq_refl) as [H5 H6].
  split; [exact H1|]. split; [exact H5 | exact H6].
Defined.

(** ** The end of a session *)

(** What the [finally] block does besides the registry fields of
    [cleanup_registry]. *)
Lemma cleanup_effects env ws st :
  let r := cleanup env ws st in
  closed r.2 = closed st
  /\ db_users r.2 = db_users st
  /\ db_file_transfers r.2 = db_file_transfers st
  /\ moderator_username r.2 = moderator_username st
  /\ match dict_get ws (online_users st) with
     | Some u =>
         user_websockets r.2 = delete u (user_websockets st)
         /\ wire r.2
            = wire st ++ map (fun c => (c, leave_notice st u))
                           (live env (elements (clients st ∖ {[ws]})))
         /\ db_messages r.2
            = match find_user u (db_users st) with
              | Some user => db_messages st ++ [leave_row env st user]
              | None => db_messages st
              end
     | None =>
         user_websockets r.2 = user_websockets st
         /\ wire r.2 = wire st
         /\ db_messages r.2 = db_messages st
     end.
Proof.
  unfold cleanup, mbind, M_bind, modify, get, mret, M_ret, live, leave_notice,
    leave_row, display_name. fields.
  destruct (dict_get ws (online_users st)) as [u|] eqn:Hget.
  - destruct (find_user u (db_users st)) as [user|]; unfold now;
      rewrite notify_all_fan_out; unfold fan_out; fields;
      (destruct (moderator_ws st) as [m|] eqn:Hm; [destruct (Nat.eqb ws m)|]);
      fields; rewrite ?Hm; repeat (split; [reflexivity|]); try reflexivity.
  - fields.
    destruct (moderator_ws st) as [m|] eqn:Hm; [destruct (Nat.eqb ws m)|];
      fields; rewrite ?Hm; repeat (split; [reflexivity|]); try reflexivity.
Qed.

Lemma elem_of_live env c l :
  c ∈ live env l <-> c ∈ l /\ send_fails env c = false.
Proof.
  unfold live. rewrite elem_of_filter_bool, negb_true_iff. reflexivity.
Qed.

(** X6. When the session of a registered connection ends, the leave
    notice goes to every other live connection and to no one else (the
    leaving connection has been discarded before the broadcast); the name
    loses its connection link; and a ["leave"] row is stored when the
    user's row exists.  For a connection that never registered nothing
    is sent and nothing is stored. *)
Theorem departure_is_announced_to_the_others env st ws :
  let r := cleanup env ws st in
  (forall username,
     dict_get ws (online_users st) = Some username ->
     (forall c f, (c, f) ∈ sent_since st r.2
                  <-> c ∈ clients st /\ c <> ws /\ send_fails env c = false
                      /\ f = leave_notice st username)
     /\ user_websockets r.2 !! username = None
     /\ (forall user, find_user username (db_users st) = Some user ->
           db_messages r.2 = db_messages st ++ [leave_row env st user])
     /\ (find_user username (db_users st) = None ->
           db_messages r.2 = db_messages st))
  /\ (dict_get ws (online_users st) = None ->
      sent_since st r.2 = [] /\ db_messages r.2 = db_messages st
      /\ user_websockets r.2 = user_websockets st).
Proof.
  intros r. subst r.
  destruct (cleanup_effects env ws st) as (_ & _ & _ & _ & H). split.
  - intros username Hget. rewrite Hget in H. destruct H as (Hu & Hw & Hm).
    split; [|split; [|split]].
    + intros c f. rewrite (sent_since_app _ _ _ Hw).
      rewrite list_elem_of_fmap. split.
      * intros (c' & Heq & Hin). inversion Heq; subst c' f.
        apply elem_of_live in Hin as [Hin Hlive].
        apply elem_of_elements, elem_of_difference in Hin as [Hin Hne].
        rewrite elem_of_singleton in Hne. auto.
      * intros (Hin & Hne & Hlive & ->). exists c. split; [reflexivity|].
        apply elem_of_live. split; [|exact Hlive].
        apply elem_of_elements, elem_of_difference.
        rewrite elem_of_singleton. auto.
    + rewrite Hu. apply lookup_delete_eq.
    + intros user Hfind. now rewrite Hm, Hfind.
    + intros Hfind. now rewrite Hm, Hfind.
  - intros Hget. rewrite Hget in H. destruct H as (Hu & Hw & Hm).
    split; [|split]; [|exact Hm | exact Hu].
    apply sent_since_app. now rewrite app_nil_r.
Qed.

Lemma departure_is_announced_to_the_others_witness :
  let r := cleanup live_env 3 demo_server in
  (1%nat, Notification "bob" "left the chat.") ∈ sent_since demo_server r.2
  /\ (forall f, (3%nat, f) ∉ sent_since demo_server r.2)
  /\ user_websockets r.2 !! "bob" = None.
Proof.
  destruct (departure_is_announced_to_the_others live_env demo_server 3)
    as [H _].
  destruct (H "bob" eq_refl) as (Hs & Hu & _).
  split; [|split; [|exact Hu]].
  - apply Hs. split; [|split; [discriminate | split; reflexivity]].
    refine (bool_decide_unpack _ _). vm_compute. exact I.
  - intros f Hin. apply Hs in Hin as (_ & Hne & _). now apply Hne.
Defined.

Lemma dict_get_values {V} k (v : V) d :
  dict_get k d = Some v -> v ∈ List.map snd d.
Proof.
  induction d as [|[k' v'] d IH]; simpl; [discriminate|].
  destruct (Nat.eqb k k').
  - intros [= ->]. apply list_elem_of_here.
  - intros H. apply list_elem_of_further, IH, H.
Qed.

(** X7. A name may be logged in on two connections at once.  When either
    of them ends, the other stays registered and listed, but the name's
    one connection link is deleted: from then on whispers (and files) to
    the name are refused as "not online" although the name is listed by
    [/users]. *)
Theorem closing_one_of_two_sessions env st a b username :
  dict_get a (online_users st) = Some username ->
  dict_get b (online_users st) = Some username ->
  a <> b ->
  let st' := (cleanup env a st).2 in
  dict_get b (online_users st') = Some username
  /\ username ∈ List.map snd (online_users st')
  /\ user_websockets st' !! username = None
  /\ (PyStr.lower username = username -> lacks " " username = true ->
      forall c sender text,
        PyStr.rstrip text = text -> text <> EmptyString ->
        handle_command env c sender
          ("/whisper " +:+ username +:+ " " +:+ text) st'
        = send env c
            (CommandResponse ("User " +:+ username +:+ " is not online."))
            st').
Proof.
  intros Ha Hb Hne st'. subst st'.
  destruct (cleanup_registry env a st) as (_ & Hon & _).
  destruct (cleanup_effects env a st) as (_ & _ & _ & _ & H).
  rewrite Ha in H. destruct H as (Hu & _).
  assert (Hb' : dict_get b (online_users (cleanup env a st).2) = Some username).
  { rewrite Hon, dict_get_pop_ne by congruence. exact Hb. }
  assert (Hoff : user_websockets (cleanup env a st).2 !! username = None).
  { rewrite Hu. apply lookup_delete_eq. }
  split; [exact Hb'|]. split; [exact (dict_get_values _ _ _ Hb')|].
  split; [exact Hoff|].
  intros Hlow Hlt c sender text Hr Hnt.
  rewrite handle_whisper by assumption. now rewrite Hlow, Hoff.
Qed.

Lemma closing_one_of_two_sessions_witness :
  let st' := (cleanup live_env 5 demo_two_alices).2 in
  dict_get 2 (online_users st') = Some "alice"
  /\ user_websockets st' !! "alice" = None
  /\ handle_command live_env 3 "bob" "/whisper alice hello" st'
     = send live_env 3 (CommandResponse "User alice is not online.") st'.
Proof.
  destruct (closing_one_of_two_sessions live_env demo_two_alices 5 2 "alice"
              eq_refl eq_refl ltac:(discriminate)) as (H1 & _ & H3 & H4).
  split; [exact H1|]. split; [exact H3|].
  exact (H4 eq_refl eq_refl 3%nat "bob" "hello" eq_refl ltac:(discriminate)).
Defined.

(** X8. A rejected login leaves no trace: the connection receives the
    negative authentication response (when it is still live) and is
    discarded again; the registry, the user table, the message table and
    the transfer table are as before, and nobody else is notified. *)
Theorem rejected_login_leaves_no_trace env st ws message :
  ws ∉ clients st ->
  dict_get ws (online_users st) = None ->
  registry_inv st ->
  let r := open_session env ws (AuthRejected message) st in
  r.1 = Ok tt
  /\ registry r.2 = registry st
  /\ db_messages r.2 = db_messages st
  /\ db_file_transfers r.2 = db_file_transfers st
  /\ sent_since st r.2
     = (if send_fails env ws then [] else [(ws, AuthResponse false message)]).
Proof.
  intros Hfresh Hget [_ Hmod] r. subst r.
  assert (Hnm : forall st1, moderator_ws st1 = moderator_ws st ->
                            is_moderator st1 ws = false).
  { intros st1 Hst1. unfold is_moderator. rewrite Hst1.
    destruct (moderator_ws st) as [m|] eqn:Hm; [|reflexivity].
    apply Nat.eqb_neq. intros ->.
    destruct (Hmod m eq_refl) as [u Hu]. congruence. }
  assert (Hclients : ({[ws]} ∪ clients st) ∖ {[ws]} = clients st).
  { apply set_eq. intros x.
    rewrite elem_of_difference, elem_of_union, !elem_of_singleton.
    split; [tauto|]. intros Hx. split; [now right|]. now intros ->. }
  assert (Hgen : forall st1,
            clients st1 = {[ws]} ∪ clients st ->
            online_users st1 = online_users st ->
            user_websockets st1 = user_websockets st ->
            moderator_ws st1 = moderator_ws st ->
            moderator_disconnect_event st1 = moderator_disconnect_event st ->
            db_users st1 = db_users st ->
            db_messages st1 = db_messages st ->
            db_file_transfers st1 = db_file_transfers st ->
            let r := cleanup env ws st1 in
            r.1 = Ok tt /\ registry r.2 = registry st
            /\ db_messages r.2 = db_messages st
            /\ db_file_transfers r.2 = db_file_transfers st
            /\ wire r.2 = wire st1).
  { intros st1 E1 E2 E3 E4 E5 E6 E7 E8 r. subst r.
    destruct (cleanup_registry env ws st1) as (R1 & R2 & R3 & R4 & R5).
    destruct (cleanup_effects env ws st1) as (_ & F2 & F3 & _ & F).
    rewrite E2, Hget in F. destruct F as (F5 & F6 & F7).
    split; [exact R1|]. unfold registry.
    rewrite R2, R3, R4, R5, F2, F3, F5, F7, (Hnm st1 E4), E1, E2, E3, E4, E5,
      E6, E7, E8, Hclients, (dict_pop_absent _ _ Hget).
    auto. }
  unfold open_session, try_except, send, on_exception, raise, modify,
    mbind, M_bind, mret, M_ret.
  destruct (send_fails env ws); fields.
  - destruct (Hgen (set_clients (fun c => {[ws]} ∪ c) st))
      as (G1 & G2 & G3 & G4 & G5); try reflexivity.
    split; [exact G1|]. do 3 (split; [assumption|]).
    apply sent_since_app. rewrite G5. fields. now rewrite app_nil_r.
  - destruct (Hgen (set_wire (fun w => w ++ [(ws, AuthResponse false message)])
                      (set_clients (fun c => {[ws]} ∪ c) st)))
      as (G1 & G2 & G3 & G4 & G5); try reflexivity.
    destruct (cleanup env ws _) as [[[]|e] st2] eqn:E; simpl in *;
      [|discriminate].
    split; [reflexivity|]. do 3 (split; [assumption|]).
    apply sent_since_app. now rewrite G5.
Qed.

Lemma rejected_login_leaves_no_trace_witness :
  let r := open_session live_env 7 (AuthRejected "Invalid credentials")
             demo_server in
  registry r.2 = registry demo_server
  /\ sent_since demo_server r.2
     = [(7%nat, AuthResponse false "Invalid credentials")].
Proof.
  assert (H7 : 7%nat ∉ clients demo_server).
  { refine (bool_decide_unpack _ _). vm_compute. exact I. }
  destruct (rejected_login_leaves_no_trace live_env demo_server 7
              "Invalid credentials" H7 eq_refl
              (run_inv live_env _ _ (new_server_inv "admin" demo_users [] [])))
    as (_ & H2 & _ & _ & H5).
  split; [exact H2 | exact H5].
Defined.

Lemma handle_quit env ws username command :
  PyStr.lower (PyStr.strip command) = "/quit"
  \/ PyStr.lower (PyStr.strip command) = "/exit" ->
  handle_command env ws username command
  = (send env ws (CommandResponse "Disconnecting...") ;; ws_close ws).
Proof. unfold handle_command. intros [-> | ->]; reflexivity. Qed.

(** X9. [/quit] and [/exit] (in any case, with trailing white space): the
    caller is told "Disconnecting...", its connection is closed, and the
    session ends as on a disconnect: the connection is discarded, the
    name loses its link, the others receive the leave notice, and when
    the connection held the moderator role the shutdown event is set. *)
Theorem quit_ends_the_session env st ws username command :
  PyStr.startswith "/" command = true ->
  PyStr.lower (PyStr.strip command) = "/quit"
  \/ PyStr.lower (PyStr.strip command) = "/exit" ->
  dict_get ws (online_users st) = Some username ->
  send_fails env ws = false ->
  let r := receive env ws command st in
  r.1 = Ok tt
  /\ closed r.2 = closed st ++ [ws]
  /\ sent_since st r.2
     = (ws, CommandResponse "Disconnecting...")
       :: map (fun c => (c, leave_notice st username))
              (live env (elements (clients st ∖ {[ws]})))
  /\ (ws ∉ clients r.2)
  /\ user_websockets r.2 !! username = None
  /\ moderator_disconnect_event r.2
     = (is_moderator st ws || moderator_disconnect_event st).
Proof.
  intros Hslash Hcmd Hget Hlive r. subst r.
  set (st2 := set_closed (fun c => c ++ [ws])
                (set_wire (fun w => w ++ [(ws, CommandResponse "Disconnecting...")])
                   st)).
  assert (Hrun : receive env ws command st = cleanup env ws st2).
  { unfold receive, process_message, mbind, M_bind, get. rewrite Hget, Hslash.
    rewrite (handle_quit env ws username command Hcmd).
    unfold try_except, send, ws_close, modify, mbind, M_bind. rewrite Hlive.
    fold st2. cbn [fst snd].
    assert (Hc : existsb (Nat.eqb ws) (closed st2) = true).
    { subst st2. fields. rewrite existsb_app. simpl.
      now rewrite Nat.eqb_refl, orb_true_r. }
    rewrite Hc.
    destruct (cleanup_registry env ws st2) as (R1 & _).
    destruct (cleanup env ws st2) as [[[]|e] st3]; [reflexivity|discriminate]. }
  rewrite Hrun.
  destruct (cleanup_registry env ws st2) as (R1 & _ & _ & R4 & R5).
  destruct (cleanup_effects env ws st2) as (F1 & _ & _ & _ & F).
  change (online_users st2) with (online_users st) in F.
  rewrite Hget in F. destruct F as (F5 & F6 & _).
  split; [exact R1|]. split; [exact F1|]. split; [|split; [|split]].
  - apply sent_since_app. rewrite F6. subst st2. fields.
    now rewrite <- app_assoc.
  - rewrite R5. rewrite elem_of_difference, elem_of_singleton. tauto.
  - rewrite F5. apply lookup_delete_eq.
  - exact R4.
Qed.

Lemma quit_ends_the_session_witness :
  let r := receive live_env 1 "/QUIT " demo_server in
  closed r.2 = closed demo_server ++ [1%nat]
  /\ user_websockets r.2 !! "admin" = None
  /\ moderator_disconnect_event r.2 = true.
Proof.
  destruct (quit_ends_the_session live_env demo_server 1 "admin" "/QUIT "
              eq_refl (or_introl eq_refl) eq_refl eq_refl)
    as (_ & H2 & _ & _ & H5 & H6).
  split; [exact H2|]. split; [exact H5 | exact H6].
Defined.

(** ** The history replay *)

Section History.

Open Scope Z_scope.

Lemma insert_desc_perm m l : insert_desc m l ≡ₚ m :: l.
Proof.
  induction l as [|x l IH]; simpl; [reflexivity|].
  destruct (msg_timestamp x <? msg_timestamp m); [reflexivity|].
  rewrite IH. apply Permutation_swap.
Qed.

Lemma insert_desc_sorted m l : descending l -> descending (insert_desc m l).
Proof.
  induction l as [|x l IH]; simpl; [auto|]. intros [Hx Hl].
  destruct (msg_timestamp x <? msg_timestamp m) eqn:E.
  - apply Z.ltb_lt in E. simpl. split; [|auto].
    apply Forall_cons. split; [lia|].
    eapply Forall_impl; [exact Hx|]. simpl. intros; lia.
  - apply Z.ltb_ge in E. simpl. split; [|auto].
    rewrite insert_desc_perm. apply Forall_cons. auto.
Qed.

Lemma order_by_fold l acc :
  fold_left (fun acc m => insert_desc m acc) l acc ≡ₚ l ++ acc
  /\ (descending acc ->
      descending (fold_left (fun acc m => insert_desc m acc) l acc)).
Proof.
  revert acc; induction l as [|m l IH]; intros acc; simpl; [auto|].
  destruct (IH (insert_desc m acc)) as [Hp Hs]. split.
  - rewrite Hp, insert_desc_perm. symmetry. apply Permutation_middle.
  - intros Ha. apply Hs, insert_desc_sorted, Ha.
Qed.

Lemma order_by_perm l : order_by_timestamp_desc l ≡ₚ l.
Proof.
  unfold order_by_timestamp_desc.
  rewrite (proj1 (order_by_fold l [])). now rewrite app_nil_r.
Qed.

Lemma order_by_sorted l : descending (order_by_timestamp_desc l).
Proof. apply (proj2 (order_by_fold l [])). exact I. Qed.

Lemma descending_app a b :
  descending (a ++ b)
  <-> descending a /\ descending b
      /\ forall x y, x ∈ a -> y ∈ b -> msg_timestamp y <= msg_timestamp x.
Proof.
  induction a as [|m a IH]; simpl.
  - split; [intros H; repeat split; auto; intros x y Hx; inversion Hx | tauto].
  - rewrite IH, Forall_app, !Forall_forall. split.
    + intros ((Ha & Hb) & Hda & Hdb & Hab). repeat split; auto.
      intros x y Hx Hy. apply elem_of_cons in Hx as [->|Hx]; auto.
    + intros ((Ha & Hda) & Hdb & Hab). repeat split; auto.
      * intros y Hy. apply Hab; [apply list_elem_of_here | exact Hy].
      * intros x y Hx Hy. apply Hab; [now apply list_elem_of_further | exact Hy].
Qed.

Lemma ascending_rev l : descending l -> ascending (rev l).
Proof.
  induction l as [|m l IH]; simpl; [auto|]. intros [Hm Hl].
  specialize (IH Hl). revert IH.
  assert (Hall : Forall (fun m' => msg_timestamp m' <= msg_timestamp m) (rev l)).
  { apply Forall_forall. intros x Hx. rewrite Forall_forall in Hm.
    apply Hm. apply list_elem_of_In, in_rev. now apply list_elem_of_In. }
  revert Hall. generalize (rev l). clear. intros r.
  induction r as [|x r IH]; simpl; intros Hall Hr.
  - split; [apply Forall_nil_2 | exact I].
  - apply Forall_cons in Hall as [Hx Hall]. destruct Hr as [Hxr Hr].
    split; [|now apply IH]. apply Forall_app. split; [exact Hxr|].
    apply Forall_cons. split; [exact Hx | apply Forall_nil_2].
Qed.

Lemma ascending_lookup l i j a b :
  ascending l -> (i < j)%nat -> l !! i = Some a -> l !! j = Some b ->
  msg_timestamp a <= msg_timestamp b.
Proof.
  revert i j; induction l as [|m l IH]; intros i j Hasc Hij Hi Hj;
    [discriminate|].
  destruct Hasc as [Hm Hl]. destruct j as [|j]; [lia|]. destruct i as [|i].
  - injection Hi as <-. rewrite Forall_forall in Hm. apply Hm.
    simpl in Hj. eapply list_elem_of_lookup_2, Hj.
  - simpl in Hi, Hj. apply (IH i j); auto. lia.
Qed.

Lemma set_wire_nil st : set_wire (fun w => w ++ []) st = st.
Proof. destruct st. unfold set_wire. simpl. now rewrite app_nil_r. Qed.

Lemma set_wire_app a b st :
  set_wire (fun w => w ++ b) (set_wire (fun w => w ++ a) st)
  = set_wire (fun w => w ++ a ++ b) st.
Proof. unfold set_wire. simpl. now rewrite app_assoc. Qed.

Lemma send_live env ws frame st :
  send_fails env ws = false ->
  send env ws frame st = (Ok tt, set_wire (fun w => w ++ [(ws, frame)]) st).
Proof. intros H. unfold send. now rewrite H. Qed.

(** The loop of [send_message_history] on a live connection. *)
Lemma replay_loop env ws st0 rows st :
  send_fails env ws = false ->
  for_each (fun msg =>
    match find_user_by_id (msg_user_id msg) (db_users st0) with
    | None => mret tt
    | Some user =>
        send env ws (HistoryItem (msg_type msg)
                       (display_name st0 (user_username user))
                       (msg_content msg) (msg_timestamp msg))
    end) rows st
  = (Ok tt, set_wire (fun w => w ++ history_frames ws st0 rows) st).
Proof.
  intros Hlive. revert st. induction rows as [|m rows IH]; intros st.
  - simpl. now rewrite set_wire_nil.
  - cbn [for_each history_frames flat_map]. unfold mbind, M_bind.
    destruct (find_user_by_id (msg_user_id m) (db_users st0)) as [user|].
    + rewrite (send_live env ws _ st Hlive), IH.
      unfold history_frames. now rewrite set_wire_app.
    + unfold mret, M_ret. rewrite IH. reflexivity.
Qed.

(** X10. The history replay to a live connection sends one frame per
    selected row whose user still exists, in order, and changes nothing
    else.  The selected rows are at most 100, all of type chat or
    notification, oldest first; a row of those types that is not selected
    is no newer than any selected row; and when the table holds at most
    100 such rows, all of them are selected. *)
Theorem history_replay env st ws :
  let rows := history_rows st in
  (send_fails env ws = false ->
   send_message_history env ws st
   = (Ok tt, set_wire (fun w => w ++ history_frames ws st rows) st))
  /\ (length rows <= 100)%nat
  /\ (forall i j a b, (i < j)%nat -> rows !! i = Some a -> rows !! j = Some b ->
        (msg_timestamp a <= msg_timestamp b)%Z)
  /\ (forall m, m ∈ rows -> m ∈ db_messages st /\ is_history_type m = true)
  /\ (forall m m', m ∈ rows -> m' ∈ db_messages st ->
        is_history_type m' = true -> m' ∉ rows ->
        (msg_timestamp m' <= msg_timestamp m)%Z)
  /\ ((length (List.filter is_history_type (db_messages st)) <= 100)%nat ->
      rows ≡ₚ List.filter is_history_type (db_messages st)).
Proof.
  intros rows. subst rows. unfold history_rows.
  set (sorted := order_by_timestamp_desc
                   (List.filter is_history_type (db_messages st))).
  assert (Hperm : sorted ≡ₚ List.filter is_history_type (db_messages st))
    by apply order_by_perm.
  assert (Hsorted : descending sorted) by apply order_by_sorted.
  assert (Hin : forall m, m ∈ rev (firstn 100 sorted) <-> m ∈ firstn 100 sorted).
  { intros m. rewrite !list_elem_of_In. symmetry. apply in_rev. }
  rewrite <- (firstn_skipn 100 sorted) in Hsorted.
  apply descending_app in Hsorted as (Hd1 & _ & Hcross).
  split; [|split; [|split; [|split; [|split]]]].
  - intros Hlive. unfold send_message_history, mbind, M_bind, get.
    cbn [fst snd]. fold sorted. apply (replay_loop env ws st _ st Hlive).
  - rewrite length_rev, length_firstn. lia.
  - intros i j a b. apply ascending_lookup, ascending_rev, Hd1.
  - intros m Hm. apply Hin in Hm.
    assert (Hs : m ∈ sorted).
    { rewrite <- (firstn_skipn 100 sorted). apply elem_of_app. now left. }
    rewrite Hperm in Hs. now apply elem_of_filter_bool in Hs.
  - intros m m' Hm Hm' Hty Hout. apply Hin in Hm.
    assert (Hs : m' ∈ sorted).
    { rewrite Hperm. apply elem_of_filter_bool. auto. }
    rewrite <- (firstn_skipn 100 sorted) in Hs.
    apply elem_of_app in Hs as [Hs|Hs].
    + exfalso. apply Hout, Hin, Hs.
    + now apply Hcross.
  - intros Hlen. rewrite <- Hperm.
    rewrite firstn_all2 by (rewrite Hperm; exact Hlen).
    symmetry. apply Permutation_rev.
Qed.

Lemma history_rows_in st m :
  m ∈ history_rows st -> m ∈ db_messages st /\ is_history_type m = true.
Proof.
  unfold history_rows. intros Hm.
  apply list_elem_of_In, in_rev, list_elem_of_In in Hm.
  assert (Hs : m ∈ order_by_timestamp_desc
                     (List.filter is_history_type (db_messages st))).
  { rewrite <- (firstn_skipn 100 (order_by_timestamp_desc _)).
    apply elem_of_app. now left. }
  rewrite order_by_perm in Hs. now apply elem_of_filter_bool in Hs.
Qed.

Lemma history_frames_in ws st rows c ty u content t :
  (c, HistoryItem ty u content t) ∈ history_frames ws st rows ->
  exists m, m ∈ rows /\ ty = msg_type m /\ content = msg_content m
            /\ t = msg_timestamp m /\ c = ws.
Proof.
  unfold history_frames. rewrite list_elem_of_In, in_flat_map.
  intros (m & Hm & Hin). exists m. rewrite list_elem_of_In. split; [exact Hm|].
  destruct (find_user_by_id _ _); [|destruct Hin].
  destruct Hin as [Heq|[]]. now inversion Heq.
Qed.

(** X11. After a [/clear] from the moderator name, a history replay
    carries no message older than the clear point: every selected row was
    in the table before, is stamped at or after the clear point, and so
    is every frame replayed to a connection that joins afterwards. *)
Theorem clear_hides_older_history env st ws command user :
  PyStr.lower (PyStr.strip command) = "/clear" ->
  find_user (moderator_username st) (db_users st) = Some user ->
  let r := handle_command env ws (moderator_username st) command st in
  let clear_point := clock env (ticks st) in
  (forall m, m ∈ history_rows r.2 ->
             m ∈ db_messages st /\ clear_point <= msg_timestamp m)
  /\ (forall joiner c ty u content t,
        (c, HistoryItem ty u content t)
          ∈ history_frames joiner r.2 (history_rows r.2) ->
        clear_point <= t).
Proof.
  intros Hcmd Huser r clear_point. subst r.
  rewrite (clear_by_moderator env st ws command user Hcmd Huser).
  cbn [snd].
  assert (Hrows : forall m, m ∈ history_rows (cleared env user st) ->
            m ∈ db_messages st /\ clear_point <= msg_timestamp m).
  { intros m Hm. apply history_rows_in in Hm as [Hin Hty].
    unfold cleared, fan_out in Hin. fields.
    apply elem_of_app in Hin as [Hin|Hin].
    - apply elem_of_filter_bool in Hin as [Hin Hkeep]. split; [exact Hin|].
      unfold cleared_by in Hkeep. rewrite Hty, andb_true_r in Hkeep.
      apply negb_true_iff, Z.ltb_ge in Hkeep. exact Hkeep.
    - apply list_elem_of_singleton in Hin. subst m. discriminate. }
  split; [exact Hrows|].
  intros joiner c ty u content t Hin.
  apply history_frames_in in Hin as (m & Hm & _ & _ & -> & _).
  now apply Hrows.
Qed.

Lemma clear_hides_older_history_witness :
  history_rows (handle_command live_env 1 "admin" "/clear" demo_chat).2 = [].
Proof.
  destruct (clear_hides_older_history live_env demo_chat 1 "/clear"
              (mkUser 1 "admin") eq_refl eq_refl) as [H _].
  destruct (history_rows _) as [|m l] eqn:E; [reflexivity|].
  exfalso. destruct (H m (list_elem_of_here _ _)) as [Hin Hts].
  assert (Hold : Forall (fun m => msg_timestamp m < 1007) (db_messages demo_chat)).
  { vm_compute. repeat constructor. }
  rewrite Forall_forall in Hold. specialize (Hold m Hin).
  change (clock live_env (ticks demo_chat)) with 1007 in Hts. lia.
Defined.

End History.

Lemma history_replay_witness :
  send_message_history live_env 9 demo_chat
  = (Ok tt,
     set_wire (fun w => w ++ [(9%nat, HistoryItem "chat" "alice" "hello" 1004);
                              (9%nat, HistoryItem "chat" "bob" "hi alice" 1006)])
       demo_chat).
Proof.
  assert (E : history_frames 9 demo_chat (history_rows demo_chat)
              = [(9%nat, HistoryItem "chat" "alice" "hello" 1004);
                 (9%nat, HistoryItem "chat" "bob" "hi alice" 1006)])
    by (vm_compute; reflexivity).
  rewrite <- E. exact (proj1 (history_replay live_env demo_chat 9) eq_refl).
Defined.

(** ** What a replay can contain *)

Lemma preserves_notify_all_if env (P : ChatServer -> Prop) frame :
  (forall c st, P st -> P (set_wire (fun w => w ++ [(c, frame)]) st)) ->
  (forall f st, P st -> P (set_log f st)) ->
  preserves P (notify_all env frame).
Proof.
  intros Hw Hl st H. unfold notify_all. simpl.
  generalize (elements (clients st)). intros l.
  revert st H. induction l as [|c l IH]; intros st H; simpl; [exact H|].
  apply IH. unfold gather_one.
  destruct (send_fails env c); [now apply Hl | now apply Hw].
Qed.

(** On a connection that is down the replay loop changes nothing. *)
Lemma replay_loop_down env ws st0 rows st :
  send_fails env ws = true ->
  (for_each (fun msg =>
     match find_user_by_id (msg_user_id msg) (db_users st0) with
     | None => mret tt
     | Some user =>
         send env ws (HistoryItem (msg_type msg)
                        (display_name st0 (user_username user))
                        (msg_content msg) (msg_timestamp msg))
     end) rows st).2 = st.
Proof.
  intros Hdown. induction rows as [|m rows IH]; [reflexivity|].
  cbn [for_each]. unfold mbind, M_bind.
  destruct (find_user_by_id (msg_user_id m) (db_users st0)) as [user|].
  - unfold send at 1. now rewrite Hdown.
  - exact IH.
Qed.

Lemma history_is_chat_replay env ws :
  preserves history_is_chat (send_message_history env ws).
Proof.
  intros st [Hrows Hwire].
  destruct (send_fails env ws) eqn:Hlive.
  - unfold send_message_history, mbind, M_bind, get. cbn [fst snd].
    rewrite (replay_loop_down env ws st _ st Hlive). now split.
  - unfold send_message_history, mbind, M_bind, get. cbn [fst snd].
    rewrite (replay_loop env ws st _ st Hlive). fold (history_rows st).
    split; [exact Hrows|]. intros c ty u content t Hin. fields.
    apply elem_of_app in Hin as [Hin|Hin]; [eauto|].
    apply history_frames_in in Hin as (m & Hm & -> & _).
    apply history_rows_in in Hm as [Hm Hty]. unfold is_history_type in Hty.
    apply orb_true_iff in Hty as [Hty|Hty]; apply String.eqb_eq in Hty;
      [exact Hty | now apply Hrows in Hm].
Qed.

(** Discharges the side conditions of [history_is_chat] for one update. *)
Ltac chat_kept :=
  let m := fresh "m" in
  let Hin := fresh "Hin" in
  solve
    [ intros;
      match goal with
      | H : history_is_chat _ |- _ => destruct H as [?Hrows ?Hwire]
      end;
      split;
      [ intros m Hin; fields;
        try (apply elem_of_app in Hin as [Hin|Hin];
             [ try (apply elem_of_filter_bool in Hin as [Hin _])
             | apply list_elem_of_singleton in Hin; subst m; discriminate ]);
        eauto
      | intros ? ? ? ? ? Hin; fields;
        try (apply elem_of_app in Hin as [Hin|Hin];
             [ | apply list_elem_of_singleton in Hin; inversion Hin ]);
        eauto ] ].

Ltac keep_chat env :=
  repeat first
    [ apply preserves_ret | apply preserves_get | apply preserves_raise
    | apply history_is_chat_replay
    | apply (preserves_send_if env); chat_kept
    | apply (preserves_now env); chat_kept
    | apply preserves_logger; chat_kept
    | apply (preserves_notify_all_if env); [chat_kept | chat_kept]
    | apply (preserves_notify_user_if env); [chat_kept | chat_kept]
    | apply preserves_modify; chat_kept
    | apply preserves_bind; [|intros ?]
    | apply preserves_try; [|intros ?]
    | match goal with
      | |- preserves _ (match ?x with _ => _ end) => destruct x eqn:?
      end
    | match goal with
      | |- preserves _ (if ?x then _ else _) => destruct x eqn:?
      end ].

Lemma history_is_chat_cleanup env ws : preserves history_is_chat (cleanup env ws).
Proof. unfold cleanup. keep_chat env. Qed.

Lemma history_is_chat_step env st ev :
  history_is_chat st -> history_is_chat (step env st ev).
Proof.
  destruct ev as [ws auth|ws message|ws]; simpl.
  - apply (preserves_at history_is_chat (open_session env ws auth)).
    unfold open_session, on_exception, register, announce_join.
    keep_chat env; apply history_is_chat_cleanup.
  - apply (preserves_at history_is_chat (receive env ws message)).
    unfold receive, on_exception, process_message, handle_command,
      file_transfer, file_transfer_except, ws_close.
    keep_chat env; apply history_is_chat_cleanup.
  - apply (preserves_at history_is_chat (cleanup env ws)).
    apply history_is_chat_cleanup.
Qed.

(** X12. On a server whose message table starts without rows of type
    notification, no such row is ever stored (the server writes rows of
    type chat, join, leave and clear only), and every frame of every
    history replay has the type chat: joins, departures and clear notices
    are broadcast live but never replayed. *)
Theorem replays_are_chat_only env moderator users messages transfers evs :
  (forall m, m ∈ messages -> msg_type m <> "notification") ->
  let st := run env (new_server moderator users messages transfers) evs in
  (forall m, m ∈ db_messages st -> msg_type m <> "notification")
  /\ forall c ty u content t,
       (c, HistoryItem ty u content t) ∈ wire st -> ty = "chat".
Proof.
  intros Hstart st.
  assert (H0 : history_is_chat (new_server moderator users messages transfers)).
  { split; [exact Hstart|]. intros c ty u content t Hin. inversion Hin. }
  subst st. revert H0. generalize (new_server moderator users messages transfers).
  induction evs as [|ev evs IH]; intros st H; [exact H|].
  simpl. apply IH, history_is_chat_step, H.
Qed.

Lemma replays_are_chat_only_witness :
  let st := run live_env
              (new_server "admin" demo_users
                 [mkMessage 2 "old news" 900 "chat";
                  mkMessage 3 "joined the chat." 901 "join"] [])
              [Connect 2 (AuthAccepted "alice"); Receive 2 "hello";
               Connect 3 (AuthAccepted "bob")] in
  (forall m, m ∈ db_messages st -> msg_type m <> "notification")
  /\ forall c ty u content t,
       (c, HistoryItem ty u content t) ∈ wire st -> ty = "chat".
Proof.
  apply (replays_are_chat_only live_env "admin" demo_users
           [mkMessage 2 "old news" 900 "chat";
            mkMessage 3 "joined the chat." 901 "join"] []
           [Connect 2 (AuthAccepted "alice"); Receive 2 "hello";
            Connect 3 (AuthAccepted "bob")]).
  intros m Hin. apply elem_of_cons in Hin as [->|Hin]; [discriminate|].
  apply list_elem_of_singleton in Hin as ->. discriminate.
Defined.

(** ** The client's file receiver *)

(** X13. The client's file branch writes a file only after the user
    accepted the offer at the first prompt (an answer is stripped before
    it is compared; an empty answer takes the default).  When the input
    ends at that prompt the end-of-file error leaves the handler after
    the announcement.  Otherwise the handler returns: a declined offer
    prints "File not saved." and writes nothing; an accepted offer prints
    the error line and writes nothing when the downloads directory
    cannot be made, when the payload does not decode, or when the file
    cannot be written; an accepted offer whose payload has the advertised
    digest is otherwise written, as the decoded bytes, without any
    warning. *)
Theorem receiver_saves_only_on_consent env disk username filename size data
    hash c :
  let out := Client.receive_file env disk username filename size data hash c in
  let first := Client.prompt_ask ["y"; "n"] "y" (Client.answers c) in
  let path := download_path disk filename in
  let ann := announcement username filename size in
  (first = None ->
   exists c', out = Client.EOFError c'
              /\ Client.console c' = Client.console c ++ [ann]
              /\ Client.saved c' = Client.saved c)
  /\ (forall save rest, first = Some (save, rest) ->
      exists c',
        out = Client.Returned c'
        /\ let said line := Client.console c' = Client.console c ++ [ann; line] in
           (save <> "y" ->
            said Client.NOT_SAVED /\ Client.saved c' = Client.saved c)
           /\ (save = "y" ->
               Client.makedirs_fails disk (downloads_dir disk) = true ->
               said Client.SAVE_ERROR /\ Client.saved c' = Client.saved c)
           /\ (save = "y" ->
               Client.makedirs_fails disk (downloads_dir disk) = false ->
               b64decode env data = None ->
               said Client.SAVE_ERROR /\ Client.saved c' = Client.saved c)
           /\ (save = "y" ->
               Client.makedirs_fails disk (downloads_dir disk) = false ->
               forall decoded,
                 b64decode env data = Some decoded ->
                 sha256_hexdigest env decoded = hash ->
                 (Client.open_fails disk path = false ->
                  said ("File saved to " +:+ path)
                  /\ Client.saved c' = Client.saved c ++ [(path, decoded)])
                 /\ (Client.open_fails disk path = true ->
                     said Client.SAVE_ERROR
                     /\ Client.saved c' = Client.saved c))).
Proof.
  intros out first path ann. subst out first path ann.
  rewrite receive_file_eq. cbv zeta. split.
  - intros ->. eexists. split; [reflexivity|]. auto.
  - intros save rest ->. eexists. split; [reflexivity|].
    split; [|split; [|split]].
    + intros Hno. rewrite (proj2 (String.eqb_neq _ _) Hno).
      unfold Client.print. cbn [Client.console Client.saved].
      rewrite <- app_assoc. auto.
    + intros -> ->. change (String.eqb "y" "y") with true. cbv iota.
      unfold Client.print. cbn [Client.console Client.saved].
      rewrite <- app_assoc. auto.
    + intros -> -> ->. change (String.eqb "y" "y") with true. cbv iota.
      unfold Client.print. cbn [Client.console Client.saved].
      rewrite <- app_assoc. auto.
    + intros -> -> decoded -> Hhash. change (String.eqb "y" "y") with true.
      cbv iota. rewrite (proj2 (String.eqb_eq _ _) Hhash).
      unfold Client.save_to.
      split; intros ->; unfold Client.print, Client.write_file;
        cbn [Client.console Client.saved]; rewrite <- app_assoc; auto.
Qed.

Lemma receiver_saves_only_on_consent_witness :
  exists c',
    Client.receive_file live_env demo_disk "alice" "notes.txt" 5 "aGVsbG8="
      "532" (Client.mkClient [] [] ["maybe"; " n "; "y"])
    = Client.Returned c'
    /\ Client.console c'
       = [announcement "alice" "notes.txt" 5; Client.NOT_SAVED]
    /\ Client.saved c' = [].
Proof.
  destruct (proj2 (receiver_saves_only_on_consent live_env demo_disk "alice"
                     "notes.txt" 5 "aGVsbG8=" "532"
                     (Client.mkClient [] [] ["maybe"; " n "; "y"]))
              "n" ["y"] eq_refl) as (c' & Hret & Hno & _).
  exists c'. split; [exact Hret|]. apply Hno. discriminate.
Defined.

(** X14. A file event that the server delivered is never flagged by the
    receiver: in every state a new server reaches, the payload of each
    delivered file event decodes, has the advertised size, and passes the
    client's digest check.  So whenever the user answers the first
    prompt, the handler returns after the announcement and one more line,
    which is not the integrity warning, and the second prompt is not
    asked; a receiver that accepts the offer and can write the file saves
    the decoded bytes.  The check therefore only guards the hop between
    the server and the receiver. *)
Theorem relayed_files_pass_the_check env moderator users messages transfers
    evs ws u fn n d h t disk c :
  (ws, FileEvent u fn n d h t)
    ∈ wire (run env (new_server moderator users messages transfers) evs) ->
  exists decoded,
    b64decode env d = Some decoded
    /\ n = Z.of_nat (length decoded)
    /\ forall save rest,
         Client.prompt_ask ["y"; "n"] "y" (Client.answers c)
         = Some (save, rest) ->
         exists c' line,
           Client.display_message env disk (FileEvent u fn n d h t) c
           = Client.Returned c'
           /\ Client.console c'
              = Client.console c ++ [announcement u fn n; line]
           /\ line <> Client.WARNING
           /\ Client.answers c' = rest
           /\ (save = "y" ->
               Client.makedirs_fails disk (downloads_dir disk) = false ->
               Client.open_fails disk (download_path disk fn) = false ->
               line = "File saved to " +:+ download_path disk fn
               /\ Client.saved c'
                  = Client.saved c ++ [(download_path disk fn, decoded)]).
Proof.
  intros Hin.
  assert (Hinv : file_inv env
            (run env (new_server moderator users messages transfers) evs)).
  { apply run_integrity. intros c0 u0 fn0 n0 d0 h0 t0 H0. inversion H0. }
  destruct (Hinv _ _ _ _ _ _ _ Hin) as (decoded & Hdec & Hh & Hn & _).
  exists decoded. split; [exact Hdec|]. split; [exact Hn|].
  intros save rest Hsave.
  cbn [Client.display_message]. rewrite receive_file_eq. cbv zeta.
  rewrite Hsave, Hdec, (proj2 (String.eqb_eq _ _) (eq_sym Hh)).
  unfold Client.save_to.
  destruct (String.eqb save "y") eqn:Hy;
    [apply String.eqb_eq in Hy; subst save;
     destruct (Client.makedirs_fails disk _);
       [|destruct (Client.open_fails disk _)]|];
    unfold Client.print, Client.write_file;
    cbn [Client.console Client.saved Client.answers];
    eexists; eexists; (split; [reflexivity|]);
    cbn [Client.console Client.saved Client.answers];
    rewrite <- app_assoc; (split; [reflexivity|]);
    (split;
       [unfold Client.SAVE_ERROR, Client.NOT_SAVED, Client.WARNING;
        discriminate|]);
    (split; [reflexivity|]);
    try (intros _ _ _; split; reflexivity);
    try (intros _ ? ?; discriminate);
    try (intros ? ?; discriminate).
  intros ->. discriminate.
Qed.

Lemma relayed_files_pass_the_check_witness :
  exists c',
    Client.display_message live_env demo_disk
      (FileEvent "alice" "notes.txt" 5 "agvsbg8=" "478" 1004)
      (Client.mkClient [] [] [" y "; "n"])
    = Client.Returned c'
    /\ Client.console c'
       = [announcement "alice" "notes.txt" 5;
          "File saved to /home/bob/cli_chat_downloads/notes.txt"]
    /\ Client.answers c' = ["n"].
Proof.
  assert (Hin : (3%nat, FileEvent "alice" "notes.txt" 5 "agvsbg8=" "478" 1004)
                  ∈ wire (run live_env (new_server "admin" demo_users [] [])
                            demo_file_events)).
  { apply list_elem_of_In. vm_compute.
    repeat (first [left; reflexivity | right]). }
  destruct (relayed_files_pass_the_check live_env "admin" demo_users [] []
              demo_file_events 3 "alice" "notes.txt" 5 "agvsbg8=" "478" 1004
              demo_disk (Client.mkClient [] [] [" y "; "n"]) Hin)
    as (decoded & _ & _ & Hsave).
  destruct (Hsave "y" ["n"] eq_refl)
    as (c' & line & Hret & Hcon & _ & Hans & Hyes).
  exists c'. split; [exact Hret|].
  destruct (Hyes eq_refl eq_refl eq_refl) as [Hline _].
  split; [|exact Hans]. rewrite Hcon, Hline. reflexivity.
Defined.

(** ** Peer keys *)

Section BytesFacts.

Import PyBytes.

Lemma upper_app a b : upper (a +:+ b) = upper a +:+ upper b.
Proof. induction a as [|c a IH]; [reflexivity|]. rewrite !app_cons. simpl. now rewrite IH. Qed.

Lemma take_drop_string n s : s = take n s +:+ PyStr.drop n s.
Proof.
  revert s; induction n as [|n IH]; intros s; [reflexivity|].
  destruct s as [|c s]; [reflexivity|]. simpl.
  rewrite app_cons. now rewrite <- IH.
Qed.

Lemma upper_take n s : upper (take n s) = take n (upper s).
Proof.
  revert s; induction n as [|n IH]; intros [|c s]; simpl; try reflexivity.
  now rewrite IH.
Qed.

Lemma upper_drop n s : upper (PyStr.drop n s) = PyStr.drop n (upper s).
Proof.
  revert s; induction n as [|n IH]; intros [|c s]; simpl; try reflexivity.
  apply IH.
Qed.

Lemma lower_take n s : PyStr.lower (take n s) = take n (PyStr.lower s).
Proof.
  revert s; induction n as [|n IH]; intros [|c s]; simpl; try reflexivity.
  now rewrite IH.
Qed.

Lemma lower_drop n s : PyStr.lower (PyStr.drop n s) = PyStr.drop n (PyStr.lower s).
Proof.
  revert s; induction n as [|n IH]; intros [|c s]; simpl; try reflexivity.
  apply IH.
Qed.

Lemma pydrop_drop n k s : PyStr.drop n (PyStr.drop k s) = PyStr.drop (k + n) s.
Proof.
  revert s; induction k as [|k IH]; intros s; [reflexivity|].
  destruct s as [|c s]; simpl; [now destruct n | apply IH].
Qed.

Lemma startswith_drop p s :
  PyStr.startswith p s = true -> s = p +:+ PyStr.drop (String.length p) s.
Proof.
  revert s; induction p as [|a p IH]; intros s H; [reflexivity|].
  destruct s as [|b s]; [discriminate|]. simpl in H.
  apply andb_true_iff in H as [Hab H]. apply Ascii.eqb_eq in Hab as ->.
  rewrite app_cons. simpl. now rewrite <- (IH s H).
Qed.

Lemma startswith_upper p s :
  PyStr.startswith p s = true ->
  PyStr.startswith (upper p) (upper s) = true.
Proof.
  revert s; induction p as [|a p IH]; intros s H; [reflexivity|].
  destruct s as [|b s]; [discriminate|]. simpl in H |- *.
  apply andb_true_iff in H as [Hab H]. apply Ascii.eqb_eq in Hab as ->.
  now rewrite Ascii.eqb_refl, (IH s H).
Qed.

Lemma startswith_take p s n :
  PyStr.startswith p s = true -> (String.length p <= n)%nat ->
  PyStr.startswith p (take n s) = true.
Proof.
  revert s n; induction p as [|a p IH]; intros s n H Hn; [reflexivity|].
  destruct s as [|b s]; [discriminate|]. simpl in H, Hn.
  destruct n as [|n]; [lia|]. simpl.
  apply andb_true_iff in H as [Hab H]. rewrite Hab. simpl.
  apply IH; [exact H | lia].
Qed.

(** [find] returns -1 or the position of an occurrence. *)
Lemma find_from_spec sub s i :
  0 <= i ->
  find_from sub s i = -1
  \/ (i <= find_from sub s i
      /\ PyStr.startswith sub
           (PyStr.drop (Z.to_nat (find_from sub s i - i)) s) = true).
Proof.
  revert i; induction s as [|c s IH]; intros i Hi; simpl.
  - destruct (PyStr.startswith sub EmptyString) eqn:E; [|now left].
    right. rewrite Z.sub_diag. simpl. split; [lia | exact E].
  - destruct (PyStr.startswith sub (String c s)) eqn:E.
    + right. rewrite Z.sub_diag. simpl. split; [lia | exact E].
    + destruct (IH (i + 1) ltac:(lia)) as [H|[Hle H]]; [now left | right].
      split; [lia|].
      replace (Z.to_nat (find_from sub s (i + 1) - i))
        with (S (Z.to_nat (find_from sub s (i + 1) - (i + 1)))) by lia.
      exact H.
Qed.

Lemma startswith_find sub s :
  PyStr.startswith sub s = true -> find sub s = 0.
Proof. unfold find. destruct s; simpl; now intros ->. Qed.

(** A replacement that only changes the case of letters is invisible
    after [upper]. *)
Lemma upper_replace old new :
  upper old = upper new ->
  forall fuel s, upper (replace_fuel fuel old new s) = upper s.
Proof.
  intros Heq. induction fuel as [|f IH]; intros s; [reflexivity|].
  cbn [replace_fuel]. destruct (PyStr.startswith old s) eqn:E.
  - rewrite upper_app, IH, <- Heq, <- upper_app.
    now rewrite <- (startswith_drop old s E).
  - destruct s as [|c s]; [reflexivity|]. simpl. now rewrite IH.
Qed.

End BytesFacts.

Section PemRepair.

Import PyBytes.

Lemma startswith_lower p s :
  PyStr.startswith p s = true ->
  PyStr.startswith (PyStr.lower p) (PyStr.lower s) = true.
Proof.
  revert s; induction p as [|a p IH]; intros s H; [reflexivity|].
  destruct s as [|b s]; [discriminate|]. simpl in H |- *.
  apply andb_true_iff in H as [Hab H]. apply Ascii.eqb_eq in Hab as ->.
  now rewrite Ascii.eqb_refl, (IH s H).
Qed.

Lemma startswith_same_length a b s :
  PyStr.startswith a s = true -> PyStr.startswith b s = true ->
  String.length a = String.length b -> a = b.
Proof.
  revert b s; induction a as [|x a IH]; intros [|y b] [|c s] Ha Hb Hlen;
    try discriminate; try reflexivity.
  simpl in *. apply andb_true_iff in Ha as [Hx Ha].
  apply andb_true_iff in Hb as [Hy Hb].
  apply Ascii.eqb_eq in Hx as ->. apply Ascii.eqb_eq in Hy as ->.
  f_equal. apply (IH b s Ha Hb). lia.
Qed.

Lemma contains_prefix s :
  PyStr.startswith PEM_BEGIN s = true ->
  contains PEM_BEGIN (upper s) = true.
Proof.
  intros H. apply startswith_upper in H.
  change (upper PEM_BEGIN) with PEM_BEGIN in H.
  unfold contains. now rewrite (startswith_find _ _ H).
Qed.

(** The end marker cannot begin one byte after the begin marker. *)
Lemma markers_apart t :
  PyStr.startswith PEM_BEGIN t = true ->
  PyStr.startswith PEM_END (PyStr.drop 1 t) = false.
Proof.
  unfold PEM_BEGIN, PEM_END. intros H.
  do 6 (destruct t as [|? t];
        [cbn [PyStr.startswith] in H; rewrite ?andb_false_r in H;
         discriminate|]).
  cbn [PyStr.startswith] in H.
  repeat (apply andb_true_iff in H as [?Hc H]).
  repeat match goal with
         | Hc : Ascii.eqb _ _ = true |- _ => apply Ascii.eqb_eq in Hc; subst
         end.
  reflexivity.
Qed.

(** The two outcomes of the repair: the text as it is, or a slice of it. *)
Lemma repair_pem_cases pem p :
  repair_pem pem = Some p ->
  exists start n,
    p = take n (PyStr.drop start pem)
    /\ PyStr.startswith PEM_BEGIN (upper p) = true.
Proof.
  unfold repair_pem. destruct (PyStr.startswith PEM_BEGIN pem) eqn:Hs;
    cbn [negb].
  - intros [= <-]. exists 0%nat, (String.length pem). split.
    + clear. induction pem as [|c s IH]; [reflexivity|]. simpl in *.
      now rewrite <- IH.
    + apply startswith_upper in Hs. exact Hs.
  - destruct (contains PEM_BEGIN (upper pem)) eqn:Hc.
    + destruct (find PEM_END (upper pem) >? find PEM_BEGIN (upper pem)) eqn:Hgt;
        [|discriminate].
      intros [= <-]. apply Z.gtb_lt in Hgt.
      unfold contains in Hc. apply Z.leb_le in Hc. unfold find in *.
      destruct (find_from_spec PEM_BEGIN (upper pem) 0 ltac:(lia))
        as [Hb|[_ Hb]]; [lia|].
      destruct (find_from_spec PEM_END (upper pem) 0 ltac:(lia))
        as [He|[_ He]]; [lia|].
      rewrite Z.sub_0_r in Hb, He.
      set (start := find_from PEM_BEGIN (upper pem) 0) in *.
      set (end_ := find_from PEM_END (upper pem) 0) in *.
      exists (Z.to_nat start), (Z.to_nat (end_ + 24 - start)).
      split; [reflexivity|].
      unfold slice. rewrite upper_take, upper_drop.
      apply startswith_take; [exact Hb|].
      assert (Hk : end_ - start <> 1).
      { intros Hk.
        replace (Z.to_nat end_) with (Z.to_nat start + 1)%nat in He by lia.
        rewrite <- pydrop_drop in He.
        now rewrite (markers_apart _ Hb) in He. }
      change (Z.of_nat (String.length PEM_END)) with 24.
      change (String.length PEM_BEGIN) with 26%nat. lia.
    + set (fixed := replace _ _ (replace _ _ pem)).
      destruct (PyStr.startswith PEM_BEGIN fixed) eqn:Hf; [|discriminate].
      exfalso. apply contains_prefix in Hf.
      unfold fixed, replace in Hf.
      rewrite !upper_replace in Hf by reflexivity. congruence.
Qed.

End PemRepair.

(** X15. The format repair of [add_peer_key] never changes a byte: the
    text handed to the loader is the received text or a slice of it whose
    upper-case form begins with the PEM header.  Its branch for "case
    issues" can never succeed: when the upper-cased text does not contain
    the header, the repair raises.  Hence a key whose text arrives in
    lower case is handed to the loader without the exact header. *)
Theorem repair_keeps_the_case pem :
  (PyStr.startswith PEM_BEGIN pem = true -> repair_pem pem = Some pem)
  /\ (forall p, repair_pem pem = Some p ->
        (exists pre post, pem = pre +:+ p +:+ post)
        /\ PyStr.startswith PEM_BEGIN (PyBytes.upper p) = true)
  /\ (PyBytes.contains PEM_BEGIN (PyBytes.upper pem) = false ->
      repair_pem pem = None)
  /\ (PyStr.lower pem = pem ->
      forall p, repair_pem pem = Some p ->
                PyStr.startswith PEM_BEGIN p = false).
Proof.
  split; [|split; [|split]].
  - intros H. unfold repair_pem. now rewrite H.
  - intros p Hp. destruct (repair_pem_cases pem p Hp) as (start & n & -> & Hu).
    split; [|exact Hu].
    exists (PyBytes.take start pem), (PyStr.drop n (PyStr.drop start pem)).
    rewrite <- take_drop_string. apply take_drop_string.
  - intros Hc. destruct (repair_pem pem) as [p|] eqn:Hp; [|reflexivity].
    exfalso. unfold repair_pem in Hp.
    destruct (PyStr.startswith PEM_BEGIN pem) eqn:Hs; cbn [negb] in Hp.
    + apply contains_prefix in Hs. congruence.
    + rewrite Hc in Hp.
      match type of Hp with
      | (if ?c then _ else _) = _ => destruct c eqn:Hf; [|discriminate]
      end.
      apply contains_prefix in Hf. unfold PyBytes.replace in Hf.
      rewrite !upper_replace in Hf by reflexivity. congruence.
  - intros Hlow p Hp.
    destruct (repair_pem_cases pem p Hp) as (start & n & -> & _).
    destruct (PyStr.startswith PEM_BEGIN _) eqn:Hs; [|reflexivity].
    exfalso. pose proof (startswith_lower _ _ Hs) as Hl.
    rewrite lower_take, lower_drop, Hlow in Hl.
    pose proof (startswith_same_length _ _ _ Hs Hl eq_refl) as Heq.
    discriminate.
Qed.

Lemma repair_keeps_the_case_witness :
  repair_pem demo_relayed_pem = Some demo_relayed_pem
  /\ PyStr.startswith PEM_BEGIN demo_relayed_pem = false
  /\ repair_pem "begin public key miibijanbg" = None.
Proof.
  destruct (repair_keeps_the_case demo_relayed_pem) as (_ & _ & _ & H4).
  destruct (repair_keeps_the_case "begin public key miibijanbg")
    as (_ & _ & H3 & _).
  assert (E : repair_pem demo_relayed_pem = Some demo_relayed_pem)
    by (vm_compute; reflexivity).
  split; [exact E|]. split.
  - exact (H4 eq_refl demo_relayed_pem E).
  - apply H3. vm_compute. reflexivity.
Defined.

(** X16. Key exchange, then a whisper: once [add_peer_key] accepted the
    key text of a correspondent, [encrypt_message] for that name returns
    an envelope (three entropy draws later) which the holder of the
    matching private key decrypts to the message; the ciphertext is as
    long as the encoded message, since CFB adds no padding.  Before any
    key for the name is cached or on disk, [encrypt_message] returns
    [None] and draws nothing. *)
Theorem added_key_round_trip (L : Encryption.CryptoLib)
    (loader : string -> option (Encryption.PublicKey L))
    username pem p sk sender receiver message :
  Encryption.CryptoLaws L ->
  repair_pem pem = Some p ->
  loader p = Some (Encryption.public_of L sk) ->
  Encryption.private_key L receiver = Some sk ->
  Encryption.utf8_decode L (Encryption.utf8_encode L message) = Some message ->
  (exists sender1 pkg sender2 ct,
     add_peer_key L loader username pem sender = Some sender1
     /\ Encryption.encrypt_message L message username sender1
        = (Some pkg, sender2)
     /\ Encryption.decrypt_message L (Some pkg) receiver = Some message
     /\ Encryption.field_bytes L pkg "ciphertext" = Some ct
     /\ length ct = length (Encryption.utf8_encode L message)
     /\ Encryption.draws L sender2 = (3 + Encryption.draws L sender)%nat)
  /\ (Encryption.peer_keys L sender !! username = None ->
      Encryption.peer_files L sender !! username = None ->
      Encryption.encrypt_message L message username sender = (None, sender)).
Proof.
  intros laws Hrep Hload Hsk Hutf. split.
  - unfold add_peer_key. rewrite Hrep, Hload.
    set (sender1 := Encryption.mkManager L _ _ _ _ _).
    assert (Hpk : (Encryption.load_peer_key L username sender1).1
                  = Some (Encryption.public_of L sk)).
    { unfold Encryption.load_peer_key. subst sender1. simpl.
      now rewrite lookup_insert_eq. }
    destruct (Encryption.encrypt_message L message username sender1)
      as [[pkg|] sender2] eqn:Henc.
    + destruct (encrypt_fields L laws message username sender1 _ pkg sender2
                  Hpk Henc) as (_ & _ & Hct).
      destruct (encrypt_keeps_peer L message username sender1 _ pkg sender2
                  Hpk Henc) as [_ Hd].
      exists sender1, pkg, sender2. eexists.
      split; [reflexivity|]. split; [exact Henc|].
      split; [exact (decrypt_encrypt_round_trip L laws sender1 receiver sk
                       username message pkg sender2 Hsk Hpk Hutf Henc)|].
      split; [exact Hct|]. split; [|exact Hd].
      unfold Encryption.cfb_encrypt. apply cfb_enc_length; [|lia].
      intros x. apply (Encryption.aes_block_length L laws).
    + exfalso. unfold Encryption.encrypt_message in Henc.
      destruct (Encryption.load_peer_key L username sender1) as [[k|] m1];
        simpl in Hpk; [discriminate | discriminate].
  - intros Hmem Hfile. unfold Encryption.encrypt_message,
      Encryption.load_peer_key. now rewrite Hmem, Hfile.
Qed.

Lemma added_key_round_trip_witness :
  exists sender1 pkg sender2,
    add_peer_key Encryption.toy_lib toy_loader "bob" toy_pem toy_newcomer
    = Some sender1
    /\ Encryption.encrypt_message Encryption.toy_lib "hello" "bob" sender1
       = (Some pkg, sender2)
    /\ Encryption.decrypt_message Encryption.toy_lib (Some pkg) toy_receiver
       = Some "hello".
Proof.
  destruct (proj1 (added_key_round_trip Encryption.toy_lib toy_loader "bob"
                     toy_pem toy_pem 7%nat toy_newcomer toy_receiver "hello"
                     toy_laws eq_refl eq_refl eq_refl eq_refl))
    as (s1 & pkg & s2 & ct & H1 & H2 & H3 & _).
  exists s1, pkg, s2. auto.
Defined.

(** ** The start of a session *)

Lemma register_state ws username st :
  register ws username st = (Ok tt, registered ws username st).
Proof.
  unfold register, registered, mbind, M_bind, modify, get, mret, M_ret.
  fields.
  destruct (moderator_ws st) as [m|] eqn:Hm; [reflexivity|].
  now destruct (String.eqb username (moderator_username st)).
Qed.

Lemma registered_fields ws username st :
  db_users (registered ws username st) = db_users st
  /\ db_messages (registered ws username st) = db_messages st
  /\ db_file_transfers (registered ws username st) = db_file_transfers st
  /\ moderator_username (registered ws username st) = moderator_username st
  /\ wire (registered ws username st) = wire st
  /\ ticks (registered ws username st) = ticks st
  /\ clients (registered ws username st) = clients st
  /\ online_users (registered ws username st)
     = dict_set ws username (online_users st)
  /\ user_websockets (registered ws username st)
     = <[username := ws]> (user_websockets st)
  /\ moderator_disconnect_event (registered ws username st)
     = moderator_disconnect_event st.
Proof.
  unfold registered.
  destruct (moderator_ws st) as [m|];
    [|destruct (String.eqb username (moderator_username st))];
    fields; repeat (split; [reflexivity|]); reflexivity.
Qed.

(** X17. An accepted login on a live connection whose user row exists:
    the connection receives the positive authentication response, then
    the history replay of the table as it was, then (being a client
    itself by then) its own join notice together with every other live
    connection; a row of type join is stored; the connection is entered
    under the name in both registry maps, replacing the name's previous
    connection link if there was one. *)
Theorem accepted_login env st ws username user :
  send_fails env ws = false ->
  find_user username (db_users st) = Some user ->
  let r := open_session env ws (AuthAccepted username) st in
  r.1 = Ok tt
  /\ sent_since st r.2
     = (ws, AuthResponse true username)
       :: history_frames ws st (history_rows st)
       ++ map (fun c => (c, join_notice st username))
              (live env (elements ({[ws]} ∪ clients st)))
  /\ (ws, join_notice st username) ∈ sent_since st r.2
  /\ db_messages r.2 = db_messages st ++ [join_row env st user]
  /\ clients r.2 = {[ws]} ∪ clients st
  /\ online_users r.2 = dict_set ws username (online_users st)
  /\ user_websockets r.2 = <[username := ws]> (user_websockets st).
Proof.
  intros Hlive Huser r.
  set (st1 := set_wire (fun w => w ++ [(ws, AuthResponse true username)])
                (set_clients (fun c => {[ws]} ∪ c) st)).
  set (st2 := registered ws username st1).
  set (st3 := set_wire (fun w => w ++ history_frames ws st2 (history_rows st2))
                st2).
  destruct (registered_fields ws username st1)
    as (R1 & R2 & R3 & R4 & R5 & R6 & R7 & R8 & R9 & R10). fold st2 in R1, R2,
    R3, R4, R5, R6, R7, R8, R9, R10.
  assert (Hframes : history_frames ws st2 (history_rows st2)
                    = history_frames ws st (history_rows st)).
  { unfold history_frames, history_rows, display_name. now rewrite R1, R2, R4. }
  assert (Hrun : r = (Ok tt,
            fan_out env (join_notice st username) (elements (clients st3))
              (set_db_messages (fun ms => ms ++ [join_row env st user])
                 (set_ticks S st3)))).
  { subst r. unfold open_session, try_except, mbind, M_bind, modify.
    cbn [fst snd]. rewrite (send_live env ws _ _ Hlive). fold st1.
    rewrite register_state. fold st2.
    assert (Hh : send_message_history env ws st2 = (Ok tt, st3)).
    { unfold send_message_history, mbind, M_bind, get. cbn [fst snd].
      apply (replay_loop env ws st2 _ st2 Hlive). }
    rewrite Hh. unfold announce_join, mbind, M_bind, get, now, modify.
    cbn [fst snd]. subst st3. fields. rewrite R1. subst st1. fields.
    rewrite Huser. rewrite notify_all_fan_out.
    unfold join_notice, join_row, display_name. fields.
    now rewrite R4, R6. }
  assert (Hclients : clients st3 = {[ws]} ∪ clients st).
  { subst st3. fields. rewrite R7. subst st1. now fields. }
  assert (Hsent : sent_since st r.2
            = (ws, AuthResponse true username)
              :: history_frames ws st (history_rows st)
              ++ map (fun c => (c, join_notice st username))
                     (live env (elements ({[ws]} ∪ clients st)))).
  { rewrite Hrun. apply sent_since_app. unfold fan_out. fields.
    rewrite Hclients. subst st3. fields. rewrite R5, Hframes. subst st1.
    fields. unfold live. now rewrite <- !app_assoc. }
  split; [now rewrite Hrun|]. split; [exact Hsent|]. split.
  - rewrite Hsent. apply list_elem_of_further, elem_of_app. right.
    apply list_elem_of_fmap. exists ws. split; [reflexivity|].
    apply elem_of_live. split; [|exact Hlive].
    apply elem_of_elements, elem_of_union. left. now apply elem_of_singleton.
  - rewrite Hrun. unfold fan_out. fields. subst st3. fields.
    rewrite R2, R7, R8, R9. subst st1. fields. auto.
Qed.

Lemma accepted_login_witness :
  let r := open_session live_env 4 (AuthAccepted "Bob") demo_server in
  (4%nat, Notification "Bob" "joined the chat.") ∈ sent_since demo_server r.2
  /\ user_websockets r.2 !! "Bob" = Some 4%nat.
Proof.
  destruct (accepted_login live_env demo_server 4 "Bob" (mkUser 4 "Bob")
              eq_refl eq_refl) as (_ & _ & H3 & _ & _ & _ & H7).
  split; [exact H3|]. rewrite H7. apply lookup_insert_eq.
Defined.

(** ** The shutdown signal *)

Lemma try_except_shape {A} (m : M A) (h : Exn -> M A) st :
  (try_except m h st).2 = (m st).2
  \/ exists e, (m st).1 = Raise e
               /\ (try_except m h st).2 = (h e (m st).2).2.
Proof.
  unfold try_except. destruct (m st) as [[a|e] st']; [now left|].
  right. now exists e.
Qed.

Lemma on_exception_shape env ws e st :
  exists st', (on_exception env ws e st).2 = (cleanup env ws st').2
              /\ (st' = st \/ exists f, st' = set_log f st).
Proof.
  destruct e; simpl; try (exists st; split; [reflexivity | now left]);
    unfold mbind, M_bind, logger_error, modify; cbn [fst snd];
    (eexists; split; [reflexivity | right; eexists; reflexivity]).
Qed.

Lemma role_kept_log st ws username f s :
  role_kept st ws username s -> role_kept st ws username (set_log f s).
Proof. intros H. exact H. Qed.

Lemma role_kept_process env st ws username message :
  preserves (fun s => moderator_disconnect_event s = moderator_disconnect_event st
                      /\ moderator_ws s = moderator_ws st)
    (process_message env ws username message).
Proof.
  unfold process_message, handle_command, file_transfer, file_transfer_except,
    ws_close.
  keep env.
Qed.

Lemma role_kept_register st ws username :
  preserves (role_kept st ws username) (register ws username).
Proof.
  intros s (He & Hu & Hm). rewrite register_state. cbn [snd].
  unfold role_kept, registered.
  destruct (moderator_ws s) as [m|] eqn:Hs; fields.
  - do 2 (split; [assumption|]). now rewrite Hs.
  - destruct (String.eqb username (moderator_username s)) eqn:Eu; fields.
    + do 2 (split; [assumption|]).
      destruct Hm as [Hm|(_ & Hm & _)]; [|discriminate].
      right. split; [congruence|]. split; [reflexivity|].
      apply String.eqb_eq in Eu. congruence.
    + do 2 (split; [assumption|]). now rewrite Hs.
Qed.

Lemma role_kept_body env st ws username :
  preserves (role_kept st ws username)
    (send env ws (AuthResponse true username) ;;
     register ws username ;;
     send_message_history env ws ;;
     announce_join env username).
Proof.
  apply preserves_bind; [keep env | intros _].
  apply preserves_bind; [apply role_kept_register | intros _].
  apply preserves_bind; [|intros _; unfold announce_join; keep env].
  unfold send_message_history.
  apply preserves_bind; [apply preserves_get | intros s0].
  apply preserves_for_each. intros m. keep env.
Qed.

(** Every step is a stretch that keeps the signal (and the role, unless
    the step is the login that claims it), followed or not by the
    [finally] block of the step's connection. *)
Lemma step_shape env st ev :
  exists st',
    role_after st ev st'
    /\ (step env st ev = st'
        \/ step env st ev = (cleanup env (connection_of ev) st').2).
Proof.
  assert (Hrefl : forall s,
            moderator_disconnect_event s = moderator_disconnect_event st ->
            moderator_ws s = moderator_ws st -> role_after st ev s).
  { intros s H1 H2. split; [exact H1 | now left]. }
  assert (Hexc : forall ws e s,
            connection_of ev = ws -> role_after st ev s ->
            exists st', role_after st ev st'
              /\ (on_exception env ws e s).2
                 = (cleanup env (connection_of ev) st').2).
  { intros ws e s Hws Hs. rewrite Hws.
    destruct (on_exception_shape env ws e s) as (s' & Heq & [->|[f ->]]).
    - exists s. split; [exact Hs | exact Heq].
    - exists (set_log f s). split; [exact Hs | exact Heq]. }
  destruct ev as [ws auth|ws message|ws]; cbn [step connection_of] in *.
  - set (st0 := set_clients (fun c => {[ws]} ∪ c) st).
    destruct auth as [message|username].
    + change (open_session env ws (AuthRejected message) st)
        with (try_except
                (send env ws (AuthResponse false message) ;; cleanup env ws)
                (on_exception env ws) st0).
      destruct (try_except_shape
                  (send env ws (AuthResponse false message) ;; cleanup env ws)
                  (on_exception env ws) st0) as [H|(e & Hr & H)]; rewrite H.
      * unfold mbind, M_bind, send.
        destruct (send_fails env ws); cbn [raise fst snd].
        -- exists st0. split; [now apply Hrefl | now left].
        -- eexists. split; [|right; reflexivity]. now apply Hrefl.
      * unfold mbind, M_bind, send in Hr |- *.
        destruct (send_fails env ws); cbn [raise modify fst snd] in Hr |- *.
        -- apply (Hexc ws e st0 eq_refl) in Hrefl as (st' & Hs & Heq);
             [|reflexivity|reflexivity].
           exists st'. split; [exact Hs | right; exact Heq].
        -- destruct (cleanup_registry env ws
                       (set_wire (fun w => w ++ [(ws, AuthResponse false message)])
                          st0)) as (R1 & _).
           rewrite R1 in Hr. discriminate.
    + pose proof (role_kept_body env st ws username st0) as Hbody.
      assert (H0 : role_kept st ws username st0).
      { split; [reflexivity|]. split; [reflexivity | now left]. }
      specialize (Hbody H0).
      set (body := send env ws (AuthResponse true username) ;;
                   register ws username ;;
                   send_message_history env ws ;;
                   announce_join env username) in *.
      change (open_session env ws (AuthAccepted username) st)
        with (try_except body (on_exception env ws) st0).
      assert (Hafter : role_after st (Connect ws (AuthAccepted username))
                         (body st0).2).
      { destruct Hbody as (He & _ & [Hm|(Hv & Hm & ->)]).
        - split; [exact He | now left].
        - split; [exact He | right]. auto. }
      destruct (try_except_shape body (on_exception env ws) st0)
        as [H|(e & _ & H)]; rewrite H.
      * exists (body st0).2. split; [exact Hafter | now left].
      * destruct (Hexc ws e (body st0).2 eq_refl Hafter) as (st' & Hs & Heq).
        exists st'. split; [exact Hs | right; exact Heq].
  - change (receive env ws message st)
      with (match dict_get ws (online_users st) with
            | Some username =>
                try_except
                  (process_message env ws username message ;;
                   st' ← get;
                   if existsb (Nat.eqb ws) (closed st')
                   then cleanup env ws else mret tt)
                  (on_exception env ws)
            | None => mret tt
            end st).
    destruct (dict_get ws (online_users st)) as [username|];
      [|exists st; split; [now apply Hrefl | now left]].
    assert (Hp' : role_after st (Receive ws message)
                    (process_message env ws username message st).2).
    { destruct (role_kept_process env st ws username message st
                  (conj eq_refl eq_refl)) as [He Hm].
      now apply Hrefl. }
    set (body := process_message env ws username message ;;
                 st' ← get;
                 if existsb (Nat.eqb ws) (closed st')
                 then cleanup env ws else mret tt).
    assert (Hb : (body st).2 = (process_message env ws username message st).2
                 \/ ((body st).1 = Ok tt
                     /\ (body st).2
                        = (cleanup env ws
                             (process_message env ws username message st).2).2)).
    { subst body. unfold mbind, M_bind, get. cbv beta.
      destruct (process_message env ws username message st) as [[[]|e] s1];
        cbn [fst snd]; [|now left].
      destruct (existsb (Nat.eqb ws) (closed s1)); [|now left].
      right. split; [|reflexivity].
      now destruct (cleanup_registry env ws s1) as (R1 & _). }
    destruct (try_except_shape body (on_exception env ws) st)
      as [H|(e & Hr & H)]; rewrite H.
    + destruct Hb as [->|[_ ->]];
        eexists; (split; [exact Hp'|]); [now left | now right].
    + destruct Hb as [Hb|[Hok _]]; [|congruence]. rewrite Hb.
      destruct (Hexc ws e _ eq_refl Hp') as (st' & Hs & Heq).
      exists st'. split; [exact Hs | right; exact Heq].
  - exists st. split; [now apply Hrefl | now right].
Qed.

Lemma signal_after_step env st ev :
  moderator_disconnect_event (step env st ev) = moderator_disconnect_event st
  \/ (moderator_disconnect_event (step env st ev) = true
      /\ moderator_ws (step env st ev) = None
      /\ (moderator_ws st = Some (connection_of ev)
          \/ (moderator_ws st = None
              /\ ev = Connect (connection_of ev)
                        (AuthAccepted (moderator_username st))))).
Proof.
  destruct (step_shape env st ev) as (s & [He Hm] & [->| ->]); [now left|].
  destruct (cleanup_registry env (connection_of ev) s) as (_ & _ & R3 & R4 & _).
  rewrite R3, R4, He. unfold is_moderator.
  destruct (moderator_ws s) as [m|] eqn:Hs; [|now left].
  destruct (Nat.eqb (connection_of ev) m) eqn:E; [|now left].
  apply Nat.eqb_eq in E. subst m. right. split; [reflexivity|].
  split; [reflexivity|].
  destruct Hm as [Hm|(Hv & _ & Hev)]; [left; congruence | right; auto].
Qed.

(** X18. The shutdown signal (the moderator-disconnect event) is never
    reset, along any sequence of events.  A step raises it only by ending
    the session of the connection that holds the moderator role: the
    holder of the role before the step, or a connection that claimed the
    vacant role by logging in under the moderator name in this very step
    and failed before its message loop.  When the signal is raised the
    role is vacant afterwards. *)
Theorem shutdown_signal env st ev :
  (forall evs, moderator_disconnect_event st = true ->
               moderator_disconnect_event (run env st evs) = true)
  /\ (moderator_disconnect_event st = false ->
      moderator_disconnect_event (step env st ev) = true ->
      moderator_ws (step env st ev) = None
      /\ (moderator_ws st = Some (connection_of ev)
          \/ (moderator_ws st = None
              /\ ev = Connect (connection_of ev)
                        (AuthAccepted (moderator_username st))))).
Proof.
  split.
  - intros evs. revert st. induction evs as [|e evs IH]; intros st H;
      [exact H|].
    simpl. apply IH.
    destruct (signal_after_step env st e) as [->|[-> _]]; [exact H | reflexivity].
  - intros Hoff Hon.
    destruct (signal_after_step env st ev) as [Heq|(_ & Hv & Hwho)];
      [congruence | auto].
Qed.

Lemma shutdown_signal_witness :
  moderator_ws (step live_env demo_server (Disconnect 1)) = None
  /\ (moderator_ws demo_server = Some 1%nat
      \/ (moderator_ws demo_server = None
          /\ Disconnect 1
             = Connect 1 (AuthAccepted (moderator_username demo_server)))).
Proof.
  apply (proj2 (shutdown_signal live_env demo_server (Disconnect 1)));
    reflexivity.
Defined.

(** ** The client's input loop *)

Section OutgoingFacts.

Import Outgoing.

Variable L : Encryption.CryptoLib.
Variable to_text : string -> Encryption.Text L.
Variable json_dumps : gmap string Encryption.JVal -> string.
Variable rsa_generate : nat -> Encryption.PrivateKey L.
Variable public_bytes : Encryption.PublicKey L -> string.
Variable files : gmap string (list ascii).
Variable basename : string -> string.
Variable b64encode : list ascii -> string.

Local Notation "'send_line'" :=
  (Outgoing.send_line L to_text json_dumps rsa_generate public_bytes files
     basename b64encode) (only parsing).
Local Notation "'send_or_whisper'" :=
  (Outgoing.send_or_whisper L to_text json_dumps files basename b64encode)
  (only parsing).

Lemma strip_nonempty s :
  lstripped s -> s <> EmptyString -> PyStr.strip s <> EmptyString.
Proof.
  intros Hl Hne. unfold PyStr.strip. rewrite (lstrip_fixed s Hl).
  destruct s as [|c s]; [congruence|]. simpl in Hl |- *.
  destruct (PyStr.rstrip s); [rewrite Hl|]; discriminate.
Qed.

Lemma whisper_line_parts verb target text :
  lacks " " verb = true -> lacks " " target = true ->
  PyStr.split " " (verb +:+ " " +:+ target +:+ " " +:+ text) 2
  = [verb; target; text].
Proof.
  intros Hv Ht.
  change (verb +:+ " " +:+ target +:+ " " +:+ text)
    with (verb +:+ String " " (target +:+ String " " text)).
  rewrite split_first by exact Hv. rewrite split_first by exact Ht.
  now rewrite split_zero_any.
Qed.

(** A [/w] or [/whisper] line reaches the whisper test of the loop. *)
Lemma whisper_line_reaches rest c :
  send_line ("/w " +:+ rest) c = send_or_whisper ("/w " +:+ rest) c
  /\ send_line ("/whisper " +:+ rest) c
     = send_or_whisper ("/whisper " +:+ rest) c.
Proof.
  split.
  - unfold Outgoing.send_line.
    rewrite (proj2 (String.eqb_neq _ _)
               (strip_nonempty ("/w " +:+ rest) eq_refl ltac:(discriminate))).
    assert (H1 : String.eqb (PyStr.lower ("/w " +:+ rest)) "/help" = false)
      by (vm_compute; reflexivity).
    assert (H2 : PyStr.startswith "/keygen" ("/w " +:+ rest) = false)
      by (vm_compute; reflexivity).
    assert (H3 : PyStr.startswith "/sendkey " ("/w " +:+ rest) = false)
      by (vm_compute; reflexivity).
    assert (H4 : PyStr.startswith "/encrypt " ("/w " +:+ rest) = false)
      by (vm_compute; reflexivity).
    rewrite H1, H2, H3, H4. now destruct (manager L c).
  - unfold Outgoing.send_line.
    rewrite (proj2 (String.eqb_neq _ _)
               (strip_nonempty ("/whisper " +:+ rest) eq_refl
                  ltac:(discriminate))).
    assert (H1 : String.eqb (PyStr.lower ("/whisper " +:+ rest)) "/help" = false)
      by (vm_compute; reflexivity).
    assert (H2 : PyStr.startswith "/keygen" ("/whisper " +:+ rest) = false)
      by (vm_compute; reflexivity).
    assert (H3 : PyStr.startswith "/sendkey " ("/whisper " +:+ rest) = false)
      by (vm_compute; reflexivity).
    assert (H4 : PyStr.startswith "/encrypt " ("/whisper " +:+ rest) = false)
      by (vm_compute; reflexivity).
    rewrite H1, H2, H3, H4. now destruct (manager L c).
Qed.

Lemma whisper_line_tests rest :
  PyStr.startswith "/file " ("/w " +:+ rest) = false
  /\ PyStr.startswith "/w " ("/w " +:+ rest) = true
  /\ PyStr.startswith "/file " ("/whisper " +:+ rest) = false
  /\ PyStr.startswith "/w " ("/whisper " +:+ rest) = false
  /\ PyStr.startswith "/whisper " ("/whisper " +:+ rest) = true
  /\ String.eqb (PyStr.lower ("/whisper " +:+ rest)) "/quit" = false
  /\ String.eqb (PyStr.lower ("/whisper " +:+ rest)) "/exit" = false
  /\ String.eqb (PyStr.lower ("/w " +:+ rest)) "/quit" = false
  /\ String.eqb (PyStr.lower ("/w " +:+ rest)) "/exit" = false.
Proof. repeat split; vm_compute; reflexivity. Qed.

End OutgoingFacts.

(** X19. With encryption unavailable, the short spelling of a whisper is
    never sent: the test [enabled and startswith("/whisper ") or
    startswith("/w ")] lets a [/w] line into the encryption branch, where
    the missing manager raises, and the loop prints "Error sending
    message".  The same whisper spelled [/whisper] is sent as typed, and
    so is a [/w] line that carries a public key. *)
Theorem short_whisper_without_encryption (L : Encryption.CryptoLib)
    to_text json_dumps rsa_generate public_bytes files basename b64encode
    (c : Outgoing.State L) target text :
  Outgoing.manager L c = None ->
  Outgoing.link_up L c = true ->
  lacks " " target = true ->
  let send_line :=
    Outgoing.send_line L to_text json_dumps rsa_generate public_bytes files
      basename b64encode in
  (PyStr.startswith "/pubkey " text = false ->
   send_line ("/w " +:+ target +:+ " " +:+ text) c
   = Outgoing.print L "Error sending message" c)
  /\ (PyStr.startswith "/pubkey " text = true ->
      Some (send_line ("/w " +:+ target +:+ " " +:+ text) c)
      = Outgoing.ws_send L ("/w " +:+ target +:+ " " +:+ text) c)
  /\ Some (send_line ("/whisper " +:+ target +:+ " " +:+ text) c)
     = Outgoing.ws_send L ("/whisper " +:+ target +:+ " " +:+ text) c.
Proof.
  intros Hm Hup Ht send_line. subst send_line.
  destruct (whisper_line_tests (target +:+ " " +:+ text))
    as (F1 & F2 & F3 & F4 & F5 & F6 & F7 & F8 & F9).
  destruct (whisper_line_reaches L to_text json_dumps rsa_generate public_bytes
              files basename b64encode (target +:+ " " +:+ text) c)
    as [R1 R2].
  split; [|split].
  - intros Hkey. rewrite R1. unfold Outgoing.send_or_whisper.
    rewrite F1, F2, Hm, orb_true_r. unfold Outgoing.whisper.
    change ("/w " +:+ target +:+ " " +:+ text)
      with ("/w" +:+ " " +:+ target +:+ " " +:+ text).
    rewrite whisper_line_parts by (reflexivity || exact Ht).
    now rewrite Hkey, Hm.
  - intros Hkey. rewrite R1. unfold Outgoing.send_or_whisper.
    rewrite F1, F2, Hm, orb_true_r. unfold Outgoing.whisper.
    change ("/w " +:+ target +:+ " " +:+ text)
      with ("/w" +:+ " " +:+ target +:+ " " +:+ text).
    rewrite whisper_line_parts by (reflexivity || exact Ht).
    rewrite Hkey. unfold Outgoing.ws_send. now rewrite Hup.
  - rewrite R2. unfold Outgoing.send_or_whisper.
    rewrite F3, F4, Hm. cbn [andb orb].
    unfold Outgoing.ws_send. rewrite Hup, F6, F7. reflexivity.
Qed.

Lemma short_whisper_without_encryption_witness :
  Outgoing.sent _ (toy_send_line "/w bob hello" toy_plain) = []
  /\ Outgoing.screen _ (toy_send_line "/w bob hello" toy_plain)
     = ["Error sending message"]
  /\ Outgoing.sent _ (toy_send_line "/whisper bob hello" toy_plain)
     = ["/whisper bob hello"].
Proof.
  destruct (short_whisper_without_encryption Encryption.toy_lib (fun s => s)
              toy_dumps (fun d => d) (fun _ => PEM_BEGIN) ∅ (fun p => p)
              string_of_list_ascii toy_plain "bob" "hello"
              eq_refl eq_refl eq_refl) as (H1 & _ & H3).
  unfold toy_send_line.
  change ("/w bob hello") with ("/w " +:+ "bob" +:+ " " +:+ "hello").
  change ("/whisper bob hello") with ("/whisper " +:+ "bob" +:+ " " +:+ "hello").
  rewrite (H1 eq_refl). split; [reflexivity|]. split; [reflexivity|].
  exact (f_equal (fun o => match o with
                           | Some s => Outgoing.sent _ s
                           | None => []
                           end) H3).
Defined.

Lemma load_peer_key_again (L : Encryption.CryptoLib) username m pk m1 :
  Encryption.load_peer_key L username m = (Some pk, m1) ->
  Encryption.load_peer_key L username m1 = (Some pk, m1).
Proof.
  unfold Encryption.load_peer_key.
  destruct (Encryption.peer_keys L m !! username) as [k|] eqn:Hk.
  - intros [= <- <-]. now rewrite Hk.
  - destruct (Encryption.peer_files L m !! username) as [k|] eqn:Hf;
      [|discriminate].
    intros [= <- <-]. simpl. now rewrite lookup_insert_eq.
Qed.

(** What the loop does with a whisper line when encryption is
    available. *)
Lemma whisper_line_flow (L : Encryption.CryptoLib)
    to_text json_dumps rsa_generate public_bytes files basename b64encode
    (c : Outgoing.State L) m verb target text :
  Outgoing.manager L c = Some m ->
  Outgoing.link_up L c = true ->
  verb = "/whisper" \/ verb = "/w" ->
  lacks " " target = true ->
  PyStr.startswith "/pubkey " text = false ->
  let line := verb +:+ " " +:+ target +:+ " " +:+ text in
  Outgoing.send_line L to_text json_dumps rsa_generate public_bytes files
    basename b64encode line c
  = match Encryption.load_peer_key L target m with
    | (None, m1) =>
        Outgoing.mkState L (Some m1) (Outgoing.sent L c ++ [line])
          (Outgoing.screen L c) (Outgoing.link_up L c) (Outgoing.stopped L c)
    | (Some _, m1) =>
        match Encryption.encrypt_message L (to_text text) target m1 with
        | (Some package, m2) =>
            Outgoing.mkState L (Some m2)
              (Outgoing.sent L c
               ++ [verb +:+ " " +:+ target +:+ " [ENCRYPTED]"
                   +:+ json_dumps package])
              (Outgoing.screen L c) (Outgoing.link_up L c)
              (Outgoing.stopped L c)
        | (None, m2) =>
            Outgoing.mkState L (Some m2) (Outgoing.sent L c ++ [line])
              (Outgoing.screen L c) (Outgoing.link_up L c)
              (Outgoing.stopped L c)
        end
    end.
Proof.
  intros Hm Hup Hverb Ht Hkey line.
  assert (Hparts : PyStr.split " " line 2 = [verb; target; text]).
  { subst line. apply whisper_line_parts; [|exact Ht].
    destruct Hverb as [-> | ->]; reflexivity. }
  assert (Hrun : Outgoing.send_line L to_text json_dumps rsa_generate
                   public_bytes files basename b64encode line c
                 = match Outgoing.whisper L to_text json_dumps line c with
                   | Outgoing.Next _ c1 => c1
                   | Outgoing.Failed _ c1 =>
                       Outgoing.print L "Error sending message" c1
                   | Outgoing.Fall _ c1 =>
                       match Outgoing.ws_send L line c1 with
                       | None => Outgoing.print L "Error sending message" c1
                       | Some c2 => c2
                       end
                   end).
  { subst line.
    destruct (whisper_line_tests (target +:+ " " +:+ text))
      as (F1 & F2 & F3 & F4 & F5 & F6 & F7 & F8 & F9).
    destruct (whisper_line_reaches L to_text json_dumps rsa_generate
                public_bytes files basename b64encode
                (target +:+ " " +:+ text) c) as [R1 R2].
    destruct Hverb as [-> | ->].
    - change ("/whisper" +:+ " " +:+ target +:+ " " +:+ text)
        with ("/whisper " +:+ target +:+ " " +:+ text).
      rewrite R2. unfold Outgoing.send_or_whisper.
      rewrite F3, F5, Hm. cbn [andb orb].
      destruct (Outgoing.whisper _ _ _ _ _) as [c1|c1|c1]; reflexivity.
    - change ("/w" +:+ " " +:+ target +:+ " " +:+ text)
        with ("/w " +:+ target +:+ " " +:+ text).
      rewrite R1. unfold Outgoing.send_or_whisper.
      rewrite F1, F2, Hm. cbn [andb orb].
      destruct (Outgoing.whisper _ _ _ _ _) as [c1|c1|c1]; reflexivity. }
  rewrite Hrun. unfold Outgoing.whisper. rewrite Hparts, Hkey, Hm.
  destruct (Encryption.load_peer_key L target m) as [[k|] m1].
  - destruct (Encryption.encrypt_message L (to_text text) target m1)
      as [[package|] m2]; unfold Outgoing.ws_send; simpl; now rewrite Hup.
  - unfold Outgoing.ws_send. simpl. now rewrite Hup.
Qed.



Lemma rstrip_suffix s : exists t, s = PyStr.rstrip s +:+ t.
Proof.
  induction s as [|c r [t IH]]; [now exists EmptyString|]. simpl.
  destruct (PyStr.rstrip r) as [|d r'] eqn:E.
  - destruct (PyStr.isspace c).
    + now exists (String c r).
    + exists r. reflexivity.
  - exists t. rewrite app_cons. now rewrite <- IH.
Qed.

Lemma string_length_app a b :
  String.length (a +:+ b) = (String.length a + String.length b)%nat.
Proof. induction a as [|c a IH]; [reflexivity|]. rewrite app_cons. simpl. now rewrite IH. Qed.

Lemma append_nil_r (s : string) : s +:+ EmptyString = s.
Proof. induction s as [|c s IH]; [reflexivity|]. rewrite app_cons. now rewrite IH. Qed.

(** A line that starts with [/] and whose normal form is [/quit] or
    [/exit] is that word, in some case, followed by what [strip] removes;
    it reaches the plain send of the loop. *)
Lemma quit_line_reaches (L : Encryption.CryptoLib)
    to_text json_dumps rsa_generate public_bytes files basename b64encode
    (c : Outgoing.State L) message :
  PyStr.startswith "/" message = true ->
  PyStr.lower (PyStr.strip message) = "/quit"
  \/ PyStr.lower (PyStr.strip message) = "/exit" ->
  Outgoing.link_up L c = true ->
  Outgoing.send_line L to_text json_dumps rsa_generate public_bytes files
    basename b64encode message c
  = (let c' := Outgoing.mkState L (Outgoing.manager L c)
                 (Outgoing.sent L c ++ [message]) (Outgoing.screen L c)
                 (Outgoing.link_up L c) (Outgoing.stopped L c) in
     if String.eqb (PyStr.strip message) message
     then Outgoing.ws_close L c' else c').
Proof.
  intros Hslash Hquit Hup.
  assert (Hl : lstripped message).
  { destruct message as [|a r]; [exact I|].
    cbn [PyStr.startswith] in Hslash.
    apply andb_true_iff in Hslash as [Ha _]. apply Ascii.eqb_eq in Ha as <-.
    reflexivity. }
  assert (Hstrip : PyStr.strip message = PyStr.rstrip message).
  { unfold PyStr.strip. now rewrite (lstrip_fixed _ Hl). }
  destruct (rstrip_suffix message) as [t Ht]. rewrite <- Hstrip in Ht.
  assert (Hlow : PyStr.lower message
                 = PyStr.lower (PyStr.strip message) +:+ PyStr.lower t).
  { rewrite Ht at 1. apply lower_app. }
  assert (Hne : PyStr.strip message <> EmptyString).
  { intros E. rewrite E in Hquit. destruct Hquit; discriminate. }
  assert (Hsame : String.eqb (PyStr.strip message) message
                  = String.eqb (PyStr.lower t) EmptyString).
  { destruct t as [|x t].
    - rewrite append_nil_r in Ht. rewrite <- Ht. now rewrite String.eqb_refl.
    - simpl. apply String.eqb_neq. intros E. rewrite E in Ht.
      apply (f_equal String.length) in Ht.
      rewrite string_length_app in Ht. simpl in Ht. lia. }
  assert (Htests : forall p, PyStr.startswith p message = true ->
                             PyStr.startswith (PyStr.lower p)
                               (PyStr.lower (PyStr.strip message)
                                +:+ PyStr.lower t) = true).
  { intros p Hp. rewrite <- Hlow. now apply startswith_lower. }
  assert (Hno : forall p,
            PyStr.startswith (PyStr.lower p) ("/quit" +:+ PyStr.lower t) = false ->
            PyStr.startswith (PyStr.lower p) ("/exit" +:+ PyStr.lower t) = false ->
            PyStr.startswith p message = false).
  { intros p H1 H2. destruct (PyStr.startswith p message) eqn:E; [|reflexivity].
    apply Htests in E. destruct Hquit as [Hq|Hq]; rewrite Hq in E; congruence. }
  assert (Hhelp : String.eqb (PyStr.lower message) "/help" = false).
  { rewrite Hlow. destruct Hquit as [-> | ->]; vm_compute; reflexivity. }
  unfold Outgoing.send_line, Outgoing.send_or_whisper.
  rewrite (proj2 (String.eqb_neq _ _) Hne), Hhelp.
  rewrite (Hno "/keygen"), (Hno "/sendkey "), (Hno "/encrypt "),
    (Hno "/file "), (Hno "/whisper "), (Hno "/w ")
    by (vm_compute; reflexivity).
  rewrite andb_false_r. cbn [orb].
  assert (Hstop : String.eqb (PyStr.lower message) "/quit"
                  || String.eqb (PyStr.lower message) "/exit"
                  = String.eqb (PyStr.strip message) message).
  { rewrite Hsame, Hlow.
    destruct Hquit as [-> | ->]; destruct (PyStr.lower t); reflexivity. }
  unfold Outgoing.ws_send. rewrite Hup, Hstop.
  destruct (Outgoing.manager L c); reflexivity.
Qed.

(** X21. A line [/quit] or [/exit] followed by white space: the server,
    which strips the line, answers "Disconnecting..." and closes the
    connection; the client, which compares the unstripped line, sends it
    and goes on with its input loop.  Only the exact word (in any case)
    also ends the client's loop. *)
Theorem quit_with_trailing_blank (L : Encryption.CryptoLib)
    to_text json_dumps rsa_generate public_bytes files basename b64encode
    (c : Outgoing.State L) env ws username message :
  PyStr.startswith "/" message = true ->
  PyStr.lower (PyStr.strip message) = "/quit"
  \/ PyStr.lower (PyStr.strip message) = "/exit" ->
  Outgoing.link_up L c = true ->
  let c' := Outgoing.send_line L to_text json_dumps rsa_generate public_bytes
              files basename b64encode message c in
  Outgoing.sent L c' = Outgoing.sent L c ++ [message]
  /\ (PyStr.strip message = message -> Outgoing.stopped L c' = true)
  /\ (PyStr.strip message <> message ->
      Outgoing.stopped L c' = Outgoing.stopped L c)
  /\ process_message env ws username message
     = (send env ws (CommandResponse "Disconnecting...") ;; ws_close ws).
Proof.
  intros Hslash Hquit Hup c'. subst c'.
  rewrite (quit_line_reaches L to_text json_dumps rsa_generate public_bytes
             files basename b64encode c message Hslash Hquit Hup).
  cbv zeta. split; [|split; [|split]].
  - now destruct (String.eqb (PyStr.strip message) message).
  - intros E. now rewrite (proj2 (String.eqb_eq _ _) E).
  - intros E. now rewrite (proj2 (String.eqb_neq _ _) E).
  - unfold process_message. rewrite Hslash. now apply handle_quit.
Qed.

Lemma quit_with_trailing_blank_witness :
  Outgoing.sent _ (toy_send_line "/quit " toy_plain) = ["/quit "]
  /\ Outgoing.stopped _ (toy_send_line "/quit " toy_plain) = false
  /\ process_message live_env 2 "alice" "/quit "
     = (send live_env 2 (CommandResponse "Disconnecting...") ;; ws_close 2).
Proof.
  destruct (quit_with_trailing_blank Encryption.toy_lib (fun s => s)
              toy_dumps (fun d => d) (fun _ => PEM_BEGIN) ∅ (fun p => p)
              string_of_list_ascii toy_plain live_env 2%nat "alice" "/quit "
              eq_refl (or_introl eq_refl) eq_refl) as (H1 & _ & H3 & H4).
  split; [exact H1|]. split; [|exact H4].
  apply H3. discriminate.
Defined.

(** ** From one client to the other *)

Lemma encrypt_after_load (L : Encryption.CryptoLib) message target m k m1 :
  Encryption.load_peer_key L target m = (Some k, m1) ->
  Encryption.encrypt_message L message target m1
  = Encryption.encrypt_message L message target m.
Proof.
  intros H. unfold Encryption.encrypt_message.
  now rewrite (load_peer_key_again L target m k m1 H), H.
Qed.

(** X22. What one client sends as an encrypted whisper, the other client
    displays as the typed text: if the envelope text reaches the
    receiver as it was sent, the receiver holding the matching private
    key prints the whisper with the typed text and the encryption sign.
    A whisper whose text is empty is the exception: it decrypts to the
    empty string, which the receiver takes for a failure. *)
Theorem envelope_is_displayed (L : Encryption.CryptoLib)
    to_text of_text json_dumps json_loads loader rsa_generate public_bytes
    files basename b64encode
    (c r : Outgoing.State L) m mr sk verb target text sender_name :
  Encryption.CryptoLaws L ->
  (forall package,
     (Encryption.encrypt_message L (to_text text) target m).1 = Some package ->
     json_loads (json_dumps package) = Some package) ->
  of_text (to_text text) = text ->
  Encryption.utf8_decode L (Encryption.utf8_encode L (to_text text))
  = Some (to_text text) ->
  Outgoing.manager L c = Some m ->
  Outgoing.link_up L c = true ->
  (Encryption.load_peer_key L target m).1 = Some (Encryption.public_of L sk) ->
  Outgoing.manager L r = Some mr ->
  Encryption.private_key L mr = Some sk ->
  verb = "/whisper" \/ verb = "/w" ->
  lacks " " target = true ->
  PyStr.startswith "/pubkey " text = false ->
  exists content,
    Outgoing.sent L
      (Outgoing.send_line L to_text json_dumps rsa_generate public_bytes files
         basename b64encode (verb +:+ " " +:+ target +:+ " " +:+ text) c)
    = Outgoing.sent L c ++ [verb +:+ " " +:+ target +:+ " " +:+ content]
    /\ Outgoing.screen L
         (Incoming.display_whisper L of_text json_loads loader sender_name
            content r)
       = Outgoing.screen L r
         ++ [if String.eqb text EmptyString
             then Incoming.FAILED sender_name
             else "[Whisper] " +:+ sender_name +:+ " (encrypted): " +:+ text].
Proof.
  intros laws Hjson Htext Hutf Hm Hup Hpk Hr Hsk Hverb Ht Hkey.
  rewrite (whisper_line_flow L to_text json_dumps rsa_generate public_bytes
             files basename b64encode c m verb target text Hm Hup Hverb Ht
             Hkey).
  destruct (Encryption.load_peer_key L target m) as [[k|] m1] eqn:Hload;
    simpl in Hpk; [|discriminate].
  injection Hpk as ->.
  pose proof (load_peer_key_again L target m _ m1 Hload) as Hagain.
  destruct (Encryption.encrypt_message L (to_text text) target m1)
    as [[package|] m2] eqn:Henc.
  - exists ("[ENCRYPTED]" +:+ json_dumps package). split; [reflexivity|].
    unfold Incoming.display_whisper. rewrite Hr.
    change (PyStr.startswith "[ENCRYPTED]"
              ("[ENCRYPTED]" +:+ json_dumps package)) with true.
    cbv iota.
    change (PyStr.drop 11 ("[ENCRYPTED]" +:+ json_dumps package))
      with (json_dumps package).
    rewrite Hjson
      by now rewrite <- (encrypt_after_load L _ target m _ m1 Hload), Henc.
    rewrite (decrypt_encrypt_round_trip L laws m1 mr sk target (to_text text)
               package m2 Hsk ltac:(now rewrite Hagain) Hutf Henc).
    rewrite Htext. now destruct (String.eqb text EmptyString).
  - exfalso. unfold Encryption.encrypt_message in Henc.
    rewrite Hagain in Henc. discriminate.
Qed.

Lemma envelope_is_displayed_witness :
  exists content,
    Outgoing.sent _ (toy_send_line "/whisper bob hello" toy_keyed)
    = ["/whisper bob " +:+ content]
    /\ Outgoing.screen _
         (Incoming.display_whisper Encryption.toy_lib (fun s => s) toy_loads
            toy_loader "alice" content toy_listener)
       = ["[Whisper] alice (encrypted): hello"].
Proof.
  assert (Hjson : forall package,
            (Encryption.encrypt_message Encryption.toy_lib "hello" "bob"
               toy_sender).1 = Some package ->
            toy_loads (toy_dumps package) = Some package).
  { intros package H.
    assert (E : (Encryption.encrypt_message Encryption.toy_lib "hello" "bob"
                   toy_sender).1 = Some toy_envelope)
      by (vm_compute; reflexivity).
    rewrite E in H. injection H as <-. unfold toy_loads.
    now rewrite String.eqb_refl. }
  exact (envelope_is_displayed Encryption.toy_lib (fun s => s) (fun s => s)
           toy_dumps toy_loads toy_loader (fun d => d) (fun _ => PEM_BEGIN) ∅
           (fun p => p) string_of_list_ascii toy_keyed toy_listener toy_sender
           toy_receiver 7%nat "/whisper" "bob" "hello" "alice" toy_laws Hjson
           eq_refl eq_refl eq_refl eq_refl eq_refl eq_refl eq_refl
           (or_introl eq_refl) eq_refl eq_refl).
Defined.



(** ** Byte flips in longer messages *)

Section BlockFlip.

Import Encryption.

Local Open Scope nat_scope.

Variable E : list ascii -> list ascii.
Hypothesis E_length : forall x, length (E x) = 16.

Lemma cfb_dec_step f prev data :
  data <> [] ->
  cfb_dec E (S f) prev data
  = xor_bytes (take 16 data) (E prev)
    ++ cfb_dec E f (take 16 data) (drop 16 data).
Proof. destruct data; [congruence | reflexivity]. Qed.

Lemma first_block_length (data : list ascii) prev :
  length (xor_bytes (take 16 data) (E prev)) = Nat.min 16 (length data).
Proof. rewrite xor_bytes_length, E_length, length_take. lia. Qed.

(** Beyond the first block the plaintext does not depend on the IV. *)
Lemma cfb_dec_prev f p1 p2 data :
  drop 16 (cfb_dec E f p1 data) = drop 16 (cfb_dec E f p2 data).
Proof.
  destruct f as [|f]; [reflexivity|].
  destruct data as [|x d] eqn:Hd; [reflexivity|]. rewrite <- Hd.
  assert (Hne : data <> []) by (subst data; discriminate).
  rewrite !cfb_dec_step by exact Hne.
  destruct (Nat.le_gt_cases 16 (length data)) as [Hlen|Hlen].
  - rewrite !drop_app_ge by (rewrite first_block_length; lia).
    now rewrite !first_block_length.
  - rewrite (drop_ge data 16) by lia. rewrite !cfb_dec_nil, !app_nil_r.
    rewrite !drop_ge by (rewrite first_block_length; lia). reflexivity.
Qed.

(** Xoring byte [i] of the ciphertext, which lies in block [b], xors
    byte [i] of the plaintext, leaves the rest of the plaintext up to the
    end of block [b] as it was, and leaves everything after block [b+1]
    as it was. *)
Lemma cfb_dec_flip f : forall prev ct i b c delta,
  length ct <= f -> ct !! i = Some c -> 16 * b <= i < 16 * b + 16 ->
  let plain := cfb_dec E f prev ct in
  let plain' := cfb_dec E f prev (<[i := xor_ascii c delta]> ct) in
  exists p,
    plain !! i = Some p
    /\ take (16 * b + 16) plain'
       = <[i := xor_ascii p delta]> (take (16 * b + 16) plain)
    /\ drop (16 * b + 32) plain' = drop (16 * b + 32) plain.
Proof.
  induction f as [|f IH]; intros prev ct i b c delta Hf Hc Hb plain plain';
    subst plain plain'.
  { apply lookup_lt_Some in Hc. lia. }
  pose proof (lookup_lt_Some _ _ _ Hc) as Hi.
  assert (Hne : ct <> []) by (intros ->; simpl in Hi; lia).
  assert (Hne' : <[i := xor_ascii c delta]> ct <> []).
  { intros H. apply (f_equal length) in H. rewrite length_insert in H.
    simpl in H. lia. }
  rewrite !cfb_dec_step by assumption.
  destruct b as [|b].
  - (* the first block *)
    assert (Hi16 : i < 16) by lia.
    rewrite (take_insert_lt ct 16 i) by exact Hi16.
    rewrite (drop_insert_lt ct 16 i) by exact Hi16.
    assert (Hci : take 16 ct !! i = Some c)
      by (rewrite lookup_take_lt by exact Hi16; exact Hc).
    destruct (xor_bytes_lookup (take 16 ct) (E prev) i c Hci) as (e & He & Hp).
    { rewrite E_length, length_take. lia. }
    rewrite (xor_bytes_insert (take 16 ct) (E prev) i _ e He)
      by (rewrite length_take; lia).
    rewrite xor_ascii_swap.
    set (A := xor_bytes (take 16 ct) (E prev)) in *.
    assert (HA : length A = Nat.min 16 (length ct))
      by apply first_block_length.
    exists (xor_ascii c e). split; [|split].
    + rewrite lookup_app_l by lia. exact Hp.
    + destruct (Nat.le_gt_cases 16 (length ct)) as [Hlen|Hlen].
      * rewrite !take_app_le by (rewrite ?length_insert; lia).
        rewrite !take_ge by (rewrite ?length_insert; lia). reflexivity.
      * rewrite (drop_ge ct 16) by lia. rewrite !cfb_dec_nil, !app_nil_r.
        rewrite !take_ge by (rewrite ?length_insert; lia). reflexivity.
    + destruct (Nat.le_gt_cases 16 (length ct)) as [Hlen|Hlen].
      * rewrite !drop_app_ge by (rewrite ?length_insert; lia).
        rewrite length_insert, HA.
        replace (16 * 0 + 32 - Nat.min 16 (length ct)) with 16 by lia.
        apply cfb_dec_prev.
      * rewrite (drop_ge ct 16) by lia. rewrite !cfb_dec_nil, !app_nil_r.
        rewrite !drop_ge by (rewrite ?length_insert; lia). reflexivity.
  - (* a later block *)
    assert (Hi16 : 16 <= i) by lia.
    rewrite (take_insert_ge ct 16 i) by exact Hi16.
    rewrite (drop_insert_ge ct 16 i) by exact Hi16.
    set (A := xor_bytes (take 16 ct) (E prev)).
    assert (HA : length A = 16) by (subst A; rewrite first_block_length; lia).
    destruct (IH (take 16 ct) (drop 16 ct) (i - 16) b c delta)
      as (p & Hp & Htake & Hdrop).
    { rewrite length_drop. lia. }
    { rewrite lookup_drop. now replace (16 + (i - 16)) with i by lia. }
    { lia. }
    exists p. split; [|split].
    + rewrite lookup_app_r by lia. now rewrite HA.
    + replace (16 * S b + 16) with (16 + (16 * b + 16)) by lia.
      rewrite !take_app_add' by (symmetry; exact HA).
      rewrite insert_app_r_alt by lia. rewrite HA. now rewrite Htake.
    + replace (16 * S b + 32) with (16 + (16 * b + 32)) by lia.
      rewrite !drop_app_add' by (symmetry; exact HA). exact Hdrop.
Qed.

End BlockFlip.

(** X24. The envelope has no integrity protection, for messages of any
    length: whoever relays it can xor any byte of the ciphertext with a
    chosen value, and the receiver's decryption then yields the encoded
    message with the same byte xored by that value, the other bytes up to
    the end of that 16-byte block unchanged, and every byte after the
    following block unchanged; only the following block is garbled. *)
Theorem relay_can_flip_any_byte (L : Encryption.CryptoLib) sender receiver sk
    recipient message pkg sender' (i : nat) (p delta : ascii) :
  Encryption.CryptoLaws L ->
  Encryption.private_key L receiver = Some sk ->
  (Encryption.load_peer_key L recipient sender).1
  = Some (Encryption.public_of L sk) ->
  Encryption.encrypt_message L message recipient sender = (Some pkg, sender') ->
  Encryption.utf8_encode L message !! i = Some p ->
  exists ct c plain',
    Encryption.field_bytes L pkg "ciphertext" = Some ct
    /\ ct !! i = Some c
    /\ Encryption.decrypt_message L
         (Some (Encryption.with_ciphertext L
                  (<[i := Encryption.xor_ascii c delta]> ct) pkg)) receiver
       = Encryption.utf8_decode L plain'
    /\ take (16 * (i / 16) + 16)%nat plain'
       = <[i := Encryption.xor_ascii p delta]>
           (take (16 * (i / 16) + 16)%nat (Encryption.utf8_encode L message))
    /\ drop (16 * (i / 16) + 32)%nat plain'
       = drop (16 * (i / 16) + 32)%nat (Encryption.utf8_encode L message).
Proof.
  intros laws Hsk Hpk Henc Hp.
  destruct (encrypt_fields L laws message recipient sender _ pkg sender' Hpk Henc)
    as (Hk & Hiv & Hct).
  set (key := Encryption.urandom L (Encryption.draws L sender) 32) in *.
  set (iv := Encryption.urandom L (S (S (Encryption.draws L sender))) 16) in *.
  set (data := Encryption.utf8_encode L message) in *.
  pose proof (Encryption.aes_block_length L laws key) as HE.
  set (ct := Encryption.cfb_encrypt L key iv data) in *.
  assert (Hlen : length ct = length data).
  { subst ct. unfold Encryption.cfb_encrypt. now apply cfb_enc_length. }
  assert (Hi : (i < length data)%nat) by (apply lookup_lt_Some in Hp; exact Hp).
  destruct (lookup_lt_is_Some_2 ct i) as [c Hc]; [lia|].
  assert (Hplain : Encryption.cfb_dec (Encryption.aes_block L key) (length ct)
                     iv ct = data).
  { subst ct. unfold Encryption.cfb_encrypt. apply cfb_dec_enc; auto.
    rewrite cfb_enc_length by auto. lia. }
  destruct (cfb_dec_flip (Encryption.aes_block L key) HE (length ct) iv ct i
              (i / 16)%nat c delta) as (p' & Hp' & Htake & Hdrop).
  { lia. } { exact Hc. }
  { pose proof (Nat.div_mod_eq i 16). pose proof (Nat.mod_upper_bound i 16).
    lia. }
  rewrite Hplain in Hp', Htake, Hdrop.
  assert (p' = p) by congruence. subst p'.
  set (ct' := <[i := Encryption.xor_ascii c delta]> ct) in *.
  exists ct, c,
    (Encryption.cfb_dec (Encryption.aes_block L key) (length ct) iv ct').
  split; [exact Hct|]. split; [exact Hc|]. split; [|split; assumption].
  fold ct'.
  destruct (with_ciphertext_fields L laws ct' pkg) as (Tct & Tk & Tiv).
  rewrite Hk in Tk. rewrite Hiv in Tiv.
  rewrite (decrypt_fields L laws receiver sk _ _ _ _ Hsk Tk Tiv Tct).
  f_equal. fold key iv. unfold Encryption.cfb_decrypt.
  subst ct'. now rewrite length_insert.
Qed.

Lemma relay_can_flip_any_byte_witness :
  exists ct c plain',
    Encryption.field_bytes Encryption.toy_lib toy_long_envelope "ciphertext"
    = Some ct
    /\ ct !! 0%nat = Some c
    /\ Encryption.decrypt_message Encryption.toy_lib
         (Some (Encryption.with_ciphertext Encryption.toy_lib
                  (<[0%nat := Encryption.xor_ascii c "001"%char]> ct)
                  toy_long_envelope)) toy_receiver
       = Encryption.utf8_decode Encryption.toy_lib plain'
    /\ take 16 plain'
       = <[0%nat := "`"%char]> (take 16 (list_ascii_of_string toy_long_message))
    /\ drop 32 plain' = drop 32 (list_ascii_of_string toy_long_message).
Proof.
  assert (Henc : Encryption.encrypt_message Encryption.toy_lib
                   toy_long_message "bob" toy_sender
                 = (Some toy_long_envelope,
                    (Encryption.encrypt_message Encryption.toy_lib
                       toy_long_message "bob" toy_sender).2))
    by (vm_compute; reflexivity).
  exact (relay_can_flip_any_byte Encryption.toy_lib toy_sender toy_receiver
           7%nat "bob" toy_long_message toy_long_envelope _ 0%nat "a"%char
           "001"%char toy_laws eq_refl eq_refl Henc eq_refl).
Defined.

